(** * RideFinder: cart repository and order summary of [src/app.js]

    A shallow embedding of the cart functions of [app.js] ([getCart],
    [saveCart], [clearCart], [addItemToCart], [removeItemFromCart],
    [updateCartItemQuantity]) and of the order-summary arithmetic of
    [createCartSummaryHTML] and [createCheckoutSummaryHTML], together with
    the part of the JavaScript host they call: [localStorage], [JSON.parse],
    [JSON.stringify] and [Date.now].

    Numbers.  A JavaScript number is an IEEE 754 binary64 number, and the
    arithmetic of the program is the arithmetic of these numbers.  In a cart,
    ticket counts and day counts are integers ([Z]) and a price is a decimal
    [Dec] (an integer mantissa and a number of fraction digits), as the JSON
    text has them.  The counts are added as binary64 numbers
    ([binary64_add]): the sum is the exact one as long as it is at most
    [2^53] in absolute value and is rounded beyond; the theorems about sums
    of counts state this range.  The order summary is computed over the
    binary64 numbers of the kernel, each number of the cart being the
    binary64 number nearest to it.  The amounts that the specification
    describes, in exact decimal arithmetic, are given beside it under names
    that end in [_exact], to compare them with the amounts of the code.

    Carts.  The functions are modelled on carts of the shape of the data
    model: an object [{ items }] whose items have the fields [parkId],
    [days], [tickets], [unitPrice], [parkName], [parkImage] and [id].  A
    stored value of another shape is outside the model ([as_Cart]).

    The page.  Also embedded are the theme functions [initializeTheme] and
    [toggleTheme], on the class list of the root element; what
    [updateCartCount] writes to the badge of the header; and the stars of
    [getStarRatingHTML].  The markup that the other [create...HTML]
    functions and [renderHeader] build, and the toast of [showToast], are
    not modelled. *)

From Stdlib Require Import ZArith QArith Qround Ascii String Decimal DecimalString
  DecimalFacts DecimalN DecimalPos DecimalZ.
From Stdlib Require Import Floats.
From stdpp Require Import base option list gmap strings.

Local Open Scope Z_scope.

(** ** Data model *)

(** A decimal number [mantissa * 10^(-scale)]. *)
Record Dec := mkDec { mantissa : Z; scale : nat }.

(** [item.tickets] *)
Record Tickets := mkTickets { adults : Z; kids : Z }.

(** [item.unitPrice] *)
Record UnitPrice := mkUnitPrice { adult : Dec; child : Dec }.

(** The argument of [addItemToCart]: an item that has no [id] yet. *)
Record CartItemInput := mkInput {
  parkId : string;
  days : Z;
  tickets : Tickets;
  unitPrice : UnitPrice;
  parkName : string;
  parkImage : string
}.

(** An item of the cart, the object [{ ...newItem, id }]: the fields of the
    input and the [id] the cart gave it. *)
Record CartItem := mkItem { id : string; fields :> CartItemInput }.

(** The cart object [{ items: [...] }]. *)
Record Cart := mkCart { items : list CartItem }.

(** [item.tickets = t], the other fields kept. *)
Definition set_tickets (t : Tickets) (item : CartItem) : CartItem :=
  mkItem (id item)
    (mkInput (parkId item) (days item) t (unitPrice item)
       (parkName item) (parkImage item)).

(** The second argument of [updateCartItemQuantity]: ['adults'|'kids']. *)
Inductive TicketType := Adults | Kids.

(** [tickets[ticketType]] *)
Definition get_count (ticketType : TicketType) (t : Tickets) : Z :=
  match ticketType with Adults => adults t | Kids => kids t end.

(** [tickets[ticketType] = n] *)
Definition set_count (ticketType : TicketType) (n : Z) (t : Tickets) : Tickets :=
  match ticketType with
  | Adults => mkTickets n (kids t)
  | Kids => mkTickets (adults t) n
  end.

(** ** JSON values and JSON text *)

(** The values [JSON.parse] returns and [JSON.stringify] prints.  An object is
    the list of its members as the text has them (JavaScript keeps the last
    member of a repeated key and lists integer-like keys first; no cart has
    such keys).  A string is held as its UTF-8 bytes. *)
#[local] Unset Elimination Schemes.
Inductive JSON :=
| JNull
| JBool (b : bool)
| JNumber (n : Dec)
| JString (s : string)
| JArray (elements : list JSON)
| JObject (members : list (string * JSON)).
#[local] Set Elimination Schemes.

Inductive token :=
| LBRACE | RBRACE | LBRACK | RBRACK | COLON | COMMA
| TRUE | FALSE | NULL
| STR (s : string)
| NUM (n : Dec).

(** *** Printing *)

Definition string_of_N (n : N) : string := NilEmpty.string_of_uint (N.to_uint n).

Definition digit (q : N) : uint → uint :=
  match q with
  | 0 => D0 | 1 => D1 | 2 => D2 | 3 => D3 | 4 => D4
  | 5 => D5 | 6 => D6 | 7 => D7 | 8 => D8 | _ => D9
  end%N.

(** The [k] low decimal digits of [n], most significant first, with leading
    zeros. *)
Fixpoint fixed_digits (k : nat) (n : N) : uint :=
  match k with
  | O => Nil
  | S k =>
      digit (n / 10 ^ N.of_nat k mod 10)%N
        (fixed_digits k (n mod 10 ^ N.of_nat k)%N)
  end.

(** A number is printed in positional notation: sign, integer part, and the
    [scale] fraction digits when there are any. *)
Definition string_of_Dec (n : Dec) : string :=
  let a := Z.abs_N (mantissa n) in
  let p := (10 ^ N.of_nat (scale n))%N in
  (if mantissa n <? 0 then "-" else "") +:+
  string_of_N (a / p) +:+
  match scale n with
  | O => ""
  | S _ => "." +:+ NilEmpty.string_of_uint (fixed_digits (scale n) (a mod p))
  end.

Definition hex_digit (n : N) : ascii :=
  match n with
  | 0 => "0" | 1 => "1" | 2 => "2" | 3 => "3" | 4 => "4" | 5 => "5"
  | 6 => "6" | 7 => "7" | 8 => "8" | 9 => "9" | 10 => "a" | 11 => "b"
  | 12 => "c" | 13 => "d" | 14 => "e" | _ => "f"
  end%N%char.

(** One character inside a string literal, as [JSON.stringify] quotes it: the
    quote (character 34), the backslash and the control characters are
    escaped. *)
Definition quote_char (c : ascii) : string :=
  if Ascii.eqb c "034" then String "\" (String "034" "")
  else if Ascii.eqb c "\" then "\\"
  else if Ascii.eqb c "008" then "\b"
  else if Ascii.eqb c "009" then "\t"
  else if Ascii.eqb c "010" then "\n"
  else if Ascii.eqb c "012" then "\f"
  else if Ascii.eqb c "013" then "\r"
  else if (N_of_ascii c <? 32)%N then
    String "\" (String "u" (String "0" (String "0"
      (String (hex_digit (N_of_ascii c / 16)%N) (String (hex_digit (N_of_ascii c mod 16)%N) "")))))
  else String c "".

Fixpoint quote_chars (s : string) : string :=
  match s with
  | EmptyString => ""
  | String c s => quote_char c +:+ quote_chars s
  end.

Definition quote_string (s : string) : string :=
  String "034" (quote_chars s +:+ String "034" "").

Definition token_text (t : token) : string :=
  match t with
  | LBRACE => "{" | RBRACE => "}" | LBRACK => "[" | RBRACK => "]"
  | COLON => ":" | COMMA => ","
  | TRUE => "true" | FALSE => "false" | NULL => "null"
  | STR s => quote_string s
  | NUM n => string_of_Dec n
  end.

Fixpoint unlex (ts : list token) : string :=
  match ts with
  | [] => ""
  | t :: ts => token_text t +:+ unlex ts
  end.

(** The tokens of a value, without white space. *)
Fixpoint tokens_of (j : JSON) : list token :=
  match j with
  | JNull => [NULL]
  | JBool true => [TRUE]
  | JBool false => [FALSE]
  | JNumber n => [NUM n]
  | JString s => [STR s]
  | JArray l =>
      LBRACK ::
      (fix elements (first : bool) (l : list JSON) : list token :=
         match l with
         | [] => [RBRACK]
         | j :: l => (if first then [] else [COMMA]) ++ tokens_of j ++ elements false l
         end) true l
  | JObject l =>
      LBRACE ::
      (fix members (first : bool) (l : list (string * JSON)) : list token :=
         match l with
         | [] => [RBRACE]
         | (k, j) :: l =>
             (if first then [] else [COMMA]) ++ STR k :: COLON :: tokens_of j ++ members false l
         end) true l
  end.

(** [JSON.stringify(value)] *)
Definition JSON_stringify (j : JSON) : string := unlex (tokens_of j).

(** *** Lexing *)

Definition is_ws (c : ascii) : bool :=
  Ascii.eqb c " " || Ascii.eqb c "009" || Ascii.eqb c "010" || Ascii.eqb c "013".

Fixpoint skip_ws (s : string) : string :=
  match s with
  | String c r => if is_ws c then skip_ws r else s
  | EmptyString => s
  end.

Definition digit_of (c : ascii) : option (uint → uint) :=
  match c with
  | "0" => Some D0 | "1" => Some D1 | "2" => Some D2 | "3" => Some D3
  | "4" => Some D4 | "5" => Some D5 | "6" => Some D6 | "7" => Some D7
  | "8" => Some D8 | "9" => Some D9 | _ => None
  end%char.

(** The longest prefix of decimal digits, and what follows it. *)
Fixpoint scan_digits (s : string) : uint * string :=
  match s with
  | EmptyString => (Nil, s)
  | String c r =>
      match digit_of c with
      | Some d => let '(u, rest) := scan_digits r in (d u, rest)
      | None => (Nil, s)
      end
  end.

(** The number a digit sequence denotes, leading zeros allowed. *)
Fixpoint digits_value (acc : N) (d : uint) : N :=
  match d with
  | Nil => acc
  | D0 d => digits_value (10 * acc) d
  | D1 d => digits_value (10 * acc + 1) d
  | D2 d => digits_value (10 * acc + 2) d
  | D3 d => digits_value (10 * acc + 3) d
  | D4 d => digits_value (10 * acc + 4) d
  | D5 d => digits_value (10 * acc + 5) d
  | D6 d => digits_value (10 * acc + 6) d
  | D7 d => digits_value (10 * acc + 7) d
  | D8 d => digits_value (10 * acc + 8) d
  | D9 d => digits_value (10 * acc + 9) d
  end%N.

(** The integer part of a JSON number: [0], or digits that start with [1-9]. *)
Definition int_part_ok (d : uint) : bool :=
  match d with
  | Nil => false
  | D0 Nil => true
  | D0 _ => false
  | _ => true
  end.

Definition nonempty_digits (d : uint) : bool :=
  match d with Nil => false | _ => true end.

(** [.digits], optional *)
Definition lex_fraction (s : string) : option (uint * string) :=
  match s with
  | String c r =>
      if Ascii.eqb c "." then
        let '(f, rest) := scan_digits r in
        if nonempty_digits f then Some (f, rest) else None
      else Some (Nil, s)
  | EmptyString => Some (Nil, s)
  end.

(** [(+|-)?digits] after the exponent mark *)
Definition lex_exponent_digits (s : string) : option (Z * string) :=
  let '(neg, s) :=
    match s with
    | String c r =>
        if Ascii.eqb c "-" then (true, r)
        else if Ascii.eqb c "+" then (false, r) else (false, s)
    | EmptyString => (false, s)
    end in
  let '(x, rest) := scan_digits s in
  let e := Z.of_N (digits_value 0 x) in
  if nonempty_digits x then Some (if neg : bool then - e else e, rest) else None.

(** [(e|E)(+|-)?digits], optional *)
Definition lex_exponent (s : string) : option (Z * string) :=
  match s with
  | String c r =>
      if Ascii.eqb c "e" || Ascii.eqb c "E" then lex_exponent_digits r
      else Some (0, s)
  | EmptyString => Some (0, s)
  end.

(** The decimal with digits [i.f] times [10^e]. *)
Definition make_Dec (neg : bool) (i f : uint) (e : Z) : Dec :=
  let a := Z.of_N (digits_value (digits_value 0 i) f) in
  let m := if neg then - a else a in
  let k := Z.of_nat (nb_digits f) - e in
  if 0 <=? k then mkDec m (Z.to_nat k) else mkDec (m * 10 ^ (- k)) 0.

(** [-], optional *)
Definition lex_sign (s : string) : bool * string :=
  match s with
  | String c r => if Ascii.eqb c "-" then (true, r) else (false, s)
  | EmptyString => (false, s)
  end.

(** A number literal [-? int frac? exp?] at the head of [s]. *)
Definition lex_number (s : string) : option (Dec * string) :=
  let '(neg, s) := lex_sign s in
  let '(i, s) := scan_digits s in
  if int_part_ok i then
    '(f, s) ← lex_fraction s;
    '(e, s) ← lex_exponent s;
    Some (make_Dec neg i f e, s)
  else None.

(** The value of a hexadecimal digit, from its character code. *)
Definition hex_value (c : ascii) : option N :=
  let n := N_of_ascii c in
  if (48 <=? n)%N && (n <=? 57)%N then Some (n - 48)%N
  else if (97 <=? n)%N && (n <=? 102)%N then Some (n - 87)%N
  else if (65 <=? n)%N && (n <=? 70)%N then Some (n - 55)%N
  else None.

Definition hex4 (a b c d : ascii) : option N :=
  a ← hex_value a; b ← hex_value b; c ← hex_value c; d ← hex_value d;
  Some (((a * 16 + b) * 16 + c) * 16 + d)%N.

(** A string is held as its UTF-8 bytes: the bytes of a code unit [\uXXXX]. *)
Definition utf8 (cp : N) : string :=
  let byte (n : N) := ascii_of_N n in
  if (cp <? 128)%N then String (byte cp) ""
  else if (cp <? 2048)%N then
    String (byte (192 + cp / 64)%N) (String (byte (128 + cp mod 64)%N) "")
  else
    String (byte (224 + cp / 4096)%N)
      (String (byte (128 + (cp / 64) mod 64)%N) (String (byte (128 + cp mod 64)%N) "")).

(** The character a two-character escape denotes. *)
Definition simple_escape (c : ascii) : option ascii :=
  match c with
  | "034" => Some "034" | "\" => Some "\" | "/" => Some "/"
  | "b" => Some "008" | "f" => Some "012" | "n" => Some "010"
  | "r" => Some "013" | "t" => Some "009"
  | _ => None
  end%char.

(** The rest of a string literal after its opening quote, and what follows
    the closing quote. *)
Fixpoint lex_string (s : string) : option (string * string) :=
  match s with
  | EmptyString => None
  | String c r =>
      if Ascii.eqb c "034" then Some ("", r)
      else if Ascii.eqb c "\" then
        match r with
        | String e r' =>
            match simple_escape e with
            | Some x => '(t, rest) ← lex_string r'; Some (String x t, rest)
            | None =>
                if Ascii.eqb e "u" then
                  match r' with
                  | String h1 (String h2 (String h3 (String h4 r''))) =>
                      cp ← hex4 h1 h2 h3 h4;
                      '(t, rest) ← lex_string r'';
                      Some (utf8 cp +:+ t, rest)
                  | _ => None
                  end
                else None
            end
        | EmptyString => None
        end
      else if (N_of_ascii c <? 32)%N then None
      else '(t, rest) ← lex_string r; Some (String c t, rest)
  end.

(** [s] without its prefix [w]; [None] when [s] does not start with [w]. *)
Fixpoint strip_prefix (w s : string) : option string :=
  match w, s with
  | EmptyString, _ => Some s
  | String a w, String b s => if Ascii.eqb a b then strip_prefix w s else None
  | String _ _, EmptyString => None
  end.

(** The token at the head of a text that starts with no white space, and
    what follows it. *)
Definition lex_token (s : string) : option (token * string) :=
  match s with
  | EmptyString => None
  | String c r =>
      if Ascii.eqb c "{" then Some (LBRACE, r)
      else if Ascii.eqb c "}" then Some (RBRACE, r)
      else if Ascii.eqb c "[" then Some (LBRACK, r)
      else if Ascii.eqb c "]" then Some (RBRACK, r)
      else if Ascii.eqb c ":" then Some (COLON, r)
      else if Ascii.eqb c "," then Some (COMMA, r)
      else if Ascii.eqb c "t" then pair TRUE <$> strip_prefix "rue" r
      else if Ascii.eqb c "f" then pair FALSE <$> strip_prefix "alse" r
      else if Ascii.eqb c "n" then pair NULL <$> strip_prefix "ull" r
      else if Ascii.eqb c "034" then prod_map STR (λ x, x) <$> lex_string r
      else prod_map NUM (λ x, x) <$> lex_number s
  end.

(** The tokens of a text; [None] when some character starts no token. *)
Fixpoint lex (fuel : nat) (s : string) : option (list token) :=
  match fuel with
  | O => None
  | S fuel =>
      match skip_ws s with
      | EmptyString => Some []
      | s => '(t, rest) ← lex_token s; cons t <$> lex fuel rest
      end
  end.

(** *** Parsing *)

Fixpoint parse_value (fuel : nat) (ts : list token) : option (JSON * list token) :=
  match fuel with
  | O => None
  | S fuel =>
      match ts with
      | NULL :: r => Some (JNull, r)
      | TRUE :: r => Some (JBool true, r)
      | FALSE :: r => Some (JBool false, r)
      | NUM n :: r => Some (JNumber n, r)
      | STR s :: r => Some (JString s, r)
      | LBRACK :: RBRACK :: r => Some (JArray [], r)
      | LBRACK :: r =>
          '(j, r) ← parse_value fuel r;
          '(l, r) ← parse_elements fuel r;
          Some (JArray (j :: l), r)
      | LBRACE :: RBRACE :: r => Some (JObject [], r)
      | LBRACE :: STR k :: COLON :: r =>
          '(j, r) ← parse_value fuel r;
          '(l, r) ← parse_members fuel r;
          Some (JObject ((k, j) :: l), r)
      | _ => None
      end
  end
with parse_elements (fuel : nat) (ts : list token) : option (list JSON * list token) :=
  match fuel with
  | O => None
  | S fuel =>
      match ts with
      | RBRACK :: r => Some ([], r)
      | COMMA :: r =>
          '(j, r) ← parse_value fuel r;
          '(l, r) ← parse_elements fuel r;
          Some (j :: l, r)
      | _ => None
      end
  end
with parse_members (fuel : nat) (ts : list token) : option (list (string * JSON) * list token) :=
  match fuel with
  | O => None
  | S fuel =>
      match ts with
      | RBRACE :: r => Some ([], r)
      | COMMA :: STR k :: COLON :: r =>
          '(j, r) ← parse_value fuel r;
          '(l, r) ← parse_members fuel r;
          Some ((k, j) :: l, r)
      | _ => None
      end
  end.

(** The value a text denotes: one value, and nothing after it. *)
Definition parse_text (s : string) : option JSON :=
  ts ← lex (S (String.length s)) s;
  match parse_value (S (length ts)) ts with
  | Some (j, []) => Some j
  | _ => None
  end.

(** *** The cart as a JSON value *)

Definition json_of_Z (n : Z) : JSON := JNumber (mkDec n 0).

(** The members of an item, in the order of the data model; [id] is last, as
    [{ ...newItem, id }] adds it after the members of the input. *)
Definition json_of_item (item : CartItem) : JSON :=
  JObject
    [("parkId", JString (parkId item));
     ("days", json_of_Z (days item));
     ("tickets",
       JObject [("adults", json_of_Z (adults (tickets item)));
                ("kids", json_of_Z (kids (tickets item)))]);
     ("unitPrice",
       JObject [("adult", JNumber (adult (unitPrice item)));
                ("child", JNumber (child (unitPrice item)))]);
     ("parkName", JString (parkName item));
     ("parkImage", JString (parkImage item));
     ("id", JString (id item))].

Definition json_of_cart (cart : Cart) : JSON :=
  JObject [("items", JArray (json_of_item <$> items cart))].

(** The first member of an object when its key is [k], and the other members. *)
Definition member (k : string) (l : list (string * JSON)) :
    option (JSON * list (string * JSON)) :=
  match l with
  | (k', j) :: l => if String.eqb k' k then Some (j, l) else None
  | [] => None
  end.

Definition as_Z (j : JSON) : option Z :=
  match j with JNumber (mkDec n O) => Some n | _ => None end.

Definition as_Dec (j : JSON) : option Dec :=
  match j with JNumber n => Some n | _ => None end.

Definition as_string (j : JSON) : option string :=
  match j with JString s => Some s | _ => None end.

Definition as_object (j : JSON) : option (list (string * JSON)) :=
  match j with JObject l => Some l | _ => None end.

Definition no_more {A} (l : list (string * JSON)) (a : A) : option A :=
  match l with [] => Some a | _ => None end.

Definition as_tickets (j : JSON) : option Tickets :=
  l ← as_object j;
  '(a, l) ← member "adults" l; a ← as_Z a;
  '(k, l) ← member "kids" l; k ← as_Z k;
  no_more l (mkTickets a k).

Definition as_unitPrice (j : JSON) : option UnitPrice :=
  l ← as_object j;
  '(a, l) ← member "adult" l; a ← as_Dec a;
  '(c, l) ← member "child" l; c ← as_Dec c;
  no_more l (mkUnitPrice a c).

Definition as_item (j : JSON) : option CartItem :=
  l ← as_object j;
  '(p, l) ← member "parkId" l; p ← as_string p;
  '(d, l) ← member "days" l; d ← as_Z d;
  '(t, l) ← member "tickets" l; t ← as_tickets t;
  '(u, l) ← member "unitPrice" l; u ← as_unitPrice u;
  '(n, l) ← member "parkName" l; n ← as_string n;
  '(i, l) ← member "parkImage" l; i ← as_string i;
  '(x, l) ← member "id" l; x ← as_string x;
  no_more l (mkItem x (mkInput p d t u n i)).

(** The cart a value is, when it has the shape of one: an object whose only
    member [items] is an array of items with the fields of the data model. *)
Definition as_cart (j : JSON) : option Cart :=
  match j with
  | JObject [(k, JArray l)] =>
      if String.eqb k "items" then mkCart <$> mapM as_item l else None
  | _ => None
  end.

(** ** The host: exceptions, [localStorage], [JSON] *)

Inductive exn := SyntaxError | TypeError.

Inductive outcome (A : Type) :=
| Return (a : A)
| Throw (e : exn).
Arguments Return {A} a.
Arguments Throw {A} e.

(** The content of [localStorage]: strings under string keys. *)
Abbreviation Storage := (gmap string string).

(** A computation that reads and writes [localStorage] and may throw.  An
    exception ends the computation: no function of [app.js] catches one. *)
Definition JS (A : Type) : Type := Storage → outcome (A * Storage).

Definition ret {A} (a : A) : JS A := λ ls, Return (a, ls).

Definition throw {A} (e : exn) : JS A := λ _, Throw e.

Definition bind {A B} (m : JS A) (f : A → JS B) : JS B :=
  λ ls, match m ls with
        | Return (a, ls') => f a ls'
        | Throw e => Throw e
        end.

Declare Scope js_scope.
Delimit Scope js_scope with js.
Notation "'let*' x := m 'in' k" := (bind m (λ x, k))
  (at level 10, x name, m at level 100, k at level 200) : js_scope.
Notation "m ;; k" := (bind m (λ _, k))
  (at level 100, k at level 200, right associativity) : js_scope.

(** [localStorage.getItem(key)]: [None] is JavaScript's [null]. *)
Definition localStorage_getItem (key : string) : JS (option string) :=
  λ ls, Return (ls !! key, ls).

(** [localStorage.setItem(key, value)]; a store that is full (the quota
    error of the browser) is not modelled. *)
Definition localStorage_setItem (key value : string) : JS unit :=
  λ ls, Return (tt, <[key := value]> ls).

(** [localStorage.removeItem(key)] *)
Definition localStorage_removeItem (key : string) : JS unit :=
  λ ls, Return (tt, delete key ls).

(** [JSON.parse(text)]: the value of the text, or a [SyntaxError]. *)
Definition JSON_parse (text : string) : JS JSON :=
  match parse_text text with
  | Some j => ret j
  | None => throw SyntaxError
  end.

(** A value used as a cart: the repository functions read [cart.items] and
    the fields of its items, which throws a [TypeError] on a value of another
    shape.  Values that are no cart are outside the model. *)
Definition as_Cart (j : JSON) : JS Cart :=
  match as_cart j with
  | Some cart => ret cart
  | None => throw TypeError
  end.

(** [`${n}`] for an integer [n] *)
Definition string_of_Z (n : Z) : string := NilZero.string_of_int (Z.to_int n).

(** [array.findIndex(p)]: the index of the first element that satisfies [p],
    or [-1]. *)
Fixpoint findIndex_from {A} (p : A → bool) (l : list A) (i : Z) : Z :=
  match l with
  | [] => -1
  | x :: l => if p x then i else findIndex_from p l (i + 1)
  end.

Definition findIndex {A} (p : A → bool) (l : list A) : Z := findIndex_from p l 0.

(** ** The host: binary64 arithmetic on counts *)

(** A count is a JavaScript number that is an integer.  Every integer of at
    most [2^53 = 9007199254740992] in absolute value is a binary64 number; a
    larger integer is one when 53 binary digits write it.  [binary64_round n]
    is the binary64 number nearest to the integer [n], the one with the even
    last digit when two are as near.  It is what IEEE 754 gives as long as the
    result is finite, below [2^1024] in absolute value; beyond, JavaScript has
    [Infinity], which is outside the model. *)
Definition binary64_round (n : Z) : Z :=
  if Z.abs n <=? 9007199254740992 then n
  else
    let e := Z.log2 (Z.abs n) - 52 in
    let q := Z.abs n / 2 ^ e in
    let r := Z.abs n mod 2 ^ e in
    let half := 2 ^ (e - 1) in
    let q' := if (half <? r) || ((r =? half) && Z.odd q) then q + 1 else q in
    Z.sgn n * (q' * 2 ^ e).

(** [a + b] for two numbers that are integers: the exact sum, rounded. *)
Definition binary64_add (a b : Z) : Z := binary64_round (a + b).

(** ** The program: cart management of [app.js] *)

Local Open Scope js_scope.

Definition CART_KEY : string := "dirtBikeAppCart".

(** [function getCart()] *)
Definition getCart : JS JSON :=
  let* cart := localStorage_getItem CART_KEY in
  match cart with
  | Some text =>
      (* [cart ? ... : ...]: the empty string is falsy *)
      if bool_decide (text = "") then ret (JObject [("items", JArray [])])
      else JSON_parse text
  | None => ret (JObject [("items", JArray [])])
  end.

(** [function saveCart(cart)] *)
Definition saveCart (cart : JSON) : JS unit :=
  localStorage_setItem CART_KEY (JSON_stringify cart).

(** [function clearCart()] *)
Definition clearCart : JS unit := localStorage_removeItem CART_KEY.

(** [const cart = getCart()], used as a cart. *)
Definition readCart : JS Cart :=
  let* cart := getCart in as_Cart cart.

(** [tickets.adults += a; tickets.kids += k] *)
Definition add_tickets (a k : Z) (item : CartItem) : CartItem :=
  let item :=
    set_tickets (set_count Adults (binary64_add (adults (tickets item)) a) (tickets item))
      item in
  set_tickets (set_count Kids (binary64_add (kids (tickets item)) k) (tickets item)) item.

(** The statements of [addItemToCart] between [getCart] and [saveCart].
    [now] is the value of [Date.now()]. *)
Definition add_item (now : Z) (newItem : CartItemInput) (cart : Cart) : Cart :=
  let existingItemIndex :=
    findIndex (λ item : CartItem,
                 bool_decide (parkId item = parkId newItem) &&
                 bool_decide (days item = days newItem)) (items cart) in
  if existingItemIndex >? -1 then
    mkCart (alter (add_tickets (adults (tickets newItem)) (kids (tickets newItem)))
              (Z.to_nat existingItemIndex) (items cart))
  else
    mkCart (items cart ++ [mkItem ("cart-" +:+ string_of_Z now) newItem]).

(** [function addItemToCart(newItem)] *)
Definition addItemToCart (now : Z) (newItem : CartItemInput) : JS unit :=
  let* cart := readCart in
  saveCart (json_of_cart (add_item now newItem cart)).

(** The statement of [removeItemFromCart] between [getCart] and [saveCart]. *)
Definition remove_item (itemId : string) (cart : Cart) : Cart :=
  mkCart (filter (λ item : CartItem, id item ≠ itemId) (items cart)).

(** [function removeItemFromCart(itemId)] *)
Definition removeItemFromCart (itemId : string) : JS unit :=
  let* cart := readCart in
  saveCart (json_of_cart (remove_item itemId cart)).

(** [tickets.adults === 0 && tickets.kids === 0] *)
Definition no_tickets (item : CartItem) : bool :=
  bool_decide (adults (tickets item) = 0) && bool_decide (kids (tickets item) = 0).

(** The statements of [updateCartItemQuantity] between [getCart] and
    [saveCart].  The index that [findIndex] returns is in range, so the item
    is there when it is read back ([update_quantity_found]). *)
Definition update_quantity (itemId : string) (ticketType : TicketType)
    (newQuantity : Z) (cart : Cart) : Cart :=
  let itemIndex :=
    findIndex (λ item : CartItem, bool_decide (id item = itemId)) (items cart) in
  if itemIndex >? -1 then
    if newQuantity >=? 0 then
      let l :=
        alter (λ item : CartItem,
                 set_tickets (set_count ticketType newQuantity (tickets item)) item)
          (Z.to_nat itemIndex) (items cart) in
      match l !! Z.to_nat itemIndex with
      | Some item => if no_tickets item then mkCart (delete (Z.to_nat itemIndex) l) else mkCart l
      | None => mkCart l
      end
    else cart
  else cart.

(** [function updateCartItemQuantity(itemId, ticketType, newQuantity)] *)
Definition updateCartItemQuantity (itemId : string) (ticketType : TicketType)
    (newQuantity : Z) : JS unit :=
  let* cart := readCart in
  saveCart (json_of_cart (update_quantity itemId ticketType newQuantity cart)).

(** The [count] of [updateCartCount()]: the tickets of all items, added one
    after the other.  The badge of the header shows it; it is displayed when
    [count > 0]. *)
Definition updateCartCount : JS Z :=
  let* cart := readCart in
  ret (foldl (λ total (item : CartItem),
                binary64_add (binary64_add total (adults (tickets item)))
                  (kids (tickets item))) 0 (items cart)).

(** A sequence of calls of [addItemToCart], each with the time it runs at. *)
Fixpoint addItemsToCart (calls : list (Z * CartItemInput)) : JS unit :=
  match calls with
  | [] => ret tt
  | (now, newItem) :: calls => addItemToCart now newItem;; addItemsToCart calls
  end.

(** [function updateCartCount()] with the element of the header it writes
    to.  [cartCountEl] is what [document.getElementById('cart-item-count')]
    returns ([None] is [null]); of the element, the two properties that the
    function assigns are kept: its [textContent] and the [display] of its
    style. *)
Record Element := mkElement { textContent : string; display : string }.

Definition updateCartCount_element (cartCountEl : option Element) : JS (option Element) :=
  let* count := updateCartCount in
  match cartCountEl with
  | Some _ =>
      ret (Some (mkElement (string_of_Z count) (if count >? 0 then "flex" else "none")))
  | None => ret None
  end.

(** A call of one of the functions that change the cart, and a sequence of
    such calls, as the pages make them one after the other. *)
Inductive call :=
| AddItemToCart (now : Z) (newItem : CartItemInput)
| RemoveItemFromCart (itemId : string)
| UpdateCartItemQuantity (itemId : string) (ticketType : TicketType) (newQuantity : Z)
| ClearCart.

Definition run_call (c : call) : JS unit :=
  match c with
  | AddItemToCart now newItem => addItemToCart now newItem
  | RemoveItemFromCart itemId => removeItemFromCart itemId
  | UpdateCartItemQuantity itemId ticketType newQuantity =>
      updateCartItemQuantity itemId ticketType newQuantity
  | ClearCart => clearCart
  end.

Fixpoint run_calls (cs : list call) : JS unit :=
  match cs with
  | [] => ret tt
  | c :: cs => run_call c;; run_calls cs
  end.

(** ** The program: theme management of [app.js] *)

Definition THEME_KEY : string := "dirtBikeAppTheme".

(** [document.documentElement.classList] is the list of the class names of
    the root element, in their order.  [classList.contains(token)]: *)
Definition classList_contains (token : string) (classList : list string) : bool :=
  bool_decide (token ∈ classList).

(** [classList.add(token)]: the token is appended when it is not there. *)
Definition classList_add (token : string) (classList : list string) : list string :=
  if classList_contains token classList then classList else classList ++ [token].

(** [classList.remove(token)] *)
Definition classList_remove (token : string) (classList : list string) : list string :=
  filter (λ c, c ≠ token) classList.

(** [classList.toggle(token)]: the token is removed when it is there, and
    appended when it is not. *)
Definition classList_toggle (token : string) (classList : list string) : list string :=
  if classList_contains token classList then classList_remove token classList
  else classList ++ [token].

(** [function initializeTheme()], on the class list of the root element. *)
Definition initializeTheme (classList : list string) : JS (list string) :=
  let* savedTheme := localStorage_getItem THEME_KEY in
  if bool_decide (savedTheme = Some "dark") then ret (classList_add "dark" classList)
  else ret (classList_remove "dark" classList).

(** [function toggleTheme()] *)
Definition toggleTheme (classList : list string) : JS (list string) :=
  let classList := classList_toggle "dark" classList in
  let isDarkMode := classList_contains "dark" classList in
  localStorage_setItem THEME_KEY (if isDarkMode then "dark" else "light");;
  ret classList.

Local Close Scope js_scope.

(** ** The host: the binary64 numbers of a cart *)

(** The binary64 number nearest to an integer (the integer itself up to
    [2^53]; [Infinity] from [2^1024]). *)
Definition binary64_of_Z (n : Z) : float :=
  SF2Prim (binary_normalize prec emax n 0 false).

(** The binary64 number nearest to a decimal, the number that [JSON.parse]
    and a number literal give for it.  The quotient of the mantissa by the
    power of ten is taken with more than 64 binary digits and one more digit
    that tells whether a rest is left, and rounded once. *)
Definition binary64_of_Dec (n : Dec) : float :=
  let m := Z.abs (mantissa n) in
  let d := 10 ^ Z.of_nat (scale n) in
  let s := Z.max 0 (64 + Z.log2 d - Z.log2 m) in
  let q := (m * 2 ^ s) / d in
  let rest := if (m * 2 ^ s) mod d =? 0 then 0 else 1 in
  SF2Prim (binary_normalize prec emax (Z.sgn (mantissa n) * (2 * q + rest)) (- s - 1) false).

(** ** The program: order summary of [app.js] *)

#[local] Set Warnings "-inexact-float".

(** [(item.tickets.adults * item.unitPrice.adult
      + item.tickets.kids * item.unitPrice.child) * item.days], the
    [lineTotal] of [createCartItemHTML]. *)
Definition lineTotal (item : CartItem) : float :=
  ((binary64_of_Z (adults (tickets item)) * binary64_of_Dec (adult (unitPrice item))
    + binary64_of_Z (kids (tickets item)) * binary64_of_Dec (child (unitPrice item)))
   * binary64_of_Z (days item))%float.

(** The four amounts of an order summary. *)
Record Summary := mkSummary {
  subtotal : float; discount : float; tax : float; total : float
}.

(** The constants of [createCartSummaryHTML(cart)]; the markup around them,
    which prints each with [toFixed(2)], is not modelled. *)
Definition createCartSummaryHTML (cart : Cart) : Summary :=
  let subtotal :=
    foldl (λ total (item : CartItem),
             total + (binary64_of_Z (adults (tickets item))
                        * binary64_of_Dec (adult (unitPrice item))
                      + binary64_of_Z (kids (tickets item))
                        * binary64_of_Dec (child (unitPrice item)))
                     * binary64_of_Z (days item))%float 0%float (items cart) in
  let discount := if (500 <? subtotal)%float then (subtotal * 0.10)%float else 0%float in
  let tax := ((subtotal - discount) * 0.08)%float in
  let total := (subtotal - discount + tax)%float in
  mkSummary subtotal discount tax total.

(** The constants of [createCheckoutSummaryHTML(cart)], and the amount it
    prints for each item. *)
Definition createCheckoutSummaryHTML (cart : Cart) : list float * Summary :=
  let subtotal :=
    foldl (λ total (item : CartItem),
             total + (binary64_of_Z (adults (tickets item))
                        * binary64_of_Dec (adult (unitPrice item))
                      + binary64_of_Z (kids (tickets item))
                        * binary64_of_Dec (child (unitPrice item)))
                     * binary64_of_Z (days item))%float 0%float (items cart) in
  let discount := if (500 <? subtotal)%float then (subtotal * 0.10)%float else 0%float in
  let tax := ((subtotal - discount) * 0.08)%float in
  let total := (subtotal - discount + tax)%float in
  ((λ item : CartItem,
      ((binary64_of_Z (adults (tickets item)) * binary64_of_Dec (adult (unitPrice item))
        + binary64_of_Z (kids (tickets item)) * binary64_of_Dec (child (unitPrice item)))
       * binary64_of_Z (days item))%float) <$> items cart,
   mkSummary subtotal discount tax total).

#[local] Set Warnings "inexact-float".

(** ** The order summary of the specification, in exact decimal arithmetic *)

(** The specification describes the amounts of the summary as decimal
    amounts that are not rounded on the way.  These are its formulas over the
    rationals, the numbers of the cart standing for themselves; the theorems
    compare them with the amounts of the code above. *)

Local Open Scope Q_scope.

(** The amount a decimal denotes. *)
Definition Q_of_Dec (n : Dec) : Q :=
  inject_Z (mantissa n) / inject_Z (10 ^ Z.of_nat (scale n)).

Definition lineTotal_exact (item : CartItem) : Q :=
  (inject_Z (adults (tickets item)) * Q_of_Dec (adult (unitPrice item))
   + inject_Z (kids (tickets item)) * Q_of_Dec (child (unitPrice item)))
  * inject_Z (days item).

Record Summary_exact := mkSummary_exact {
  subtotal_exact : Q; discount_exact : Q; tax_exact : Q; total_exact : Q
}.

Definition summary_exact (cart : Cart) : Summary_exact :=
  let subtotal := foldl (λ total item, total + lineTotal_exact item) 0 (items cart) in
  let discount := if Qlt_le_dec 500 subtotal then subtotal * 0.10 else 0 in
  let tax := (subtotal - discount) * 0.08 in
  let total := subtotal - discount + tax in
  mkSummary_exact subtotal discount tax total.

(** The amount of each item and the summary, as the checkout page shows
    them. *)
Definition checkout_exact (cart : Cart) : list Q * Summary_exact :=
  (lineTotal_exact <$> items cart, summary_exact cart).

Local Close Scope Q_scope.

(** ** The program: star ratings of [app.js] *)

(** The text [s] with each apostrophe replaced by a double quote: the markup
    of [app.js] is written below with apostrophes where the source has double
    quotes. *)
Fixpoint dquote (s : string) : string :=
  match s with
  | EmptyString => EmptyString
  | String c s => String (if Ascii.eqb c "'" then "034" else c) (dquote s)
  end.

(** [ICONS.star] and [ICONS.starEmpty] *)
Definition ICONS_star : string :=
  dquote "<svg class='icon' xmlns='http://www.w3.org/2000/svg' width='16' height='16' viewBox='0 0 24 24' fill='currentColor' stroke='currentColor' stroke-width='2' stroke-linecap='round' stroke-linejoin='round'><polygon points='12 2 15.09 8.26 22 9.27 17 14.14 18.18 21.02 12 17.77 5.82 21.02 7 14.14 2 9.27 8.91 8.26 12 2'/></svg>".

Definition ICONS_starEmpty : string :=
  dquote "<svg class='icon icon--empty' xmlns='http://www.w3.org/2000/svg' width='16' height='16' viewBox='0 0 24 24' fill='currentColor' stroke='currentColor' stroke-width='2' stroke-linecap='round' stroke-linejoin='round'><polygon points='12 2 15.09 8.26 22 9.27 17 14.14 18.18 21.02 12 17.77 5.82 21.02 7 14.14 2 9.27 8.91 8.26 12 2'/></svg>".

(** [function getStarRatingHTML(rating)], for a rating that is a finite
    number: [Math.floor] is then the floor of the number it denotes.  The
    loop [for (let i = 0; i < 5; i++)] runs over 0, 1, 2, 3, 4. *)
Definition getStarRatingHTML (rating : Q) : string :=
  let fullStars := Qfloor rating in
  let stars :=
    foldl (λ stars i, stars +:+ (if i <? fullStars then ICONS_star else ICONS_starEmpty))
      "" (seqZ 0 5) in
  dquote "<div class='star-rating flex items-center'>" +:+ stars +:+ "</div>".

(** ** Properties the theorems are stated with *)

(** The store holds the cart: reading the cart gives it, and changes nothing. *)
Definition holds (ls : Storage) (cart : Cart) : Prop :=
  readCart ls = Return (cart, ls).

(** What [saveCart] leaves in the store. *)
Definition saved (cart : Cart) (ls : Storage) : Storage :=
  <[CART_KEY := JSON_stringify (json_of_cart cart)]> ls.

(** The item is a line for park [p] and [d] days: the key that
    [addItemToCart] merges on. *)
Definition same_line (p : string) (d : Z) (item : CartItemInput) : Prop :=
  parkId item = p ∧ days item = d.

#[local] Instance same_line_dec p d item : Decision (same_line p d item).
Proof. unfold same_line. apply _. Defined.

(** The items of the cart for park [p] and [d] days. *)
Definition line_items (p : string) (d : Z) (cart : Cart) : list CartItem :=
  filter (λ item : CartItem, same_line p d item) (items cart).

(** The invariant the specification gives for an item of the cart. *)
Definition has_tickets (item : CartItemInput) : Prop :=
  0 < adults (tickets item) + kids (tickets item).

(** No count is negative. *)
Definition counts_nonneg (item : CartItemInput) : Prop :=
  0 ≤ adults (tickets item) ∧ 0 ≤ kids (tickets item).

(** The other ticket type. *)
Definition other (ticketType : TicketType) : TicketType :=
  match ticketType with Adults => Kids | Kids => Adults end.

(** [sum] of a list of counts. *)
Definition Zsum (l : list Z) : Z := foldr Z.add 0 l.

(** The ticket counts of the inputs of a sequence of calls. *)
Definition adults_of (calls : list (Z * CartItemInput)) : list Z :=
  (λ c, adults (tickets c.2)) <$> calls.

Definition kids_of (calls : list (Z * CartItemInput)) : list Z :=
  (λ c, kids (tickets c.2)) <$> calls.

(** The number of tickets of a cart: what the badge of the header shows. *)
Definition ticket_count (cart : Cart) : Z :=
  Zsum ((λ item : CartItem, adults (tickets item) + kids (tickets item)) <$> items cart).

(** The id that [addItemToCart] gives to an item it appends at time [now]. *)
Definition new_id (now : Z) : string := "cart-" +:+ string_of_Z now.

(** The key [addItemToCart] merges on. *)
Definition line_key (item : CartItem) : string * Z := (parkId item, days item).

(** What a call does to the cart between [getCart] and [saveCart]. *)
Definition apply_call (c : call) (cart : Cart) : Cart :=
  match c with
  | AddItemToCart now newItem => add_item now newItem cart
  | RemoveItemFromCart itemId => remove_item itemId cart
  | UpdateCartItemQuantity itemId ticketType newQuantity =>
      update_quantity itemId ticketType newQuantity cart
  | ClearCart => mkCart []
  end.

(** The times of the [addItemToCart] calls of a sequence. *)
Definition add_times (cs : list call) : list Z :=
  cs ≫= λ c, match c with AddItemToCart now _ => [now] | _ => [] end.

(** The inputs of the [addItemToCart] calls of a sequence. *)
Definition add_inputs (cs : list call) : list CartItemInput :=
  cs ≫= λ c, match c with AddItemToCart _ newItem => [newItem] | _ => [] end.

(** The integers that are binary64 numbers one and all, and whose sums the
    code computes exactly when they stay among them: those of at most
    [2^53 = 9007199254740992] in absolute value. *)
Definition exact_range (n : Z) : Prop := -9007199254740992 ≤ n ≤ 9007199254740992.

(** The absolute values of a list of counts, summed: a bound on every sum of
    some of them. *)
Definition magnitude (l : list Z) : Z := Zsum (Z.abs <$> l).

(** The counts of a list of items. *)
Definition adults_in (l : list CartItem) : list Z :=
  (λ item : CartItem, adults (tickets item)) <$> l.

Definition kids_in (l : list CartItem) : list Z :=
  (λ item : CartItem, kids (tickets item)) <$> l.

(** The absolute values of all counts of a cart, summed. *)
Definition ticket_magnitude (cart : Cart) : Z :=
  magnitude (adults_in (items cart)) + magnitude (kids_in (items cart)).

(** What a call can add to it: the counts of an input of [addItemToCart], the
    quantity of [updateCartItemQuantity], in absolute value. *)
Definition call_magnitude (c : call) : Z :=
  match c with
  | AddItemToCart _ newItem =>
      Z.abs (adults (tickets newItem)) + Z.abs (kids (tickets newItem))
  | UpdateCartItemQuantity _ _ newQuantity => Z.abs newQuantity
  | _ => 0
  end.

(** [n] copies of a text, one after the other. *)
Fixpoint string_repeat (n : nat) (s : string) : string :=
  match n with
  | O => EmptyString
  | S n => s +:+ string_repeat n s
  end.

(** The fields of an item that are no ticket count. *)
Definition fixed_fields (item : CartItem) :=
  (id item, parkId item, days item, unitPrice item, parkName item, parkImage item).

(** ** Example data *)

(** An input for park [p], [d] days, [a] adults and [k] kids, at 50 and 30
    a day. *)
Definition example_input (p : string) (d a k : Z) : CartItemInput :=
  mkInput p d (mkTickets a k) (mkUnitPrice (mkDec 50 0) (mkDec 30 0))
    "Pine Ridge" "pine-ridge.jpg".

Definition example_item (x p : string) (d a k : Z) : CartItem :=
  mkItem x (example_input p d a k).

(** ** Vocabulary of the codec proofs *)

(** What may follow a number in a text: the end, or a character that cannot
    continue the number. *)
Definition delimited (s : string) : Prop :=
  match s with
  | EmptyString => True
  | String c _ => digit_of c = None ∧ c ≠ "."%char ∧ c ≠ "e"%char ∧ c ≠ "E"%char
  end.

(** The first character of a printed number is a sign or a digit. *)
Definition number_start (c : ascii) : Prop := c = "-"%char ∨ is_Some (digit_of c).

Definition is_NUM (t : token) : Prop := match t with NUM _ => True | _ => False end.

(** No number is directly followed by a number. *)
Fixpoint separated (ts : list token) : Prop :=
  match ts with
  | [] => True
  | t :: ts' =>
      match t, ts' with
      | NUM _, t' :: _ => ¬ is_NUM t'
      | _, _ => True
      end ∧ separated ts'
  end.

(** The tokens of the elements of an array after its bracket, and of the
    members of an object after its brace. *)
Fixpoint elements_tokens (first : bool) (l : list JSON) : list token :=
  match l with
  | [] => [RBRACK]
  | j :: l => (if first then [] else [COMMA]) ++ tokens_of j ++ elements_tokens false l
  end.

Fixpoint members_tokens (first : bool) (l : list (string * JSON)) : list token :=
  match l with
  | [] => [RBRACE]
  | (k, j) :: l =>
      (if first then [] else [COMMA]) ++ STR k :: COLON :: tokens_of j ++ members_tokens false l
  end.

(** A value starts with a token that closes nothing. *)
Definition opens (t : token) : Prop :=
  match t with RBRACK | RBRACE | COLON | COMMA => False | _ => True end.

(** ** The JSON codec: printing and then parsing a value gives it back *)

Lemma append_nil_l (s : string) : "" +:+ s = s.
Proof. reflexivity. Qed.

Lemma append_cons (c : ascii) (s t : string) : String c s +:+ t = String c (s +:+ t).
Proof. reflexivity. Qed.

Lemma append_assoc (s t u : string) : (s +:+ t) +:+ u = s +:+ t +:+ u.
Proof. induction s as [|c s IH]; [reflexivity|]. rewrite !append_cons. now f_equal. Qed.

Section Digits.


Lemma scan_digits_app (u : uint) (rest : string) :
  match rest with String c _ => digit_of c = None | EmptyString => True end →
  scan_digits (NilEmpty.string_of_uint u +:+ rest) = (u, rest).
Proof.
  intros Hrest. induction u as [|u IH|u IH|u IH|u IH|u IH|u IH|u IH|u IH|u IH|u IH];
    cbn [NilEmpty.string_of_uint]; rewrite ?append_cons, ?append_nil_l;
    try (cbn [scan_digits digit_of]; rewrite IH; reflexivity).
  destruct rest as [|c r]; [reflexivity|].
  change (match digit_of c with
          | Some d => let '(u, rest) := scan_digits r in (d u, rest)
          | None => (Nil, String c r)
          end = (Nil, String c r)).
  now rewrite Hrest.
Qed.

Lemma digits_value_of_uint_acc (d : uint) (acc : positive) :
  N.pos (Pos.of_uint_acc d acc) = digits_value (N.pos acc) d.
Proof.
  revert acc. induction d; intros acc; cbn [Pos.of_uint_acc digits_value];
    [reflexivity| rewrite IHd; f_equal; lia ..].
Qed.

Lemma digits_value_of_uint (d : uint) : digits_value 0 d = N.of_uint d.
Proof.
  unfold N.of_uint. induction d; cbn [Pos.of_uint digits_value];
    [reflexivity | exact IHd | rewrite digits_value_of_uint_acc; reflexivity ..].
Qed.

Lemma digits_value_to_uint (n : N) : digits_value 0 (N.to_uint n) = n.
Proof. rewrite digits_value_of_uint. apply DecimalN.Unsigned.of_to. Qed.

Lemma int_part_ok_to_uint (n : N) : int_part_ok (N.to_uint n) = true.
Proof.
  pose proof (DecimalN.Unsigned.to_of (N.to_uint n)) as H.
  rewrite DecimalN.Unsigned.of_to in H.
  destruct (N.to_uint n) as [|u| | | | | | | | |] eqn:E; try reflexivity.
  - symmetry in H. now apply unorm_nonnil in H.
  - destruct u; try reflexivity; exfalso; rewrite unorm_D0 in H;
      unfold unorm in H;
      match type of H with
      | context [nzhead ?d] =>
          pose proof (nzhead_nonzero d) as Hnz; destruct (nzhead d); congruence
      end.
Qed.

Lemma nb_digits_digit (q : N) (d : uint) : nb_digits (digit q d) = S (nb_digits d).
Proof.
  destruct q as [|p]; [reflexivity|].
  do 4 (try destruct p as [p|p|]; try reflexivity).
Qed.

Lemma digits_value_digit (acc q : N) (d : uint) :
  (q < 10)%N → digits_value acc (digit q d) = digits_value (10 * acc + q) d.
Proof.
  intros Hq.
  assert (q = 0 ∨ q = 1 ∨ q = 2 ∨ q = 3 ∨ q = 4 ∨ q = 5 ∨ q = 6 ∨ q = 7 ∨ q = 8 ∨ q = 9)%N
    as Hcases by lia.
  repeat destruct Hcases as [->|Hcases]; try subst q; cbn [digit digits_value];
    f_equal; lia.
Qed.

Lemma nb_digits_fixed_digits (k : nat) (n : N) : nb_digits (fixed_digits k n) = k.
Proof.
  revert n. induction k as [|k IH]; intros n; [reflexivity|].
  cbn [fixed_digits]. now rewrite nb_digits_digit, IH.
Qed.

Lemma digits_value_fixed_digits (k : nat) (acc n : N) :
  (n < 10 ^ N.of_nat k)%N →
  digits_value acc (fixed_digits k n) = (acc * 10 ^ N.of_nat k + n)%N.
Proof.
  revert acc n. induction k as [|k IH]; intros acc n Hn.
  - cbn in *. lia.
  - cbn [fixed_digits].
    assert (Hp : (10 ^ N.of_nat (S k) = 10 * 10 ^ N.of_nat k)%N).
    { rewrite Nat2N.inj_succ, N.pow_succ_r'. reflexivity. }
    rewrite Hp in *.
    set (p := (10 ^ N.of_nat k)%N) in *.
    assert (Hp0 : (0 < p)%N) by (apply N.neq_0_lt_0, N.pow_nonzero; lia).
    assert (Hq : (n / p < 10)%N) by (apply N.Div0.div_lt_upper_bound; lia).
    assert (Hr : (n mod p < p)%N) by (apply N.mod_lt; lia).
    pose proof (N.div_mod n p ltac:(lia)) as Hdm.
    rewrite (N.mod_small (n / p) 10) by exact Hq.
    rewrite digits_value_digit by exact Hq.
    rewrite IH by exact Hr. lia.
Qed.

End Digits.

Section Numbers.


Lemma string_of_uint_head (u : uint) (s : string) :
  u ≠ Nil →
  ∃ c r, NilEmpty.string_of_uint u +:+ s = String c r ∧ is_Some (digit_of c).
Proof.
  intros Hu. destruct u; [done| cbn [NilEmpty.string_of_uint]; rewrite append_cons;
    eexists _, _; split; [reflexivity | cbn; eauto] ..].
Qed.

Lemma to_uint_nonnil (n : N) : N.to_uint n ≠ Nil.
Proof.
  destruct n as [|p]; [discriminate|]. apply DecimalPos.Unsigned.to_uint_nonnil.
Qed.

Lemma lex_sign_digit (c : ascii) (r : string) :
  is_Some (digit_of c) → lex_sign (String c r) = (false, String c r).
Proof.
  intros Hc. unfold lex_sign. destruct (Ascii.eqb_spec c "-") as [->|]; [|reflexivity].
  destruct Hc as [? Hc]. discriminate Hc.
Qed.

Lemma nonempty_digits_fixed (k : nat) (n : N) :
  nonempty_digits (fixed_digits (S k) n) = true.
Proof.
  cbn [fixed_digits]. generalize (fixed_digits k (n mod 10 ^ N.of_nat k)%N) as d.
  generalize (n / 10 ^ N.of_nat k mod 10)%N as q. intros q d.
  destruct q as [|p]; [reflexivity|].
  do 4 (try destruct p as [p|p|]; try reflexivity).
Qed.

Lemma lex_fraction_exponent_end (rest : string) :
  delimited rest →
  lex_fraction rest = Some (Nil, rest) ∧ lex_exponent rest = Some (0, rest).
Proof.
  destruct rest as [|c r]; [done|]. intros (_ & Hdot & He & HE).
  unfold lex_fraction, lex_exponent.
  apply Ascii.eqb_neq in Hdot, He, HE. now rewrite Hdot, He, HE.
Qed.

Lemma delimited_no_digit (rest : string) :
  delimited rest →
  match rest with String c _ => digit_of c = None | EmptyString => True end.
Proof. destruct rest; [done|]. now intros [? _]. Qed.

(** Lexing a printed number gives the number back. *)
Lemma lex_number_string_of_Dec (n : Dec) (rest : string) :
  delimited rest → lex_number (string_of_Dec n +:+ rest) = Some (n, rest).
Proof.
  intros Hrest. destruct n as [m k]. unfold string_of_Dec, string_of_N.
  cbn [mantissa scale].
  set (a := Z.abs_N m). set (p := (10 ^ N.of_nat k)%N).
  assert (Hp : (0 < p)%N) by (apply N.neq_0_lt_0, N.pow_nonzero; lia).
  pose proof (N.div_mod a p ltac:(lia)) as Hdm.
  pose proof (N.mod_lt a p ltac:(lia)) as Hr.
  set (tail := match k with
               | O => ""
               | S _ => "." +:+ NilEmpty.string_of_uint (fixed_digits k (a mod p))
               end).
  rewrite !append_assoc.
  (* the sign *)
  assert (Hsign : lex_sign ((if m <? 0 then "-" else "") +:+
                    NilEmpty.string_of_uint (N.to_uint (a / p)) +:+ tail +:+ rest)
                  = (m <? 0, NilEmpty.string_of_uint (N.to_uint (a / p)) +:+ tail +:+ rest)).
  { destruct (m <? 0); [reflexivity|]. rewrite append_nil_l.
    destruct (string_of_uint_head (N.to_uint (a / p)) (tail +:+ rest) (to_uint_nonnil _))
      as (c & r & -> & Hc).
    now apply lex_sign_digit. }
  unfold lex_number. rewrite Hsign. clear Hsign.
  (* the integer part *)
  rewrite scan_digits_app; cycle 1.
  { destruct k; subst tail; [rewrite append_nil_l; now apply delimited_no_digit|].
    reflexivity. }
  rewrite int_part_ok_to_uint.
  (* the fraction and the exponent *)
  destruct (lex_fraction_exponent_end rest Hrest) as [Hf He].
  assert (Hfrac : lex_fraction (tail +:+ rest) = Some (fixed_digits k (a mod p), rest)).
  { destruct k as [|k]; subst tail; [exact Hf|].
    rewrite append_assoc, append_cons, append_nil_l. unfold lex_fraction.
    rewrite Ascii.eqb_refl, scan_digits_app by now apply delimited_no_digit.
    now rewrite nonempty_digits_fixed. }
  rewrite Hfrac. cbn [mbind option_bind]. rewrite He. cbn [mbind option_bind].
  (* the value *)
  do 2 f_equal. unfold make_Dec.
  rewrite digits_value_to_uint, digits_value_fixed_digits, nb_digits_fixed_digits by exact Hr.
  fold p. replace (a / p * p + a mod p)%N with a by lia.
  rewrite Z.sub_0_r. destruct (Z.leb_spec 0 (Z.of_nat k)); [|lia].
  rewrite Nat2Z.id. f_equal. subst a.
  destruct (Z.ltb_spec m 0); lia.
Qed.

Lemma number_head (n : Dec) (s : string) :
  ∃ c r, string_of_Dec n +:+ s = String c r ∧ number_start c.
Proof.
  unfold string_of_Dec, string_of_N. rewrite !append_assoc.
  destruct (mantissa n <? 0).
  - rewrite append_cons. eexists _, _. split; [reflexivity|now left].
  - rewrite append_nil_l.
    destruct (string_of_uint_head (N.to_uint (Z.abs_N (mantissa n) / 10 ^ N.of_nat (scale n)))
                (match scale n with
                 | O => ""
                 | S _ => "." +:+ NilEmpty.string_of_uint
                            (fixed_digits (scale n)
                               (Z.abs_N (mantissa n) mod 10 ^ N.of_nat (scale n)))
                 end +:+ s) (to_uint_nonnil _)) as (c & r & -> & Hc).
    eexists _, _. split; [reflexivity|now right].
Qed.

End Numbers.

Section Lexer.

Lemma lex_string_quote_char (c : ascii) (r : string) :
  lex_string (quote_char c +:+ r) = '(t, rest) ← lex_string r; Some (String c t, rest).
Proof. destruct c as [[] [] [] [] [] [] [] []]; reflexivity. Qed.

(** Lexing a quoted string gives the string back. *)
Lemma lex_string_quote_chars (s rest : string) :
  lex_string (quote_chars s +:+ String "034" rest) = Some (s, rest).
Proof.
  induction s as [|c s IH]; [reflexivity|].
  cbn [quote_chars]. rewrite append_assoc, lex_string_quote_char, IH. reflexivity.
Qed.

Lemma lex_token_number_start (c : ascii) (r : string) :
  number_start c →
  is_ws c = false ∧
  lex_token (String c r) = prod_map NUM (λ x, x) <$> lex_number (String c r).
Proof.
  intros [->|Hc]; [split; reflexivity|].
  destruct c as [[] [] [] [] [] [] [] []];
    first [ split; reflexivity | destruct Hc as [? Hc]; discriminate Hc ].
Qed.


Lemma token_head (t : token) (rest : string) :
  ∃ c r, token_text t +:+ rest = String c r ∧ is_ws c = false ∧
         (¬ is_NUM t → delimited (String c r)).
Proof.
  destruct t; try (eexists _, _; split; [reflexivity|]; split; [reflexivity|];
                   intros _; cbn; repeat split; discriminate).
  cbn [token_text]. destruct (number_head n rest) as (c & r & -> & Hc).
  eexists _, _. split; [reflexivity|].
  split; [now apply (lex_token_number_start c r)|]. intros []. exact I.
Qed.

Lemma lex_token_text (t : token) (rest : string) :
  (is_NUM t → delimited rest) →
  lex_token (token_text t +:+ rest) = Some (t, rest).
Proof.
  intros Hrest. destruct t; try reflexivity.
  - cbn [token_text]. unfold quote_string. rewrite append_cons, append_assoc, append_cons.
    cbn [lex_token Ascii.eqb Bool.eqb]. rewrite append_nil_l, lex_string_quote_chars.
    reflexivity.
  - cbn [token_text].
    destruct (number_head n rest) as (c & r & Heq & Hc).
    rewrite Heq. rewrite (proj2 (lex_token_number_start c r Hc)), <- Heq.
    rewrite lex_number_string_of_Dec by now apply Hrest. reflexivity.
Qed.

Lemma delimited_unlex (t : token) (ts : list token) :
  ¬ is_NUM t → delimited (unlex (t :: ts)).
Proof.
  intros Ht. cbn [unlex].
  destruct (token_head t (unlex ts)) as (c & r & -> & _ & Hd). now apply Hd.
Qed.

(** Lexing the text of a token list gives the tokens back. *)
Lemma lex_unlex (ts : list token) (fuel : nat) :
  (length ts < fuel)%nat → separated ts → lex fuel (unlex ts) = Some ts.
Proof.
  revert fuel. induction ts as [|t ts IH]; intros fuel Hfuel Hsep.
  - destruct fuel; [cbn in Hfuel; lia|]. reflexivity.
  - destruct fuel as [|fuel]; [cbn in Hfuel; lia|].
    cbn [unlex lex].
    destruct (token_head t (unlex ts)) as (c & r & Heq & Hws & _).
    rewrite Heq. cbn [skip_ws]. rewrite Hws, <- Heq.
    rewrite lex_token_text.
    + cbn [mbind option_bind]. rewrite IH; [reflexivity|cbn in Hfuel; lia|apply Hsep].
    + intros Ht. destruct t; try done. destruct ts as [|t' ts]; [exact I|].
      apply delimited_unlex, Hsep.
Qed.

End Lexer.

Section Parser.

(** Induction on a value with the hypothesis for the values inside it. *)
Lemma JSON_ind (P : JSON → Prop) :
  P JNull → (∀ b, P (JBool b)) → (∀ n, P (JNumber n)) → (∀ s, P (JString s)) →
  (∀ l, Forall P l → P (JArray l)) →
  (∀ l, Forall (λ kj, P kj.2) l → P (JObject l)) →
  ∀ j, P j.
Proof.
  intros Hnull Hbool Hnum Hstr Harr Hobj.
  fix IH 1. intros [|b|n|s|l|l].
  - exact Hnull.
  - apply Hbool.
  - apply Hnum.
  - apply Hstr.
  - apply Harr. induction l as [|j l IHl]; constructor; [apply IH|exact IHl].
  - apply Hobj. induction l as [|[k j] l IHl]; constructor; [apply IH|exact IHl].
Qed.


Lemma tokens_of_JArray (l : list JSON) :
  tokens_of (JArray l) = LBRACK :: elements_tokens true l.
Proof. reflexivity. Qed.

Lemma tokens_of_JObject (l : list (string * JSON)) :
  tokens_of (JObject l) = LBRACE :: members_tokens true l.
Proof. reflexivity. Qed.


Lemma tokens_of_head (j : JSON) : ∃ t r, tokens_of j = t :: r ∧ opens t.
Proof.
  destruct j as [|[]| | |l|l]; try (eexists _, _; split; [reflexivity|exact I]).
Qed.

Lemma parse_value_LBRACK (fuel : nat) (t : token) (r : list token) :
  opens t →
  parse_value (S fuel) (LBRACK :: t :: r) =
    '(j, r) ← parse_value fuel (t :: r);
    '(l, r) ← parse_elements fuel r;
    Some (JArray (j :: l), r).
Proof. destruct t; intros Ht; try reflexivity; destruct Ht. Qed.

Lemma parse_value_LBRACE (fuel : nat) (k : string) (r : list token) :
  parse_value (S fuel) (LBRACE :: STR k :: COLON :: r) =
    '(j, r) ← parse_value fuel r;
    '(l, r) ← parse_members fuel r;
    Some (JObject ((k, j) :: l), r).
Proof. reflexivity. Qed.

Lemma parse_elements_tokens (fuel : nat) (l : list JSON) (rest : list token) :
  Forall (λ j, ∀ fuel rest, (length (tokens_of j) < fuel)%nat →
                 parse_value fuel (tokens_of j ++ rest) = Some (j, rest)) l →
  (length (elements_tokens false l) < fuel)%nat →
  parse_elements fuel (elements_tokens false l ++ rest) = Some (l, rest).
Proof.
  intros Hl. revert fuel. induction Hl as [|j l Hj _ IH]; intros fuel Hfuel;
    (destruct fuel as [|fuel]; [lia|]); [reflexivity|].
  cbn [elements_tokens] in *. rewrite !length_app in Hfuel. cbn [length] in Hfuel.
  rewrite <- !app_assoc. cbn [app parse_elements].
  rewrite Hj by lia. cbn [mbind option_bind].
  rewrite IH by lia. reflexivity.
Qed.

Lemma parse_members_tokens (fuel : nat) (l : list (string * JSON)) (rest : list token) :
  Forall (λ kj, ∀ fuel rest, (length (tokens_of kj.2) < fuel)%nat →
                  parse_value fuel (tokens_of kj.2 ++ rest) = Some (kj.2, rest)) l →
  (length (members_tokens false l) < fuel)%nat →
  parse_members fuel (members_tokens false l ++ rest) = Some (l, rest).
Proof.
  intros Hl. revert fuel. induction Hl as [|[k j] l Hj _ IH]; intros fuel Hfuel;
    (destruct fuel as [|fuel]; [lia|]); [reflexivity|].
  cbn [elements_tokens snd] in *. cbn [members_tokens] in *.
  rewrite !length_app in Hfuel. cbn [length] in Hfuel. rewrite length_app in Hfuel.
  cbn [app]. rewrite <- !app_assoc. cbn [parse_members].
  rewrite Hj by lia. cbn [mbind option_bind].
  rewrite IH by lia. reflexivity.
Qed.

(** Parsing the tokens of a value gives the value back. *)
Lemma parse_value_tokens_of (j : JSON) :
  ∀ fuel rest, (length (tokens_of j) < fuel)%nat →
    parse_value fuel (tokens_of j ++ rest) = Some (j, rest).
Proof.
  induction j as [|b|n|s|l IH|l IH] using JSON_ind; intros fuel rest Hfuel;
    (destruct fuel as [|fuel]; [lia|]); try (try destruct b; reflexivity).
  - rewrite tokens_of_JArray in *. destruct l as [|j l]; [reflexivity|].
    cbn [elements_tokens app length] in *. rewrite length_app in Hfuel.
    apply Forall_cons in IH as [Hj Hl].
    destruct (tokens_of_head j) as (t & r & Hjr & Ht).
    rewrite <- app_assoc. rewrite Hjr at 1. cbn [app].
    rewrite parse_value_LBRACK by exact Ht.
    change (t :: r ++ elements_tokens false l ++ rest)
      with ((t :: r) ++ elements_tokens false l ++ rest).
    rewrite <- Hjr, Hj by lia. cbn [mbind option_bind].
    rewrite parse_elements_tokens by (trivial; lia). reflexivity.
  - rewrite tokens_of_JObject in *. destruct l as [|[k j] l]; [reflexivity|].
    cbn [members_tokens app length] in *. rewrite length_app in Hfuel.
    apply Forall_cons in IH as [Hj Hl]. cbn [snd] in Hj.
    rewrite <- app_assoc. rewrite parse_value_LBRACE.
    rewrite Hj by lia. cbn [mbind option_bind].
    rewrite parse_members_tokens by (trivial; lia). reflexivity.
Qed.

(** No two numbers are next to each other in the tokens of a value. *)
Lemma separated_app (ts rest : list token) (t : token) :
  ¬ is_NUM t → separated ts → separated (t :: rest) → separated (ts ++ t :: rest).
Proof.
  intros Ht Hts Hrest. induction ts as [|t1 ts IH]; [exact Hrest|].
  destruct Hts as [H1 Hts]. split; [|now apply IH].
  destruct t1; try exact I. destruct ts as [|t2 ts]; [exact Ht|exact H1].
Qed.

Lemma separated_cons (t : token) (ts : list token) :
  ¬ is_NUM t → separated ts → separated (t :: ts).
Proof. intros Ht Hts. split; [|exact Hts]. destruct t; try exact I. now destruct Ht. Qed.

Lemma separated_elements_tokens (first : bool) (l : list JSON) :
  Forall (λ j, separated (tokens_of j)) l → separated (elements_tokens first l).
Proof.
  intros Hl. revert first. induction Hl as [|j l Hj _ IH]; intros first.
  - now split.
  - cbn [elements_tokens]. specialize (IH false).
    assert (Hnext : ∃ t r, elements_tokens false l = t :: r ∧ ¬ is_NUM t).
    { destruct l; eexists _, _; (split; [reflexivity|intros []]). }
    destruct Hnext as (t & r & Heq & Ht). rewrite Heq in *.
    destruct first; cbn [app]; [|apply separated_cons; [intros []|]];
      now apply separated_app.
Qed.

Lemma separated_members_tokens (first : bool) (l : list (string * JSON)) :
  Forall (λ kj, separated (tokens_of kj.2)) l → separated (members_tokens first l).
Proof.
  intros Hl. revert first. induction Hl as [|[k j] l Hj _ IH]; intros first.
  - now split.
  - cbn [members_tokens]. specialize (IH false). cbn [snd] in Hj.
    assert (Hnext : ∃ t r, members_tokens false l = t :: r ∧ ¬ is_NUM t).
    { destruct l as [|[]]; eexists _, _; (split; [reflexivity|intros []]). }
    destruct Hnext as (t & r & Heq & Ht). rewrite Heq in *.
    assert (separated (STR k :: COLON :: tokens_of j ++ t :: r)).
    { do 2 (apply separated_cons; [intros []|]). now apply separated_app. }
    destruct first; cbn [app]; [assumption|]. apply separated_cons; [intros []|assumption].
Qed.

Lemma separated_tokens_of (j : JSON) : separated (tokens_of j).
Proof.
  induction j as [|b|n|s|l IH|l IH] using JSON_ind;
    try (try destruct b; now split).
  - rewrite tokens_of_JArray. apply separated_cons; [intros []|].
    now apply separated_elements_tokens.
  - rewrite tokens_of_JObject. apply separated_cons; [intros []|].
    now apply separated_members_tokens.
Qed.

Lemma length_append (s t : string) :
  String.length (s +:+ t) = (String.length s + String.length t)%nat.
Proof. induction s as [|c s IH]; [reflexivity|]. rewrite append_cons. cbn. now rewrite IH. Qed.

Lemma length_unlex (ts : list token) : (length ts ≤ String.length (unlex ts))%nat.
Proof.
  induction ts as [|t ts IH]; [reflexivity|]. cbn [unlex length].
  destruct (token_head t "") as (c & r & Heq & _).
  rewrite length_append.
  assert (1 ≤ String.length (token_text t))%nat; [|lia].
  apply (f_equal String.length) in Heq. rewrite length_append in Heq. cbn in Heq. lia.
Qed.

(** [JSON.parse(JSON.stringify(value))] is [value]. *)
Lemma parse_text_stringify (j : JSON) : parse_text (JSON_stringify j) = Some j.
Proof.
  unfold parse_text, JSON_stringify.
  rewrite lex_unlex; [|pose proof (length_unlex (tokens_of j)); lia|apply separated_tokens_of].
  cbn [mbind option_bind].
  rewrite <- (List.app_nil_r (tokens_of j)) at 2.
  rewrite parse_value_tokens_of by lia. reflexivity.
Qed.

End Parser.

(** ** The fuel of the lexer and of the parser is enough *)

Section Fuel.

Lemma scan_digits_length (s : string) :
  String.length s = (nb_digits (scan_digits s).1 + String.length (scan_digits s).2)%nat.
Proof.
  induction s as [|c s IH]; [reflexivity|]. cbn [scan_digits].
  destruct (digit_of c) as [dc|] eqn:Hc; [|reflexivity].
  destruct (scan_digits s) as [u rest]. cbn [fst snd String.length] in *.
  assert (nb_digits (dc u) = S (nb_digits u)) as ->; [|lia].
  destruct c as [[] [] [] [] [] [] [] []]; cbn in Hc; try discriminate;
    injection Hc as <-; reflexivity.
Qed.

Lemma int_part_ok_nb (u : uint) : int_part_ok u = true → (1 ≤ nb_digits u)%nat.
Proof. destruct u; cbn; [discriminate|lia..]. Qed.

Lemma lex_sign_length (s : string) :
  (String.length (lex_sign s).2 ≤ String.length s)%nat.
Proof. destruct s as [|c r]; cbn; [lia|]. destruct (Ascii.eqb c "-"); cbn; lia. Qed.

Lemma lex_fraction_length (s rest : string) (f : uint) :
  lex_fraction s = Some (f, rest) → (String.length rest ≤ String.length s)%nat.
Proof.
  destruct s as [|c r]; cbn [lex_fraction]; [intros [= _ <-]; reflexivity|].
  destruct (Ascii.eqb c "."); [|intros [= _ <-]; reflexivity].
  pose proof (scan_digits_length r) as Hr. destruct (scan_digits r) as [u r'].
  destruct (nonempty_digits u); [|discriminate]. intros [= _ <-]. cbn in *. lia.
Qed.

Lemma lex_exponent_digits_length (s rest : string) (e : Z) :
  lex_exponent_digits s = Some (e, rest) → (String.length rest ≤ String.length s)%nat.
Proof.
  unfold lex_exponent_digits.
  destruct s as [|c r]; [|destruct (Ascii.eqb c "-"); [|destruct (Ascii.eqb c "+")]];
    match goal with
    | |- context [scan_digits ?r] =>
        pose proof (scan_digits_length r) as Hr; destruct (scan_digits r) as [u r'];
        cbn [fst snd] in Hr; cbv zeta; destruct (nonempty_digits u); [|discriminate];
        intros [= _ <-]; cbn [String.length] in *; lia
    end.
Qed.

Lemma lex_exponent_length (s rest : string) (e : Z) :
  lex_exponent s = Some (e, rest) → (String.length rest ≤ String.length s)%nat.
Proof.
  destruct s as [|c r]; cbn [lex_exponent]; [intros [= _ <-]; reflexivity|].
  destruct (_ || _); [|intros [= _ <-]; reflexivity].
  intros H. apply lex_exponent_digits_length in H. cbn. lia.
Qed.

Lemma lex_number_length (s rest : string) (n : Dec) :
  lex_number s = Some (n, rest) → (String.length rest < String.length s)%nat.
Proof.
  unfold lex_number. pose proof (lex_sign_length s) as Hsign.
  destruct (lex_sign s) as [neg s1]. cbn [snd] in Hsign.
  pose proof (scan_digits_length s1) as Hint. destruct (scan_digits s1) as [i s2].
  cbn [fst snd] in Hint.
  destruct (int_part_ok i) eqn:Hi; [|discriminate]. apply int_part_ok_nb in Hi.
  destruct (lex_fraction s2) as [[f s3]|] eqn:Hf; [|discriminate].
  apply lex_fraction_length in Hf. cbn [mbind option_bind].
  destruct (lex_exponent s3) as [[e s4]|] eqn:He; [|discriminate].
  apply lex_exponent_length in He. cbn [mbind option_bind].
  intros [= _ <-]. lia.
Qed.

Lemma lex_string_length (n : nat) (s : string) :
  (String.length s ≤ n)%nat →
  ∀ x rest, lex_string s = Some (x, rest) → (String.length rest < String.length s)%nat.
Proof.
  revert s. induction n as [|n IH]; intros s Hn x rest;
    (destruct s as [|c r]; [discriminate|]); [cbn in Hn; lia|].
  cbn [lex_string]. cbn [String.length] in *.
  destruct (Ascii.eqb c "034"); [intros [= _ <-]; lia|].
  destruct (Ascii.eqb c "\").
  - destruct r as [|e r']; [discriminate|]. cbn [String.length] in *.
    destruct (simple_escape e).
    + destruct (lex_string r') as [[t rest']|] eqn:Hr; [|discriminate].
      apply IH in Hr; [|lia]. cbn [mbind option_bind]. intros [= _ <-]. lia.
    + destruct (Ascii.eqb e "u"); [|discriminate].
      destruct r' as [|h1 [|h2 [|h3 [|h4 r'']]]]; try discriminate.
      cbn [String.length] in *.
      destruct (hex4 h1 h2 h3 h4); [|discriminate]. cbn [mbind option_bind].
      destruct (lex_string r'') as [[t rest']|] eqn:Hr; [|discriminate].
      apply IH in Hr; [|lia]. cbn [mbind option_bind]. intros [= _ <-]. lia.
  - destruct (N_of_ascii c <? 32)%N; [discriminate|].
    destruct (lex_string r) as [[t rest']|] eqn:Hr; [|discriminate].
    apply IH in Hr; [|lia]. cbn [mbind option_bind]. intros [= _ <-]. lia.
Qed.

Lemma strip_prefix_length (w s rest : string) :
  strip_prefix w s = Some rest → (String.length rest ≤ String.length s)%nat.
Proof.
  revert s. induction w as [|a w IH]; intros s; cbn [strip_prefix].
  - now intros [= <-].
  - destruct s as [|b s]; [discriminate|]. destruct (Ascii.eqb a b); [|discriminate].
    intros H. apply IH in H. cbn. lia.
Qed.

(** A token takes at least one character. *)
Lemma lex_token_length (s rest : string) (t : token) :
  lex_token s = Some (t, rest) → (String.length rest < String.length s)%nat.
Proof.
  destruct s as [|c r]; [discriminate|]. cbn [lex_token String.length].
  repeat (destruct (Ascii.eqb c _); [intros [= _ <-]; lia|]).
  repeat (destruct (Ascii.eqb c _);
          [destruct (strip_prefix _ r) as [rest'|] eqn:Hr; [|discriminate];
           apply strip_prefix_length in Hr; intros [= _ <-]; lia|]).
  destruct (Ascii.eqb c _).
  - destruct (lex_string r) as [[x rest']|] eqn:Hr; [|discriminate].
    apply (lex_string_length _ r (Nat.le_refl _)) in Hr. intros [= _ <-]. lia.
  - destruct (lex_number (String c r)) as [[n rest']|] eqn:Hr; [|discriminate].
    apply lex_number_length in Hr. intros [= _ <-]. cbn in Hr. lia.
Qed.

Lemma skip_ws_length (s : string) : (String.length (skip_ws s) ≤ String.length s)%nat.
Proof.
  induction s as [|c s IH]; [reflexivity|]. cbn [skip_ws].
  destruct (is_ws c); cbn [String.length] in *; lia.
Qed.

(** The lexer gives the same result with any fuel above the length of the
    text: [parse_text] never fails for lack of fuel. *)
Lemma lex_fuel (fuel fuel' : nat) (s : string) :
  (String.length s < fuel)%nat → (String.length s < fuel')%nat →
  lex fuel s = lex fuel' s.
Proof.
  revert fuel' s. induction fuel as [|fuel IH]; intros fuel' s Hf Hf'; [lia|].
  destruct fuel' as [|fuel']; [lia|]. cbn [lex].
  pose proof (skip_ws_length s) as Hws. destruct (skip_ws s) as [|c r] eqn:Hs; [reflexivity|].
  destruct (lex_token (String c r)) as [[t rest]|] eqn:Ht; [|reflexivity].
  apply lex_token_length in Ht. cbn [mbind option_bind].
  rewrite (IH fuel' rest) by lia. reflexivity.
Qed.

(** A value, and a tail of elements or members, takes at least one token. *)
Lemma parse_length (fuel : nat) :
  (∀ ts j r, parse_value fuel ts = Some (j, r) → (length r < length ts)%nat) ∧
  (∀ ts l r, parse_elements fuel ts = Some (l, r) → (length r < length ts)%nat) ∧
  (∀ ts l r, parse_members fuel ts = Some (l, r) → (length r < length ts)%nat).
Proof.
  induction fuel as [|fuel (IHv & IHe & IHm)]; [now repeat split|].
  assert (He : ∀ (X : Type) (g : JSON → list JSON → X) ts x r,
            ('(j, r) ← parse_value fuel ts; '(l, r) ← parse_elements fuel r;
             Some (g j l, r)) = Some (x, r) → (length r < length ts)%nat).
  { intros X g ts x r. destruct (parse_value fuel ts) as [[j1 r1]|] eqn:H1; [|discriminate].
    cbn [mbind option_bind]. destruct (parse_elements fuel r1) as [[l r2]|] eqn:H2;
      [|discriminate]. cbn [mbind option_bind]. intros [= _ <-].
    apply IHv in H1. apply IHe in H2. lia. }
  assert (Hm : ∀ (X : Type) (g : JSON → list (string * JSON) → X) ts x r,
            ('(j, r) ← parse_value fuel ts; '(l, r) ← parse_members fuel r;
             Some (g j l, r)) = Some (x, r) → (length r < length ts)%nat).
  { intros X g ts x r. destruct (parse_value fuel ts) as [[j1 r1]|] eqn:H1; [|discriminate].
    cbn [mbind option_bind]. destruct (parse_members fuel r1) as [[l r2]|] eqn:H2;
      [|discriminate]. cbn [mbind option_bind]. intros [= _ <-].
    apply IHv in H1. apply IHm in H2. lia. }
  repeat split.
  - intros ts j r. cbn [parse_value].
    destruct ts as [|t ts]; [discriminate|].
    destruct t; try discriminate; try (intros [= _ <-]; cbn; lia).
    + destruct ts as [|t ts]; [discriminate|].
      destruct t; try discriminate.
      * intros [= _ <-]. cbn. lia.
      * destruct ts as [|t ts]; [discriminate|]. destruct t; try discriminate.
        intros H. apply (Hm _ (λ j l, JObject ((s, j) :: l))) in H. cbn. lia.
    + destruct ts as [|t ts]; [destruct fuel; discriminate|].
      destruct t;
        try (intros H; apply (He _ (λ j l, JArray (j :: l))) in H; cbn in *; lia).
      intros [= _ <-]. cbn. lia.
  - intros ts l r. cbn [parse_elements].
    destruct ts as [|t ts]; [discriminate|].
    destruct t; try discriminate; [intros [= _ <-]; cbn; lia|].
    intros H. apply (He _ (λ j l, j :: l)) in H. cbn. lia.
  - intros ts l r. cbn [parse_members].
    destruct ts as [|t ts]; [discriminate|].
    destruct t; try discriminate; [intros [= _ <-]; cbn; lia|].
    destruct ts as [|t ts]; [discriminate|]. destruct t; try discriminate.
    destruct ts as [|t ts]; [discriminate|]. destruct t; try discriminate.
    intros H. apply (Hm _ (λ j l, (s, j) :: l)) in H. cbn. lia.
Qed.

(** The parser gives the same result with any fuel above the number of
    tokens. *)
Lemma parse_fuel (fuel : nat) :
  ∀ fuel' ts, (length ts < fuel)%nat → (length ts < fuel')%nat →
    parse_value fuel ts = parse_value fuel' ts ∧
    parse_elements fuel ts = parse_elements fuel' ts ∧
    parse_members fuel ts = parse_members fuel' ts.
Proof.
  induction fuel as [|fuel IH]; intros fuel' ts Hf Hf'; [lia|].
  destruct fuel' as [|fuel']; [lia|].
  assert (He : ∀ (X : Type) (g : JSON → list JSON → X) r,
            (length r < fuel)%nat → (length r < fuel')%nat →
            ('(j, r) ← parse_value fuel r; '(l, r) ← parse_elements fuel r;
             Some (g j l, r))
            = ('(j, r) ← parse_value fuel' r; '(l, r) ← parse_elements fuel' r;
               Some (g j l, r))).
  { intros X g r Hr Hr'. destruct (IH fuel' r Hr Hr') as [<- _].
    destruct (parse_value fuel r) as [[j1 r1]|] eqn:H1; [|reflexivity].
    apply (parse_length fuel) in H1. cbn [mbind option_bind].
    destruct (IH fuel' r1) as (_ & <- & _); [lia..|]. reflexivity. }
  assert (Hm : ∀ (X : Type) (g : JSON → list (string * JSON) → X) r,
            (length r < fuel)%nat → (length r < fuel')%nat →
            ('(j, r) ← parse_value fuel r; '(l, r) ← parse_members fuel r;
             Some (g j l, r))
            = ('(j, r) ← parse_value fuel' r; '(l, r) ← parse_members fuel' r;
               Some (g j l, r))).
  { intros X g r Hr Hr'. destruct (IH fuel' r Hr Hr') as [<- _].
    destruct (parse_value fuel r) as [[j1 r1]|] eqn:H1; [|reflexivity].
    apply (parse_length fuel) in H1. cbn [mbind option_bind].
    destruct (IH fuel' r1) as (_ & _ & <-); [lia..|]. reflexivity. }
  repeat split.
  - cbn [parse_value]. destruct ts as [|t ts]; [reflexivity|]. cbn [length] in *.
    destruct t; try reflexivity.
    + destruct ts as [|t ts]; [reflexivity|]. destruct t; try reflexivity.
      destruct ts as [|t ts]; [reflexivity|]. destruct t; try reflexivity.
      cbn [length] in *. apply (Hm _ (λ j l, JObject ((s, j) :: l))); lia.
    + destruct ts as [|t ts]; [apply (He _ (λ j l, JArray (j :: l))); cbn; lia|].
      destruct t; try (apply (He _ (λ j l, JArray (j :: l))); cbn [length] in *; lia).
      reflexivity.
  - cbn [parse_elements]. destruct ts as [|t ts]; [reflexivity|]. cbn [length] in *.
    destruct t; try reflexivity. apply (He _ (λ j l, j :: l)); lia.
  - cbn [parse_members]. destruct ts as [|t ts]; [reflexivity|]. cbn [length] in *.
    destruct t; try reflexivity.
    destruct ts as [|t ts]; [reflexivity|]. destruct t; try reflexivity.
    destruct ts as [|t ts]; [reflexivity|]. destruct t; try reflexivity.
    cbn [length] in *. apply (Hm _ (λ j l, (s, j) :: l)); lia.
Qed.

Lemma lex_tokens_length (fuel : nat) (s : string) (ts : list token) :
  lex fuel s = Some ts → (length ts ≤ String.length s)%nat.
Proof.
  revert s ts. induction fuel as [|fuel IH]; intros s ts; [discriminate|].
  cbn [lex]. pose proof (skip_ws_length s) as Hws.
  destruct (skip_ws s) as [|c r]; [intros [= <-]; cbn; lia|].
  destruct (lex_token (String c r)) as [[t rest]|] eqn:Ht; [|discriminate].
  apply lex_token_length in Ht. cbn [mbind option_bind].
  destruct (lex fuel rest) as [ts'|] eqn:Hrest; [|discriminate].
  apply IH in Hrest. intros [= <-]. cbn [length]. lia.
Qed.

(** [parse_text] with more fuel is [parse_text]: a text that it rejects is
    rejected for what the text is, and not for the fuel. *)
Lemma parse_text_fuel (s : string) (f g : nat) :
  (String.length s < f)%nat → (String.length s < g)%nat →
  (ts ← lex f s;
   match parse_value g ts with
   | Some (j, []) => Some j
   | _ => None
   end) = parse_text s.
Proof.
  intros Hf Hg. unfold parse_text. rewrite (lex_fuel f (S (String.length s))) by lia.
  destruct (lex (S (String.length s)) s) as [ts|] eqn:Hlex; [|reflexivity].
  apply lex_tokens_length in Hlex. cbn [mbind option_bind].
  destruct (parse_fuel g (S (length ts)) ts) as [-> _]; [lia..|]. reflexivity.
Qed.

(** Texts that are JSON, and texts that are not. *)
Example parse_text_accepts :
  Forall (λ text, is_Some (parse_text text))
    [" [ 1 , 2 ] "; "{}"; "[[[[]]]]"; "null"; "true"; "-0.5e+10"; "[1.50,{}]"].
Proof. repeat constructor; vm_compute; eauto. Qed.

Example parse_text_rejects :
  Forall (λ text, parse_text text = None)
    [""; "[1,]"; "[1 2]"; "{a:1}"; "'a'"; "NaN"; "undefined"; "01"; "1."; ".5"; "+1";
     "[1] 2"; "[[1]"; "nul"; "truee"; "[object Object]"].
Proof. repeat constructor. Qed.

End Fuel.

(** ** The cart in the store *)

Section Store.

Lemma as_item_json_of_item (item : CartItem) : as_item (json_of_item item) = Some item.
Proof. destruct item as [x [p d [a k] [pa pc] n i]]. reflexivity. Qed.

Lemma as_cart_json_of_cart (cart : Cart) : as_cart (json_of_cart cart) = Some cart.
Proof.
  destruct cart as [l]. unfold json_of_cart, as_cart. cbn [items].
  change (String.eqb "items" "items") with true. cbv iota.
  assert (mapM as_item (json_of_item <$> l) = Some l) as ->; [|reflexivity].
  induction l as [|item l IH]; [reflexivity|].
  rewrite fmap_cons. cbn [mapM]. rewrite as_item_json_of_item. cbn [mbind option_bind].
  rewrite IH. reflexivity.
Qed.

Lemma JSON_stringify_nonempty (j : JSON) : JSON_stringify j ≠ "".
Proof.
  unfold JSON_stringify. destruct (tokens_of_head j) as (t & r & -> & _).
  cbn [unlex]. destruct (token_head t (unlex r)) as (c & s & -> & _). discriminate.
Qed.

(** [getCart] after [saveCart] returns the value that was saved. *)
Lemma getCart_saveCart (j : JSON) (ls : Storage) :
  getCart (<[CART_KEY := JSON_stringify j]> ls)
  = Return (j, <[CART_KEY := JSON_stringify j]> ls).
Proof.
  unfold getCart, bind, localStorage_getItem. rewrite lookup_insert_eq.
  rewrite bool_decide_eq_false_2 by apply JSON_stringify_nonempty.
  unfold JSON_parse. rewrite parse_text_stringify. reflexivity.
Qed.

(** Every cart can be in the store: after [saveCart] the store holds it. *)
Lemma holds_saved (cart : Cart) (ls : Storage) : holds (saved cart ls) cart.
Proof.
  unfold holds, saved, readCart, bind. rewrite getCart_saveCart.
  unfold as_Cart. rewrite as_cart_json_of_cart. reflexivity.
Qed.

Lemma holds_empty : holds ∅ (mkCart []).
Proof. reflexivity. Qed.

(** After [clearCart] the store holds the empty cart. *)
Lemma holds_clearCart (ls : Storage) :
  ∃ ls', clearCart ls = Return (tt, ls') ∧ ls' !! CART_KEY = None ∧ holds ls' (mkCart []).
Proof.
  exists (delete CART_KEY ls). split; [reflexivity|].
  split; [apply lookup_delete_eq|].
  unfold holds, readCart, getCart, bind, localStorage_getItem.
  now rewrite lookup_delete_eq.
Qed.

(** A function that reads the cart, changes it and saves it. *)
Lemma run_read_save (f : Cart → Cart) (ls : Storage) (cart : Cart) :
  holds ls cart →
  bind readCart (λ cart, saveCart (json_of_cart (f cart))) ls = Return (tt, saved (f cart) ls).
Proof. intros H. unfold bind. rewrite H. reflexivity. Qed.

Lemma addItemToCart_run (now : Z) (newItem : CartItemInput) (ls : Storage) (cart : Cart) :
  holds ls cart →
  addItemToCart now newItem ls = Return (tt, saved (add_item now newItem cart) ls).
Proof. apply (run_read_save (add_item now newItem)). Qed.

Lemma removeItemFromCart_run (itemId : string) (ls : Storage) (cart : Cart) :
  holds ls cart →
  removeItemFromCart itemId ls = Return (tt, saved (remove_item itemId cart) ls).
Proof. apply (run_read_save (remove_item itemId)). Qed.

Lemma updateCartItemQuantity_run (itemId : string) (ty : TicketType) (q : Z)
    (ls : Storage) (cart : Cart) :
  holds ls cart →
  updateCartItemQuantity itemId ty q ls
  = Return (tt, saved (update_quantity itemId ty q cart) ls).
Proof. apply (run_read_save (update_quantity itemId ty q)). Qed.

End Store.

(** ** [findIndex] *)

Section FindIndex.
Context {A : Type} (p : A → bool).

Lemma findIndex_from_none (l : list A) (i : Z) :
  Forall (λ x, p x = false) l → findIndex_from p l i = -1.
Proof.
  intros Hl. revert i. induction Hl as [|x l Hx _ IH]; intros i; [reflexivity|].
  cbn [findIndex_from]. rewrite Hx. apply IH.
Qed.

Lemma findIndex_from_first (l1 l2 : list A) (x : A) (i : Z) :
  Forall (λ x, p x = false) l1 → p x = true →
  findIndex_from p (l1 ++ x :: l2) i = i + Z.of_nat (length l1).
Proof.
  intros Hl Hx. revert i. induction Hl as [|y l Hy _ IH]; intros i; cbn [app findIndex_from length].
  - rewrite Hx. lia.
  - rewrite Hy, IH. lia.
Qed.

(** Either nothing satisfies [p] and the index is [-1], or the list splits at
    the first element that does, and the index is its position. *)
Lemma findIndex_cases (l : list A) :
  (Forall (λ x, p x = false) l ∧ findIndex p l = -1) ∨
  (∃ l1 x l2, l = l1 ++ x :: l2 ∧ Forall (λ x, p x = false) l1 ∧ p x = true ∧
              findIndex p l = Z.of_nat (length l1)).
Proof.
  unfold findIndex. induction l as [|y l IH].
  - left. split; [constructor|reflexivity].
  - destruct (p y) eqn:Hy.
    + right. exists [], y, l. repeat split; [constructor|exact Hy|].
      cbn [findIndex_from]. now rewrite Hy.
    + destruct IH as [[Hl _]|(l1 & x & l2 & -> & Hl1 & Hx & _)].
      * left. split; [now constructor|]. apply findIndex_from_none. now constructor.
      * right. exists (y :: l1), x, l2. repeat split; [now constructor|exact Hx|].
        change (y :: l1 ++ x :: l2) with ((y :: l1) ++ x :: l2).
        rewrite findIndex_from_first by (trivial; now constructor). lia.
Qed.

End FindIndex.

(** ** The statements of the three functions on a cart *)

Section Cart.

(** In the range of the exact integers the rounding changes nothing: the
    sum of two counts is the exact sum. *)
Lemma binary64_round_exact (n : Z) : exact_range n → binary64_round n = n.
Proof.
  intros Hn. unfold binary64_round, exact_range in *.
  destruct (Z.leb_spec (Z.abs n) 9007199254740992) as [_|Habs]; [reflexivity|lia].
Qed.

Lemma binary64_add_exact (a b : Z) : exact_range (a + b) → binary64_add a b = a + b.
Proof. apply binary64_round_exact. Qed.

(** Beyond, it rounds: the sums of the kernel's binary64 numbers are the
    same. *)
Example binary64_add_rounds :
  binary64_add 9007199254740992 1 = 9007199254740992 ∧
  binary64_add 9007199254740991 6 = 9007199254740996 ∧
  binary64_add (-9007199254740990) (-5) = -9007199254740996 ∧
  Forall (λ ab : Z * Z,
            binary64_of_Z (binary64_add ab.1 ab.2)
            = (binary64_of_Z ab.1 + binary64_of_Z ab.2)%float)
    [(9007199254740992, 1); (9007199254740991, 6); (-9007199254740990, -5);
     (9007199254740992, 3); (2 ^ 60, 129); (2 ^ 60, 128); (2 ^ 60, 384);
     (- 2 ^ 200, - 2 ^ 150); (2 ^ 53 - 1, 2 ^ 53 - 1); (3, 4); (-3, 3)].
Proof.
  split; [reflexivity|]. split; [reflexivity|]. split; [reflexivity|].
  repeat constructor; vm_compute; reflexivity.
Qed.

Lemma tickets_add_tickets (a k : Z) (item : CartItem) :
  tickets (add_tickets a k item)
  = mkTickets (binary64_add (adults (tickets item)) a) (binary64_add (kids (tickets item)) k).
Proof. reflexivity. Qed.

Lemma tickets_add_tickets_exact (a k : Z) (item : CartItem) :
  exact_range (adults (tickets item) + a) →
  exact_range (kids (tickets item) + k) →
  tickets (add_tickets a k item)
  = mkTickets (adults (tickets item) + a) (kids (tickets item) + k).
Proof.
  intros Ha Hk. rewrite tickets_add_tickets. now rewrite !binary64_add_exact.
Qed.

Lemma fixed_fields_add_tickets (a k : Z) (item : CartItem) :
  fixed_fields (add_tickets a k item) = fixed_fields item.
Proof. reflexivity. Qed.

Lemma line_test_false (newItem : CartItemInput) (l : list CartItem) :
  Forall (λ item : CartItem, ¬ same_line (parkId newItem) (days newItem) item) l →
  Forall (λ item : CartItem,
            bool_decide (parkId item = parkId newItem) &&
            bool_decide (days item = days newItem) = false) l.
Proof.
  intros Hl. eapply Forall_impl; [exact Hl|].
  intros item Hitem. apply not_true_is_false. intros H.
  apply andb_prop in H as [H1 H2]. apply bool_decide_eq_true in H1, H2. now apply Hitem.
Qed.

(** [addItemToCart] when no item has the key of the input: the input is
    appended with the id [cart-<now>]. *)
Lemma add_item_new (now : Z) (newItem : CartItemInput) (cart : Cart) :
  Forall (λ item : CartItem, ¬ same_line (parkId newItem) (days newItem) item) (items cart) →
  add_item now newItem cart
  = mkCart (items cart ++ [mkItem ("cart-" +:+ string_of_Z now) newItem]).
Proof.
  intros Hl. unfold add_item.
  destruct (findIndex_cases
              (λ item : CartItem, bool_decide (parkId item = parkId newItem) &&
                                  bool_decide (days item = days newItem)) (items cart))
    as [[_ ->]|(l1 & x & l2 & Heq & _ & Hx & _)]; [reflexivity|].
  exfalso. rewrite Heq in Hl. apply Forall_app in Hl as [_ Hl].
  apply Forall_cons in Hl as [Hl _]. apply Hl.
  apply andb_prop in Hx as [H1 H2]. apply bool_decide_eq_true in H1, H2. now split.
Qed.

(** [addItemToCart] when an item has the key of the input: the counts of the
    input are added to the first such item. *)
Lemma add_item_merge (now : Z) (newItem : CartItemInput) (cart : Cart)
    (l1 l2 : list CartItem) (item : CartItem) :
  items cart = l1 ++ item :: l2 →
  Forall (λ item : CartItem, ¬ same_line (parkId newItem) (days newItem) item) l1 →
  same_line (parkId newItem) (days newItem) item →
  add_item now newItem cart
  = mkCart (l1 ++ add_tickets (adults (tickets newItem)) (kids (tickets newItem)) item :: l2).
Proof.
  intros Heq Hl1 [Hp Hd]. unfold add_item. rewrite Heq.
  unfold findIndex. rewrite findIndex_from_first.
  - replace (0 + Z.of_nat (length l1) >? -1) with true by (symmetry; apply Z.gtb_lt; lia).
    rewrite Z.add_0_l, Nat2Z.id.
    rewrite alter_app_r_alt, Nat.sub_diag by reflexivity. reflexivity.
  - now apply line_test_false.
  - now rewrite Hp, Hd, !bool_decide_eq_true_2.
Qed.

Lemma remove_item_absent (itemId : string) (cart : Cart) :
  Forall (λ item : CartItem, id item ≠ itemId) (items cart) →
  remove_item itemId cart = cart.
Proof.
  intros Hl. destruct cart as [l]. unfold remove_item. cbn [items] in *. f_equal.
  induction Hl as [|item l Hitem _ IH]; [reflexivity|].
  rewrite filter_cons_True by exact Hitem. now rewrite IH.
Qed.

Lemma id_test_false (itemId : string) (l : list CartItem) :
  Forall (λ item : CartItem, id item ≠ itemId) l →
  Forall (λ item : CartItem, bool_decide (id item = itemId) = false) l.
Proof.
  intros Hl. eapply Forall_impl; [exact Hl|].
  intros item Hitem. now apply bool_decide_eq_false.
Qed.

Lemma update_quantity_absent (itemId : string) (ty : TicketType) (q : Z) (cart : Cart) :
  Forall (λ item : CartItem, id item ≠ itemId) (items cart) →
  update_quantity itemId ty q cart = cart.
Proof.
  intros Hl. unfold update_quantity. unfold findIndex.
  rewrite findIndex_from_none by now apply id_test_false. reflexivity.
Qed.

Lemma update_quantity_negative (itemId : string) (ty : TicketType) (q : Z) (cart : Cart) :
  q < 0 → update_quantity itemId ty q cart = cart.
Proof.
  intros Hq. unfold update_quantity.
  replace (q >=? 0) with false by (symmetry; rewrite Z.geb_leb; apply Z.leb_gt; lia).
  now destruct (_ >? _).
Qed.

(** [updateCartItemQuantity] when the first item with the id is [item] and the
    quantity is not negative: the count is set, and the item is removed when
    no ticket is left. *)
Lemma update_quantity_found (itemId : string) (ty : TicketType) (q : Z) (cart : Cart)
    (l1 l2 : list CartItem) (item : CartItem) :
  items cart = l1 ++ item :: l2 →
  Forall (λ item : CartItem, id item ≠ itemId) l1 →
  id item = itemId →
  0 ≤ q →
  update_quantity itemId ty q cart
  = let item' := set_tickets (set_count ty q (tickets item)) item in
    if no_tickets item' then mkCart (l1 ++ l2) else mkCart (l1 ++ item' :: l2).
Proof.
  intros Heq Hl1 Hid Hq. unfold update_quantity. rewrite Heq.
  unfold findIndex. rewrite findIndex_from_first;
    [|now apply id_test_false|now apply bool_decide_eq_true].
  replace (0 + Z.of_nat (length l1) >? -1) with true by (symmetry; apply Z.gtb_lt; lia).
  replace (q >=? 0) with true by (symmetry; apply Z.geb_le; lia).
  rewrite Z.add_0_l, Nat2Z.id. cbv zeta.
  rewrite alter_app_r_alt, Nat.sub_diag by reflexivity. cbn [alter list_alter].
  rewrite list_lookup_middle by reflexivity.
  destruct (no_tickets _); [|reflexivity]. now rewrite delete_middle.
Qed.

End Cart.

Section Cases.

Lemma Forall_not_filter_nil {A} (P : A → Prop) `{∀ x, Decision (P x)} (l : list A) :
  Forall (λ x, ¬ P x) l ↔ filter P l = [].
Proof.
  split.
  - intros Hl. induction Hl as [|x l Hx _ IH]; [reflexivity|].
    now rewrite filter_cons_False.
  - intros Hnil. apply Forall_forall. intros x Hx HP.
    now apply (filter_nil_not_elem_of P l x).
Qed.

Lemma filter_singleton_split {A} (P : A → Prop) `{∀ x, Decision (P x)} (l : list A) (x : A) :
  filter P l = [x] →
  ∃ l1 l2, l = l1 ++ x :: l2 ∧ Forall (λ x, ¬ P x) l1 ∧ P x ∧ Forall (λ x, ¬ P x) l2.
Proof.
  intros Hx.
  destruct (head_filter_Some P l x) as (l1 & l2 & -> & Hl1); [now rewrite Hx|].
  assert (HP : P x).
  { assert (x ∈ filter P (l1 ++ x :: l2)) as Hin by (rewrite Hx; constructor).
    now apply list_elem_of_filter in Hin. }
  exists l1, l2. repeat split; [exact Hl1|exact HP|].
  rewrite filter_app, (proj1 (Forall_not_filter_nil P l1) Hl1) in Hx.
  rewrite filter_cons_True in Hx by exact HP. cbn [app] in Hx.
  apply (Forall_not_filter_nil P l2). congruence.
Qed.

(** The two ways of [addItemToCart]: append, or merge into the first item with
    the key of the input. *)
Lemma add_item_cases (now : Z) (newItem : CartItemInput) (cart : Cart) :
  (Forall (λ item : CartItem, ¬ same_line (parkId newItem) (days newItem) item) (items cart) ∧
   add_item now newItem cart
   = mkCart (items cart ++ [mkItem ("cart-" +:+ string_of_Z now) newItem])) ∨
  (∃ l1 item l2,
     items cart = l1 ++ item :: l2 ∧
     Forall (λ item : CartItem, ¬ same_line (parkId newItem) (days newItem) item) l1 ∧
     same_line (parkId newItem) (days newItem) item ∧
     add_item now newItem cart
     = mkCart (l1 ++ add_tickets (adults (tickets newItem)) (kids (tickets newItem)) item :: l2)).
Proof.
  assert (Hno : ∀ l : list CartItem,
             Forall (λ item : CartItem,
                       bool_decide (parkId item = parkId newItem) &&
                       bool_decide (days item = days newItem) = false) l →
             Forall (λ item : CartItem, ¬ same_line (parkId newItem) (days newItem) item) l).
  { intros l Hl. eapply Forall_impl; [exact Hl|]. intros item Hitem [Hp Hd].
    cbn beta in Hitem.
    apply andb_false_iff in Hitem as [Hitem|Hitem]; now apply bool_decide_eq_false in Hitem. }
  destruct (findIndex_cases
              (λ item : CartItem, bool_decide (parkId item = parkId newItem) &&
                                  bool_decide (days item = days newItem)) (items cart))
    as [[Hl _]|(l1 & x & l2 & Heq & Hl1 & Hx & _)].
  - left. split; [now apply Hno|]. now apply add_item_new, Hno.
  - right. exists l1, x, l2.
    assert (same_line (parkId newItem) (days newItem) x) as Hline.
    { apply andb_prop in Hx as [H1 H2]. apply bool_decide_eq_true in H1, H2. now split. }
    repeat split; [exact Heq|now apply Hno|apply Hline..|].
    apply add_item_merge; [exact Heq|now apply Hno|exact Hline].
Qed.

(** The ways of [updateCartItemQuantity]: nothing changes, or the count of the
    first item with the id is set and the item is dropped when it has no
    ticket left. *)
Lemma update_quantity_cases (itemId : string) (ty : TicketType) (q : Z) (cart : Cart) :
  update_quantity itemId ty q cart = cart ∨
  (∃ l1 item l2,
     items cart = l1 ++ item :: l2 ∧ 0 ≤ q ∧
     let item' := set_tickets (set_count ty q (tickets item)) item in
     update_quantity itemId ty q cart
     = if no_tickets item' then mkCart (l1 ++ l2) else mkCart (l1 ++ item' :: l2)).
Proof.
  destruct (Z.lt_ge_cases q 0) as [Hq|Hq]; [left; now apply update_quantity_negative|].
  destruct (findIndex_cases (λ item : CartItem, bool_decide (id item = itemId)) (items cart))
    as [[Hl _]|(l1 & x & l2 & Heq & Hl1 & Hx & _)].
  - left. apply update_quantity_absent. eapply Forall_impl; [exact Hl|].
    intros item Hitem. now apply bool_decide_eq_false in Hitem.
  - right. exists l1, x, l2. split; [exact Heq|]. split; [exact Hq|].
    apply update_quantity_found; [exact Heq| |now apply bool_decide_eq_true in Hx|exact Hq].
    eapply Forall_impl; [exact Hl1|]. intros item Hitem. now apply bool_decide_eq_false in Hitem.
Qed.

Lemma remove_item_Forall (P : CartItem → Prop) (itemId : string) (cart : Cart) :
  Forall P (items cart) → Forall P (items (remove_item itemId cart)).
Proof.
  intros Hl. apply Forall_forall. intros item Hitem.
  apply list_elem_of_filter in Hitem as [_ Hitem]. revert item Hitem. now apply Forall_forall.
Qed.

Lemma add_item_Forall (P : CartItem → Prop) (now : Z) (newItem : CartItemInput) (cart : Cart) :
  P (mkItem ("cart-" +:+ string_of_Z now) newItem) →
  (∀ item, P item → P (add_tickets (adults (tickets newItem)) (kids (tickets newItem)) item)) →
  Forall P (items cart) → Forall P (items (add_item now newItem cart)).
Proof.
  intros Hnew Hmerge Hl.
  destruct (add_item_cases now newItem cart) as [[_ ->]|(l1 & item & l2 & Heq & _ & _ & ->)];
    cbn [items].
  - apply Forall_app. split; [exact Hl|]. now repeat constructor.
  - rewrite Heq in Hl. apply Forall_app in Hl as [Hl1 Hl2].
    apply Forall_cons in Hl2 as [Hitem Hl2].
    apply Forall_app. split; [exact Hl1|]. apply Forall_cons. split; [now apply Hmerge|exact Hl2].
Qed.

Lemma update_quantity_Forall (P : CartItem → Prop) (itemId : string) (ty : TicketType)
    (q : Z) (cart : Cart) :
  (∀ item, P item → 0 ≤ q →
           no_tickets (set_tickets (set_count ty q (tickets item)) item) = false →
           P (set_tickets (set_count ty q (tickets item)) item)) →
  Forall P (items cart) → Forall P (items (update_quantity itemId ty q cart)).
Proof.
  intros Hset Hl.
  destruct (update_quantity_cases itemId ty q cart)
    as [->|(l1 & item & l2 & Heq & Hq & Hupd)]; [exact Hl|].
  cbv zeta in Hupd. rewrite Hupd. rewrite Heq in Hl. apply Forall_app in Hl as [Hl1 Hl2].
  apply Forall_cons in Hl2 as [Hitem Hl2].
  destruct (no_tickets _) eqn:Hno; cbn [items]; apply Forall_app; (split; [exact Hl1|]);
    [exact Hl2|]. apply Forall_cons. split; [now apply Hset|exact Hl2].
Qed.

End Cases.

(** ** The id of a new item *)

Section NewItem.

Lemma string_of_Z_inj (m n : Z) : string_of_Z m = string_of_Z n → m = n.
Proof.
  unfold string_of_Z. intros Heq. apply DecimalZ.to_int_inj.
  assert (Hnonnil : ∀ z, Z.to_int z ≠ Pos Nil ∧ Z.to_int z ≠ Neg Nil).
  { intros [|q|q]; cbn; split; try discriminate; intros [= Hq];
      now apply DecimalPos.Unsigned.to_uint_nonnil in Hq. }
  apply (f_equal NilZero.int_of_string) in Heq.
  rewrite !NilZero.isi in Heq by apply Hnonnil. congruence.
Qed.

(** [addItemToCart] with a pair that no item of the cart has appends one item
    at the end: the fields of the input, and the id [cart-<now>].  The id
    differs from the ids that were made at other times. *)
Lemma addItemToCart_new_line (ls : Storage) (cart : Cart) (now : Z)
    (newItem : CartItemInput) :
  holds ls cart →
  line_items (parkId newItem) (days newItem) cart = [] →
  ∃ ls' item,
    addItemToCart now newItem ls = Return (tt, ls') ∧
    holds ls' (mkCart (items cart ++ [item])) ∧
    fields item = newItem ∧
    id item = "cart-" +:+ string_of_Z now ∧
    ∀ t, t ≠ now → id item ≠ "cart-" +:+ string_of_Z t.
Proof.
  intros Hcart Hnew.
  apply (Forall_not_filter_nil
           (λ item : CartItem, same_line (parkId newItem) (days newItem) item)) in Hnew.
  exists (saved (add_item now newItem cart) ls), (mkItem ("cart-" +:+ string_of_Z now) newItem).
  split; [now apply addItemToCart_run|].
  rewrite add_item_new by exact Hnew. split; [apply holds_saved|].
  repeat split. intros t Ht Heq. apply Ht. symmetry.
  apply string_of_Z_inj. cbn [id] in Heq.
  unfold CART_KEY in *. now injection Heq.
Qed.

(** An instance: a line for 2 days is appended to a cart that has a line for
    1 day of the same park. *)
Lemma addItemToCart_new_line_witness :
  let cart := mkCart [example_item "cart-10" "p1" 1 2 0] in
  holds (saved cart ∅) cart ∧
  line_items "p1" 2 cart = [] ∧
  ∃ ls' item,
    addItemToCart 20 (example_input "p1" 2 1 1) (saved cart ∅) = Return (tt, ls') ∧
    holds ls' (mkCart (items cart ++ [item])) ∧
    fields item = example_input "p1" 2 1 1 ∧ id item = "cart-20".
Proof.
  intros cart. split; [apply holds_saved|]. split; [reflexivity|].
  destruct (addItemToCart_new_line (saved cart ∅) cart 20 (example_input "p1" 2 1 1))
    as (ls' & item & Hrun & Hholds & Hfields & Hid & _); [apply holds_saved|reflexivity|].
  now exists ls', item.
Defined.

End NewItem.

(** ** Sums of counts *)

Section Count.

Lemma Zsum_cons (x : Z) (l : list Z) : Zsum (x :: l) = x + Zsum l.
Proof. reflexivity. Qed.

Lemma Zsum_app (l1 l2 : list Z) : Zsum (l1 ++ l2) = Zsum l1 + Zsum l2.
Proof.
  induction l1 as [|x l1 IH]; [reflexivity|].
  cbn [app]. rewrite !Zsum_cons, IH. lia.
Qed.

Lemma magnitude_cons (x : Z) (l : list Z) : magnitude (x :: l) = Z.abs x + magnitude l.
Proof. reflexivity. Qed.

Lemma magnitude_nonneg (l : list Z) : 0 ≤ magnitude l.
Proof.
  induction l as [|x l IH]; [reflexivity|]. rewrite magnitude_cons. lia.
Qed.

Lemma Zsum_magnitude (l : list Z) : Z.abs (Zsum l) ≤ magnitude l.
Proof.
  induction l as [|x l IH]; [reflexivity|]. rewrite Zsum_cons, magnitude_cons. lia.
Qed.

Lemma ticket_count_app (l1 l2 : list CartItem) :
  ticket_count (mkCart (l1 ++ l2)) = ticket_count (mkCart l1) + ticket_count (mkCart l2).
Proof. unfold ticket_count. cbn [items]. now rewrite fmap_app, Zsum_app. Qed.

Lemma ticket_count_cons (item : CartItem) (l : list CartItem) :
  ticket_count (mkCart (item :: l))
  = adults (tickets item) + kids (tickets item) + ticket_count (mkCart l).
Proof. reflexivity. Qed.

Lemma ticket_count_nil : ticket_count (mkCart []) = 0.
Proof. reflexivity. Qed.

Lemma ticket_magnitude_nil : ticket_magnitude (mkCart []) = 0.
Proof. reflexivity. Qed.

Lemma ticket_magnitude_cons (item : CartItem) (l : list CartItem) :
  ticket_magnitude (mkCart (item :: l))
  = Z.abs (adults (tickets item)) + Z.abs (kids (tickets item))
    + ticket_magnitude (mkCart l).
Proof.
  unfold ticket_magnitude, adults_in, kids_in. cbn [items].
  rewrite !fmap_cons, !magnitude_cons. lia.
Qed.

Lemma ticket_magnitude_app (l1 l2 : list CartItem) :
  ticket_magnitude (mkCart (l1 ++ l2))
  = ticket_magnitude (mkCart l1) + ticket_magnitude (mkCart l2).
Proof.
  induction l1 as [|item l1 IH]; [now rewrite ticket_magnitude_nil|].
  cbn [app]. rewrite !ticket_magnitude_cons, IH. lia.
Qed.

Lemma ticket_magnitude_nonneg (cart : Cart) : 0 ≤ ticket_magnitude cart.
Proof.
  unfold ticket_magnitude.
  pose proof (magnitude_nonneg (adults_in (items cart))).
  pose proof (magnitude_nonneg (kids_in (items cart))). lia.
Qed.

(** The sum that [updateCartCount] folds is the exact one when the counts
    are small enough for every sum on the way to be exact. *)
Lemma foldl_count (l : list CartItem) (a : Z) :
  Z.abs a + ticket_magnitude (mkCart l) ≤ 9007199254740992 →
  foldl (λ total (item : CartItem),
           binary64_add (binary64_add total (adults (tickets item))) (kids (tickets item)))
    a l
  = a + ticket_count (mkCart l).
Proof.
  revert a. induction l as [|item l IH]; intros a Hbound; cbn [foldl].
  - rewrite ticket_count_nil. lia.
  - rewrite ticket_magnitude_cons in Hbound.
    pose proof (ticket_magnitude_nonneg (mkCart l)) as Hl.
    rewrite (binary64_add_exact a) by (unfold exact_range; lia).
    rewrite binary64_add_exact by (unfold exact_range; lia).
    rewrite IH by lia. rewrite ticket_count_cons. lia.
Qed.

Lemma updateCartCount_run (ls : Storage) (cart : Cart) :
  holds ls cart →
  ticket_magnitude cart ≤ 9007199254740992 →
  updateCartCount ls = Return (ticket_count cart, ls).
Proof.
  intros Hcart Hbound. unfold updateCartCount, bind. rewrite Hcart. unfold ret.
  destruct cart as [l]. cbn [items]. rewrite foldl_count by (cbn [Z.abs]; lia).
  reflexivity.
Qed.

End Count.

(** ** Supporting results *)

(** What [saveCart] writes, [getCart] reads back: the store holds the cart
    that was saved, whatever it held before. *)
Lemma saveCart_then_readCart (cart : Cart) (ls : Storage) :
  ∃ ls', saveCart (json_of_cart cart) ls = Return (tt, ls') ∧
         getCart ls' = Return (json_of_cart cart, ls') ∧
         readCart ls' = Return (cart, ls').
Proof.
  exists (saved cart ls). split; [reflexivity|].
  split; [apply getCart_saveCart|apply holds_saved].
Qed.

(** The count of [updateCartCount] is the sum of [adults + kids] over the
    items, and zero for the empty cart, when the counts are in the range in
    which the sums of the code are exact: their absolute values sum to at most
    [2^53]. *)
Lemma updateCartCount_sum (ls : Storage) (cart : Cart) :
  holds ls cart →
  ticket_magnitude cart ≤ 9007199254740992 →
  updateCartCount ls
  = Return (Zsum ((λ item : CartItem, adults (tickets item) + kids (tickets item))
                    <$> items cart), ls).
Proof.
  intros Hcart Hbound. unfold updateCartCount, bind. rewrite Hcart. unfold ret.
  do 2 f_equal. destruct cart as [l]. cbn [items] in *.
  rewrite foldl_count by (cbn [Z.abs]; lia). apply Z.add_0_l.
Qed.

(** An instance: 2 + 1 and 1 + 0 tickets give the count 4. *)
Lemma updateCartCount_sum_witness :
  let cart := mkCart [example_item "cart-1" "p1" 1 2 1; example_item "cart-2" "p2" 3 1 0] in
  holds (saved cart ∅) cart ∧ ticket_magnitude cart ≤ 9007199254740992 ∧
  updateCartCount (saved cart ∅) = Return (4, saved cart ∅).
Proof.
  intros cart. split; [apply holds_saved|]. split; [vm_compute; discriminate|].
  apply (updateCartCount_sum (saved cart ∅) cart (holds_saved cart ∅)).
  vm_compute. discriminate.
Defined.

(** ** Calls for one line of the cart *)

Section SameLine.
Context (p : string) (d : Z).

Lemma line_items_new (now : Z) (newItem : CartItemInput) (cart : Cart) :
  same_line p d newItem →
  line_items p d cart = [] →
  line_items p d (add_item now newItem cart)
  = [mkItem ("cart-" +:+ string_of_Z now) newItem].
Proof.
  intros Hline Hnil. pose proof Hline as [Hp Hd]. unfold line_items in *.
  apply (Forall_not_filter_nil (λ item : CartItem, same_line p d item)) in Hnil as Hno.
  rewrite add_item_new by now rewrite Hp, Hd.
  cbn [items]. rewrite filter_app, Hnil. cbn [app].
  now rewrite filter_cons_True.
Qed.

Lemma line_items_merge (now : Z) (newItem : CartItemInput) (cart : Cart) (item0 : CartItem) :
  same_line p d newItem →
  line_items p d cart = [item0] →
  line_items p d (add_item now newItem cart)
  = [add_tickets (adults (tickets newItem)) (kids (tickets newItem)) item0].
Proof.
  intros Hline Hone. pose proof Hline as [Hp Hd]. unfold line_items in *.
  apply filter_singleton_split in Hone as (l1 & l2 & Heq & Hl1 & Hitem & Hl2).
  rewrite (add_item_merge now newItem cart l1 l2 item0) by (trivial; now rewrite Hp, Hd).
  cbn [items]. rewrite filter_app, filter_cons_True by exact Hitem.
  rewrite (proj1 (Forall_not_filter_nil (λ item : CartItem, same_line p d item) l1) Hl1).
  now rewrite (proj1 (Forall_not_filter_nil (λ item : CartItem, same_line p d item) l2) Hl2).
Qed.

Lemma addItemsToCart_cons (now : Z) (newItem : CartItemInput)
    (calls : list (Z * CartItemInput)) (ls : Storage) (cart : Cart) :
  holds ls cart →
  addItemsToCart ((now, newItem) :: calls) ls
  = addItemsToCart calls (saved (add_item now newItem cart) ls).
Proof.
  intros Hcart. cbn [addItemsToCart]. unfold bind at 1.
  now rewrite (addItemToCart_run now newItem ls cart Hcart).
Qed.

(** Calls for a line that the cart has: all are merged into its item.  The
    counts of the item are the exact sums when the absolute values of its
    count and of the counts of the inputs sum to at most [2^53]. *)
Lemma addItemsToCart_merge (calls : list (Z * CartItemInput)) :
  Forall (λ c, same_line p d c.2) calls →
  ∀ ls cart item0,
    holds ls cart →
    line_items p d cart = [item0] →
    Z.abs (adults (tickets item0)) + magnitude (adults_of calls) ≤ 9007199254740992 →
    Z.abs (kids (tickets item0)) + magnitude (kids_of calls) ≤ 9007199254740992 →
    ∃ ls' cart' item,
      addItemsToCart calls ls = Return (tt, ls') ∧ holds ls' cart' ∧
      line_items p d cart' = [item] ∧
      adults (tickets item) = adults (tickets item0) + Zsum (adults_of calls) ∧
      kids (tickets item) = kids (tickets item0) + Zsum (kids_of calls) ∧
      fixed_fields item = fixed_fields item0.
Proof.
  induction 1 as [|[now newItem] calls Hline _ IH]; intros ls cart item0 Hcart Hone Ha Hk.
  - exists ls, cart, item0. cbn. rewrite !Z.add_0_r. now repeat split.
  - cbn [snd] in Hline. rewrite (addItemsToCart_cons now newItem calls ls cart Hcart).
    unfold adults_of, kids_of in Ha, Hk. rewrite fmap_cons, magnitude_cons in Ha, Hk.
    cbn [snd] in Ha, Hk. fold (adults_of calls) in Ha. fold (kids_of calls) in Hk.
    pose proof (magnitude_nonneg (adults_of calls)) as Hma.
    pose proof (magnitude_nonneg (kids_of calls)) as Hmk.
    set (item1 := add_tickets (adults (tickets newItem)) (kids (tickets newItem)) item0).
    assert (Hitem1 : tickets item1
                     = mkTickets (adults (tickets item0) + adults (tickets newItem))
                         (kids (tickets item0) + kids (tickets newItem))).
    { apply tickets_add_tickets_exact; unfold exact_range; lia. }
    destruct (IH (saved (add_item now newItem cart) ls) (add_item now newItem cart) item1)
      as (ls' & cart' & item & Hrun & Hholds & Hitems & Hadults & Hkids & Hfixed);
      [apply holds_saved|now apply line_items_merge|rewrite Hitem1; cbn; lia..|].
    exists ls', cart', item. split; [exact Hrun|]. split; [exact Hholds|].
    split; [exact Hitems|]. rewrite Hitem1 in Hadults, Hkids. cbn in Hadults, Hkids.
    unfold adults_of, kids_of. rewrite !fmap_cons, !Zsum_cons. cbn [snd].
    fold (adults_of calls) (kids_of calls).
    split; [lia|]. split; [lia|]. now rewrite Hfixed.
Qed.

End SameLine.

(** ** The binary64 numbers of a cart *)

#[local] Set Warnings "-inexact-float".

(** The numbers that [binary64_of_Dec] and [binary64_of_Z] give are those of
    the number literals of the kernel. *)
Example binary64_of_Dec_literals :
  binary64_of_Dec (mkDec 929 1) = 92.9%float ∧
  binary64_of_Dec (mkDec 1 1) = 0.1%float ∧
  binary64_of_Dec (mkDec 8 2) = 0.08%float ∧
  binary64_of_Dec (mkDec (-12345) 2) = (-123.45)%float ∧
  binary64_of_Dec (mkDec 5555555555555555 13) = 555.5555555555555%float ∧
  binary64_of_Dec (mkDec 123456789012345678901234567890 10)
  = 12345678901234567890.1234567890%float ∧
  binary64_of_Dec (mkDec 1 23) = 1e-23%float ∧
  binary64_of_Dec (mkDec 5 324) = 5e-324%float ∧
  binary64_of_Dec (mkDec 2 324) = 0%float ∧
  binary64_of_Dec (mkDec 50 0) = 50%float ∧
  binary64_of_Z 9007199254740993 = 9007199254740992%float ∧
  binary64_of_Z (-3) = (-3)%float ∧
  binary64_of_Z (2 ^ 1024) = infinity.
Proof. repeat split; vm_compute; reflexivity. Qed.

(** The amounts of the code are not always the decimal amounts.  A cart of
    3 adults at 92.9 and 1 kid at 91.3 for a day, and of 2 adults at 50 and 1
    kid at 30 for a day, has the subtotal 500 in exact arithmetic: the
    formulas over decimal amounts give the discount 0, the tax 40 and the
    total 540.  The code computes the subtotal 500.00000000000006, which is
    above 500: it gives the discount, and its total is 486.00000000000006. *)
Example summary_binary64_not_exact :
  let cart :=
    mkCart [mkItem "cart-1"
              (mkInput "p1" 1 (mkTickets 3 1) (mkUnitPrice (mkDec 929 1) (mkDec 913 1))
                 "Pine Ridge" "pine-ridge.jpg");
            mkItem "cart-2"
              (mkInput "p2" 1 (mkTickets 2 1) (mkUnitPrice (mkDec 50 0) (mkDec 30 0))
                 "Oak Hill" "oak-hill.jpg")] in
  (subtotal_exact (summary_exact cart) == 500 ∧
   discount_exact (summary_exact cart) == 0 ∧
   tax_exact (summary_exact cart) == 40 ∧
   total_exact (summary_exact cart) == 540)%Q ∧
  lineTotal <$> items cart = [370.00000000000006%float; 130%float] ∧
  createCartSummaryHTML cart
  = mkSummary 500.00000000000006%float 50.000000000000007%float
      36.000000000000007%float 486.00000000000006%float ∧
  (500 <? subtotal (createCartSummaryHTML cart))%float = true.
Proof.
  cbv zeta. split; [repeat split; vm_compute; reflexivity|].
  repeat split; vm_compute; reflexivity.
Qed.

#[local] Set Warnings "inexact-float".

(** ** The claims *)

(** C1, as amended.  A sequence of one or more [addItemToCart] calls whose
    inputs have the same [(parkId, days)] pair, on a cart that has at most one
    item for the pair, leaves a cart with exactly one item for the pair.  Its
    counts are those the cart had for the pair (none when it had no such
    item) plus the sums of the counts of the inputs, and its price snapshot is
    the one of the item the cart had, or of the first input when it had
    none.  And every merge, on any cart, adds the counts of the input to the
    first item for the pair and keeps the id, the price snapshot and the
    other fields of that item, and every other item of the cart.  The code
    adds binary64 numbers: the sums are the exact ones in the range in which
    binary64 addition of integers is exact, which the statement gives as a
    condition (the absolute values of the count of the cart and of the counts
    of the inputs sum to at most [2^53]; for one merge, the sum is at most
    [2^53] in absolute value). *)
Theorem addItemsToCart_same_line (p : string) (d : Z) :
  (∀ (ls : Storage) (cart : Cart) (calls : list (Z * CartItemInput)),
     holds ls cart →
     calls ≠ [] →
     Forall (λ c, same_line p d c.2) calls →
     (length (line_items p d cart) ≤ 1)%nat →
     magnitude (adults_in (line_items p d cart)) + magnitude (adults_of calls)
     ≤ 9007199254740992 →
     magnitude (kids_in (line_items p d cart)) + magnitude (kids_of calls)
     ≤ 9007199254740992 →
     ∃ ls' cart' item,
       addItemsToCart calls ls = Return (tt, ls') ∧ holds ls' cart' ∧
       line_items p d cart' = [item] ∧
       match line_items p d cart with
       | item0 :: _ =>
           adults (tickets item) = adults (tickets item0) + Zsum (adults_of calls) ∧
           kids (tickets item) = kids (tickets item0) + Zsum (kids_of calls) ∧
           unitPrice item = unitPrice item0
       | [] =>
           adults (tickets item) = Zsum (adults_of calls) ∧
           kids (tickets item) = Zsum (kids_of calls) ∧
           ∃ c, head calls = Some c ∧ unitPrice item = unitPrice c.2
       end) ∧
  (∀ (ls : Storage) (cart : Cart) (now : Z) (newItem : CartItemInput)
     (l1 l2 : list CartItem) (item0 : CartItem),
     holds ls cart →
     same_line p d newItem →
     items cart = l1 ++ item0 :: l2 →
     Forall (λ item : CartItem, ¬ same_line p d item) l1 →
     same_line p d item0 →
     exact_range (adults (tickets item0) + adults (tickets newItem)) →
     exact_range (kids (tickets item0) + kids (tickets newItem)) →
     ∃ ls' item,
       addItemToCart now newItem ls = Return (tt, ls') ∧
       holds ls' (mkCart (l1 ++ item :: l2)) ∧
       adults (tickets item) = adults (tickets item0) + adults (tickets newItem) ∧
       kids (tickets item) = kids (tickets item0) + kids (tickets newItem) ∧
       unitPrice item = unitPrice item0 ∧ id item = id item0 ∧
       parkId item = parkId item0 ∧ days item = days item0 ∧
       parkName item = parkName item0 ∧ parkImage item = parkImage item0).
Proof.
  split.
  - intros ls cart calls Hcart Hcalls Hline Hone Ha Hk.
    destruct (line_items p d cart) as [|item0 [|item1 rest]] eqn:Hitems;
      [| |cbn in Hone; lia].
    + destruct calls as [|[now newItem] calls]; [done|].
      apply Forall_cons in Hline as [Hnew Hline]. cbn [snd] in Hnew.
      rewrite (addItemsToCart_cons now newItem calls ls cart Hcart).
      unfold adults_of, kids_of in Ha, Hk. rewrite fmap_cons, magnitude_cons in Ha, Hk.
      cbn in Ha, Hk. fold (adults_of calls) in Ha. fold (kids_of calls) in Hk.
      destruct (addItemsToCart_merge p d calls Hline
                  (saved (add_item now newItem cart) ls) (add_item now newItem cart)
                  (mkItem ("cart-" +:+ string_of_Z now) newItem))
        as (ls' & cart' & item & Hrun & Hholds & Hres & Hadults & Hkids & Hfixed);
        [apply holds_saved|now apply line_items_new|cbn; lia..|].
      exists ls', cart', item. split; [exact Hrun|]. split; [exact Hholds|].
      split; [exact Hres|]. cbn in Hadults, Hkids.
      unfold adults_of, kids_of. rewrite !fmap_cons, !Zsum_cons. cbn [snd].
      fold (adults_of calls) (kids_of calls).
      split; [exact Hadults|]. split; [exact Hkids|].
      exists (now, newItem). split; [reflexivity|]. now injection Hfixed.
    + unfold adults_in, kids_in in Ha, Hk. rewrite fmap_cons, magnitude_cons in Ha, Hk.
      cbn in Ha, Hk.
      destruct (addItemsToCart_merge p d calls Hline ls cart item0 Hcart Hitems)
        as (ls' & cart' & item & Hrun & Hholds & Hres & Hadults & Hkids & Hfixed);
        [lia..|].
      exists ls', cart', item. split; [exact Hrun|]. split; [exact Hholds|].
      split; [exact Hres|]. split; [exact Hadults|]. split; [exact Hkids|].
      now injection Hfixed.
  - intros ls cart now newItem l1 l2 item0 Hcart [Hp Hd] Hitems Hl1 Hitem0 Ha Hk.
    exists (saved (add_item now newItem cart) ls),
      (add_tickets (adults (tickets newItem)) (kids (tickets newItem)) item0).
    split; [now apply addItemToCart_run|].
    rewrite (add_item_merge now newItem cart l1 l2 item0) by (trivial; now rewrite Hp, Hd).
    split; [apply holds_saved|]. rewrite tickets_add_tickets_exact by assumption.
    now repeat split.
Qed.

(** C1 at work: two calls for park [p1] and 2 days on the empty store leave one
    item for the pair, with 2 + 1 adults and 1 + 3 kids. *)
Lemma addItemsToCart_same_line_witness :
  let calls := [(10, example_input "p1" 2 2 1); (20, example_input "p1" 2 1 3)] in
  holds ∅ (mkCart []) ∧ calls ≠ [] ∧
  Forall (λ c, same_line "p1" 2 c.2) calls ∧
  (length (line_items "p1" 2 (mkCart [])) ≤ 1)%nat ∧
  magnitude (adults_in (line_items "p1" 2 (mkCart []))) + magnitude (adults_of calls)
  ≤ 9007199254740992 ∧
  magnitude (kids_in (line_items "p1" 2 (mkCart []))) + magnitude (kids_of calls)
  ≤ 9007199254740992 ∧
  ∃ ls' cart' item,
    addItemsToCart calls ∅ = Return (tt, ls') ∧ holds ls' cart' ∧
    line_items "p1" 2 cart' = [item] ∧
    adults (tickets item) = 3 ∧ kids (tickets item) = 4.
Proof.
  intros calls.
  assert (Hline : Forall (λ c, same_line "p1" 2 c.2) calls) by (repeat constructor).
  split; [apply holds_empty|]. split; [done|]. split; [exact Hline|]. split; [cbn; lia|].
  split; [vm_compute; discriminate|]. split; [vm_compute; discriminate|].
  destruct (proj1 (addItemsToCart_same_line "p1" 2) ∅ (mkCart []) calls holds_empty) as
    (ls' & cart' & item & Hrun & Hholds & Hitems & Ha & Hk & _);
    [done|exact Hline|cbn; lia|vm_compute; discriminate..|].
  exists ls', cart', item. split; [exact Hrun|]. split; [exact Hholds|].
  split; [exact Hitems|]. split; [exact Ha|exact Hk].
Defined.

(** C1 as stated fails: the counts of the item are not the sums over the
    calls when the cart already has an item for the pair.  On a cart with 3
    adults for park [p1] and 1 day, one call that adds 1 adult leaves 4
    adults, and the sum over the calls is 1. *)
Lemma addItemsToCart_same_line_counterexample :
  let cart := mkCart [example_item "cart-1" "p1" 1 3 0] in
  let calls := [(20, example_input "p1" 1 1 0)] in
  holds (saved cart ∅) cart ∧
  Forall (λ c, same_line "p1" 1 c.2) calls ∧
  ∃ ls' item,
    addItemsToCart calls (saved cart ∅) = Return (tt, ls') ∧
    holds ls' (mkCart [item]) ∧
    line_items "p1" 1 (mkCart [item]) = [item] ∧
    adults (tickets item) = 4 ∧ Zsum (adults_of calls) = 1 ∧
    adults (tickets item) ≠ Zsum (adults_of calls).
Proof.
  intros cart calls. split; [apply holds_saved|]. split; [repeat constructor|].
  eexists _, (example_item "cart-1" "p1" 1 4 0).
  split; [|split; [apply holds_saved|repeat split; discriminate]].
  unfold calls. rewrite (addItemsToCart_cons _ _ _ _ cart (holds_saved cart ∅)).
  reflexivity.
Qed.

(** C2, as amended.  The invariant [adults + kids > 0] of the items:
    [removeItemFromCart] always preserves it; [addItemToCart] preserves it
    when the input itself has [adults + kids > 0] and its counts, added to
    those of the item it is merged into, stay in the range in which the
    binary64 addition of the code is exact (at most [2^53] in absolute
    value); [updateCartItemQuantity] preserves it on a cart whose counts are
    not negative, an item whose two counts become zero being removed by the
    same call.  No operation makes a count negative, given an input of
    [addItemToCart] without a negative count. *)
Theorem cart_invariant (ls : Storage) (cart : Cart) :
  holds ls cart →
  Forall (λ item : CartItem, has_tickets item) (items cart) →
  (∀ itemId, ∃ ls' cart',
     removeItemFromCart itemId ls = Return (tt, ls') ∧ holds ls' cart' ∧
     Forall (λ item : CartItem, has_tickets item) (items cart') ∧
     (Forall (λ item : CartItem, counts_nonneg item) (items cart) →
      Forall (λ item : CartItem, counts_nonneg item) (items cart'))) ∧
  (∀ now newItem,
     has_tickets newItem →
     Forall (λ item : CartItem,
               same_line (parkId newItem) (days newItem) item →
               exact_range (adults (tickets item) + adults (tickets newItem)) ∧
               exact_range (kids (tickets item) + kids (tickets newItem))) (items cart) →
     ∃ ls' cart',
     addItemToCart now newItem ls = Return (tt, ls') ∧ holds ls' cart' ∧
     Forall (λ item : CartItem, has_tickets item) (items cart') ∧
     (counts_nonneg newItem →
      Forall (λ item : CartItem, counts_nonneg item) (items cart) →
      Forall (λ item : CartItem, counts_nonneg item) (items cart'))) ∧
  (∀ itemId ticketType newQuantity,
     Forall (λ item : CartItem, counts_nonneg item) (items cart) → ∃ ls' cart',
     updateCartItemQuantity itemId ticketType newQuantity ls = Return (tt, ls') ∧
     holds ls' cart' ∧
     Forall (λ item : CartItem, has_tickets item) (items cart') ∧
     Forall (λ item : CartItem, counts_nonneg item) (items cart')).
Proof.
  intros Hcart Hinv. split; [|split].
  - intros itemId.
    exists (saved (remove_item itemId cart) ls), (remove_item itemId cart).
    split; [now apply removeItemFromCart_run|]. split; [apply holds_saved|].
    split; [now apply remove_item_Forall|]. apply remove_item_Forall.
  - intros now newItem Hnew Hrange.
    exists (saved (add_item now newItem cart) ls), (add_item now newItem cart).
    split; [now apply addItemToCart_run|]. split; [apply holds_saved|].
    destruct (add_item_cases now newItem cart)
      as [[_ ->]|(l1 & item & l2 & Heq & _ & Hline & ->)]; cbn [items].
    + split; [|intros Hnn Hall]; apply Forall_app; (split; [assumption|]);
        (apply Forall_cons; split; [assumption|constructor]).
    + rewrite Heq in Hinv, Hrange.
      apply Forall_app in Hinv as [Hinv1 [Hitem Hinv2]%Forall_cons].
      apply Forall_app in Hrange as [_ [Hsum _]%Forall_cons].
      destruct (Hsum Hline) as [Ha Hk].
      pose proof (tickets_add_tickets_exact _ _ item Ha Hk) as Htickets.
      split.
      * apply Forall_app. split; [exact Hinv1|]. apply Forall_cons. split; [|exact Hinv2].
        unfold has_tickets in *. rewrite Htickets. cbn. lia.
      * intros Hnn Hall. rewrite Heq in Hall.
        apply Forall_app in Hall as [Hall1 [Hitemnn Hall2]%Forall_cons].
        apply Forall_app. split; [exact Hall1|]. apply Forall_cons. split; [|exact Hall2].
        unfold counts_nonneg in *. rewrite Htickets. cbn. lia.
  - intros itemId ty q Hnn.
    exists (saved (update_quantity itemId ty q cart) ls), (update_quantity itemId ty q cart).
    split; [now apply updateCartItemQuantity_run|]. split; [apply holds_saved|].
    assert (Hboth : Forall (λ item : CartItem, has_tickets item ∧ counts_nonneg item)
                      (items (update_quantity itemId ty q cart))).
    { apply update_quantity_Forall; [|now apply Forall_and].
      intros item [_ [Ha Hk]] Hq Hleft. unfold no_tickets in Hleft.
      apply andb_false_iff in Hleft as [Hleft|Hleft]; apply bool_decide_eq_false in Hleft;
        unfold has_tickets, counts_nonneg; destruct ty; cbn in *; lia. }
    apply Forall_and in Hboth. exact Hboth.
Qed.

(** C2 at work: on a cart whose only item has 2 adults, setting the adults to 0
    leaves a cart that satisfies the invariant (the item is removed). *)
Lemma cart_invariant_witness :
  let cart := mkCart [example_item "cart-1" "p1" 1 2 0] in
  holds (saved cart ∅) cart ∧
  Forall (λ item : CartItem, has_tickets item) (items cart) ∧
  ∃ ls' cart',
    updateCartItemQuantity "cart-1" Adults 0 (saved cart ∅) = Return (tt, ls') ∧
    holds ls' cart' ∧
    Forall (λ item : CartItem, has_tickets item) (items cart').
Proof.
  intros cart.
  assert (Hinv : Forall (λ item : CartItem, has_tickets item) (items cart))
    by (repeat constructor).
  assert (Hnn : Forall (λ item : CartItem, counts_nonneg item) (items cart))
    by (repeat constructor; discriminate).
  split; [apply holds_saved|]. split; [exact Hinv|].
  destruct (cart_invariant (saved cart ∅) cart (holds_saved cart ∅) Hinv) as (_ & _ & Hupd).
  destruct (Hupd "cart-1" Adults 0 Hnn) as (ls' & cart' & Hrun & Hholds & Hinv' & _).
  now exists ls', cart'.
Defined.

(** C2 as stated fails.  [addItemToCart] with an input of no ticket puts an
    item with [adults + kids = 0] into the empty cart; and on a cart that
    satisfies the invariant with a negative count (5 adults, -2 kids),
    setting the adults to 1 leaves an item with [adults + kids = -1]. *)
Lemma cart_invariant_counterexample :
  (holds ∅ (mkCart []) ∧
   Forall (λ item : CartItem, has_tickets item) (items (mkCart [])) ∧
   ∃ item,
     addItemToCart 5 (example_input "p1" 1 0 0) ∅ = Return (tt, saved (mkCart [item]) ∅) ∧
     holds (saved (mkCart [item]) ∅) (mkCart [item]) ∧
     adults (tickets item) + kids (tickets item) = 0 ∧ ¬ has_tickets item) ∧
  (let cart := mkCart [example_item "cart-1" "p1" 1 5 (-2)] in
   holds (saved cart ∅) cart ∧
   Forall (λ item : CartItem, has_tickets item) (items cart) ∧
   ∃ item,
     updateCartItemQuantity "cart-1" Adults 1 (saved cart ∅)
     = Return (tt, saved (mkCart [item]) (saved cart ∅)) ∧
     holds (saved (mkCart [item]) (saved cart ∅)) (mkCart [item]) ∧
     adults (tickets item) + kids (tickets item) = -1 ∧ ¬ has_tickets item).
Proof.
  split.
  - split; [apply holds_empty|]. split; [constructor|].
    exists (mkItem "cart-5" (example_input "p1" 1 0 0)).
    split; [|split; [apply holds_saved|split; [reflexivity|discriminate]]].
    now rewrite (addItemToCart_run _ _ _ _ holds_empty).
  - intros cart. split; [apply holds_saved|]. split; [repeat constructor|].
    exists (example_item "cart-1" "p1" 1 1 (-2)).
    split; [|split; [apply holds_saved|split; [reflexivity|discriminate]]].
    now rewrite (updateCartItemQuantity_run _ _ _ _ cart (holds_saved cart ∅)).
Qed.

(** C3, as amended.  [getCart] returns the fresh empty cart when the store
    has no text under the cart key (or the empty text), and the cart that was
    saved when the text is the one [saveCart] wrote; a text that is JSON is
    returned as the value it denotes; a text that is not JSON makes
    [JSON.parse] throw a [SyntaxError], which [getCart] does not catch: it
    reaches the caller.  In no case is the store changed. *)
Theorem getCart_cases (ls : Storage) :
  (ls !! CART_KEY = None ∨ ls !! CART_KEY = Some "" →
   getCart ls = Return (JObject [("items", JArray [])], ls) ∧
   readCart ls = Return (mkCart [], ls)) ∧
  (∀ cart, ls !! CART_KEY = Some (JSON_stringify (json_of_cart cart)) →
           readCart ls = Return (cart, ls)) ∧
  (∀ text j, ls !! CART_KEY = Some text → text ≠ "" → parse_text text = Some j →
             getCart ls = Return (j, ls)) ∧
  (∀ text, ls !! CART_KEY = Some text → text ≠ "" → parse_text text = None →
           getCart ls = Throw SyntaxError ∧ readCart ls = Throw SyntaxError).
Proof.
  assert (Hget : ∀ text, ls !! CART_KEY = Some text → text ≠ "" →
                         getCart ls = JSON_parse text ls).
  { intros text Htext Hne. unfold getCart, bind, localStorage_getItem. rewrite Htext.
    now rewrite bool_decide_eq_false_2. }
  split; [|split; [|split]].
  - intros Habsent. unfold readCart, getCart, bind, localStorage_getItem.
    destruct Habsent as [-> | ->]; split; reflexivity.
  - intros cart Htext. unfold readCart, bind.
    rewrite (Hget _ Htext) by apply JSON_stringify_nonempty.
    unfold JSON_parse. rewrite parse_text_stringify. unfold ret, as_Cart.
    now rewrite as_cart_json_of_cart.
  - intros text j Htext Hne Hparse. rewrite (Hget _ Htext Hne). unfold JSON_parse.
    now rewrite Hparse.
  - intros text Htext Hne Hparse. unfold readCart, bind.
    rewrite (Hget _ Htext Hne). unfold JSON_parse. rewrite Hparse. split; reflexivity.
Qed.

(** C3 as stated fails: with the text [[object Object]] under the cart key
    (what [localStorage.setItem] stores for an object that was not
    stringified), [getCart] throws a [SyntaxError] and returns no cart. *)
Lemma getCart_counterexample :
  let ls : Storage := {[ CART_KEY := "[object Object]" ]} in
  ls !! CART_KEY = Some "[object Object]" ∧
  parse_text "[object Object]" = None ∧
  getCart ls = Throw SyntaxError.
Proof.
  cbv zeta. split; [reflexivity|]. split; [vm_compute; reflexivity|].
  unfold getCart, bind, localStorage_getItem. rewrite lookup_singleton_eq.
  vm_compute. reflexivity.
Qed.

#[local] Set Warnings "-inexact-float".


#[local] Set Warnings "inexact-float".

(** C5: the id of a new item is not always new.  Two calls of
    [addItemToCart] for different day counts in the same millisecond
    ([Date.now()] returns 1700000000000 in both) put two items with the same
    id into the cart: the second input matches no item of the cart, it is
    appended at the end with all its fields, and its id
    [cart-1700000000000] is the id of the item that is already there. *)
Theorem addItemToCart_id_collision :
  let now := 1700000000000 in
  let a := mkItem "cart-1700000000000" (example_input "p1" 1 2 0) in
  let newItem := example_input "p1" 2 1 0 in
  addItemToCart now (example_input "p1" 1 2 0) ∅ = Return (tt, saved (mkCart [a]) ∅) ∧
  line_items (parkId newItem) (days newItem) (mkCart [a]) = [] ∧
  ∃ b,
    addItemToCart now newItem (saved (mkCart [a]) ∅)
    = Return (tt, saved (mkCart [a; b]) (saved (mkCart [a]) ∅)) ∧
    holds (saved (mkCart [a; b]) (saved (mkCart [a]) ∅)) (mkCart [a; b]) ∧
    fields b = newItem ∧
    id b = id a.
Proof.
  intros now a newItem. split; [|split; [reflexivity|]].
  - now rewrite (addItemToCart_run _ _ _ _ holds_empty).
  - exists (mkItem "cart-1700000000000" newItem).
    split; [|split; [apply holds_saved|split; reflexivity]].
    now rewrite (addItemToCart_run _ _ _ _ (holds_saved (mkCart [a]) ∅)).
Qed.

#[local] Set Warnings "-inexact-float".

(** C6.  The example of the specification: one item with 2 adults at 50 and
    1 kid at 30 for 2 days has the line total 260; the subtotal is 260, the
    discount 0, the tax 20.8 and the total 280.8, exactly: no amount is rounded
    on the way.  The same holds in the binary64 arithmetic of the code, on the
    cart page and on the checkout page, where 20.8 and 280.8 stand for the
    binary64 numbers these literals denote. *)
Theorem summary_example :
  let item := mkItem "cart-1"
                (mkInput "p1" 2 (mkTickets 2 1) (mkUnitPrice (mkDec 50 0) (mkDec 30 0))
                   "Pine Ridge" "pine-ridge.jpg") in
  let e := summary_exact (mkCart [item]) in
  (lineTotal_exact item == 260 ∧ subtotal_exact e == 260 ∧ discount_exact e == 0 ∧
   tax_exact e == 20.8 ∧ total_exact e == 280.8)%Q ∧
  checkout_exact (mkCart [item]) = ([lineTotal_exact item], e) ∧
  createCartSummaryHTML (mkCart [item])
  = mkSummary 260%float 0%float 20.8%float 280.8%float ∧
  lineTotal item = 260%float ∧
  createCheckoutSummaryHTML (mkCart [item])
  = ([260%float], mkSummary 260%float 0%float 20.8%float 280.8%float).
Proof.
  cbv zeta. split; [|split; [|split; [|split]]].
  - repeat split; vm_compute; reflexivity.
  - reflexivity.
  - vm_compute. reflexivity.
  - vm_compute. reflexivity.
  - vm_compute. reflexivity.
Qed.
#[local] Set Warnings "inexact-float".

(** C7, as amended: the item is the first item of the cart with the given
    id, the one that the code finds.  For every cart in the store whose first
    item with the given id is [item], if the other count of [item] is zero then
    [updateCartItemQuantity(id, type, 0)] removes [item] from the cart and the
    cart has exactly one item less; and for every new quantity that is not
    negative and leaves one of the two counts non-zero, [item] stays at its
    place with the count set and its other fields unchanged. *)
Theorem updateCartItemQuantity_zero (ls : Storage) (cart : Cart) (itemId : string)
    (ticketType : TicketType) (l1 l2 : list CartItem) (item : CartItem) :
  holds ls cart →
  items cart = l1 ++ item :: l2 →
  Forall (λ item : CartItem, id item ≠ itemId) l1 →
  id item = itemId →
  (get_count (other ticketType) (tickets item) = 0 →
   ∃ ls' cart',
     updateCartItemQuantity itemId ticketType 0 ls = Return (tt, ls') ∧
     holds ls' cart' ∧
     items cart' = l1 ++ l2 ∧
     length (items cart) = S (length (items cart'))) ∧
  (∀ newQuantity,
     0 ≤ newQuantity →
     ¬ (newQuantity = 0 ∧ get_count (other ticketType) (tickets item) = 0) →
     ∃ ls' cart' item',
       updateCartItemQuantity itemId ticketType newQuantity ls = Return (tt, ls') ∧
       holds ls' cart' ∧
       items cart' = l1 ++ item' :: l2 ∧
       get_count ticketType (tickets item') = newQuantity ∧
       get_count (other ticketType) (tickets item')
       = get_count (other ticketType) (tickets item) ∧
       id item' = id item ∧ parkId item' = parkId item ∧ days item' = days item ∧
       unitPrice item' = unitPrice item ∧ parkName item' = parkName item ∧
       parkImage item' = parkImage item).
Proof.
  intros Hcart Hitems Hfirst Hid. split.
  - intros Hother.
    exists (saved (update_quantity itemId ticketType 0 cart) ls),
      (update_quantity itemId ticketType 0 cart).
    split; [now apply updateCartItemQuantity_run|]. split; [apply holds_saved|].
    rewrite (update_quantity_found itemId ticketType 0 cart l1 l2 item) by (trivial; lia).
    cbv zeta.
    assert (no_tickets (set_tickets (set_count ticketType 0 (tickets item)) item) = true)
      as ->.
    { unfold no_tickets. destruct ticketType; cbn in *; rewrite ?Hother;
        now rewrite !bool_decide_eq_true_2. }
    cbn [items]. split; [reflexivity|].
    rewrite Hitems, !length_app. cbn [length]. lia.
  - intros q Hq Hleft.
    exists (saved (update_quantity itemId ticketType q cart) ls),
      (update_quantity itemId ticketType q cart),
      (set_tickets (set_count ticketType q (tickets item)) item).
    split; [now apply updateCartItemQuantity_run|]. split; [apply holds_saved|].
    rewrite (update_quantity_found itemId ticketType q cart l1 l2 item) by trivial.
    cbv zeta.
    assert (no_tickets (set_tickets (set_count ticketType q (tickets item)) item) = false)
      as ->.
    { unfold no_tickets. apply not_true_is_false. intros H.
      apply andb_prop in H as [H1 H2]. apply bool_decide_eq_true in H1, H2.
      apply Hleft. destruct ticketType; cbn in *; now split. }
    cbn [items]. destruct ticketType; repeat split.
Qed.

(** C7 at work: the item [cart-2] has 2 adults and no kids; setting its adults
    to 0 removes it and leaves the other item. *)
Lemma updateCartItemQuantity_zero_witness :
  let a := example_item "cart-1" "p1" 1 0 3 in
  let b := example_item "cart-2" "p2" 2 2 0 in
  holds (saved (mkCart [a; b]) ∅) (mkCart [a; b]) ∧
  items (mkCart [a; b]) = [a] ++ b :: [] ∧
  Forall (λ item : CartItem, id item ≠ "cart-2") [a] ∧
  id b = "cart-2" ∧
  ∃ ls',
    updateCartItemQuantity "cart-2" Adults 0 (saved (mkCart [a; b]) ∅) = Return (tt, ls') ∧
    holds ls' (mkCart [a]).
Proof.
  intros a b.
  assert (Hfirst : Forall (λ item : CartItem, id item ≠ "cart-2") [a])
    by (repeat constructor; discriminate).
  split; [apply holds_saved|]. do 3 (split; [done|]).
  destruct (updateCartItemQuantity_zero (saved (mkCart [a; b]) ∅) (mkCart [a; b]) "cart-2"
              Adults [a] [] b) as [Hzero _]; [apply holds_saved|done..|].
  destruct Hzero as (ls' & cart' & Hrun & Hholds & Hitems & _); [reflexivity|].
  exists ls'. split; [exact Hrun|]. destruct cart' as [l]. cbn in Hitems. now subst l.
Defined.

(** C7 as stated fails for an item that is not the first with its id.  Two
    additions in the same millisecond leave the items [a] and [b] with the
    one id [cart-7]; [a] has 2 adults and 3 kids, [b] has 2 adults and no kid.
    [b] is an item with the given id whose two counts are zero once its adults
    are set to 0; but [updateCartItemQuantity("cart-7", "adults", 0)] sets the
    adults of [a], which stays with its 3 kids: [b] is not removed, and the
    cart has two items as before. *)
Lemma updateCartItemQuantity_zero_counterexample :
  let a := example_item "cart-7" "p1" 1 2 3 in
  let b := example_item "cart-7" "p1" 2 2 0 in
  ∃ ls,
    run_calls [AddItemToCart 7 (example_input "p1" 1 2 3);
               AddItemToCart 7 (example_input "p1" 2 2 0)] ∅ = Return (tt, ls) ∧
    holds ls (mkCart [a; b]) ∧
    id b = "cart-7" ∧ get_count (other Adults) (tickets b) = 0 ∧
    ∃ ls' cart',
      updateCartItemQuantity "cart-7" Adults 0 ls = Return (tt, ls') ∧
      holds ls' cart' ∧
      items cart' = [example_item "cart-7" "p1" 1 0 3; b] ∧
      length (items cart') = length (items (mkCart [a; b])).
Proof.
  intros a b. exists (saved (mkCart [a; b]) (saved (mkCart [a]) ∅)).
  split.
  { cbn [run_calls run_call]. unfold bind at 1.
    rewrite (addItemToCart_run _ _ _ _ holds_empty).
    change (add_item 7 (example_input "p1" 1 2 3) (mkCart [])) with (mkCart [a]).
    unfold bind. now rewrite (addItemToCart_run _ _ _ _ (holds_saved (mkCart [a]) ∅)). }
  split; [apply holds_saved|]. split; [reflexivity|]. split; [reflexivity|].
  exists (saved (mkCart [example_item "cart-7" "p1" 1 0 3; b])
            (saved (mkCart [a; b]) (saved (mkCart [a]) ∅))),
    (mkCart [example_item "cart-7" "p1" 1 0 3; b]).
  split; [|split; [apply holds_saved|split; reflexivity]].
  now rewrite (updateCartItemQuantity_run _ _ _ _ _ (holds_saved (mkCart [a; b]) _)).
Qed.

(** C8.  A negative new quantity changes nothing: for every cart in the
    store, every item id, ticket type and [newQuantity < 0],
    [updateCartItemQuantity] returns normally, leaves every item of the cart
    as it was, and still writes the unchanged cart to the store. *)
Theorem updateCartItemQuantity_negative (ls : Storage) (cart : Cart)
    (itemId : string) (ticketType : TicketType) (newQuantity : Z) :
  holds ls cart →
  newQuantity < 0 →
  update_quantity itemId ticketType newQuantity cart = cart ∧
  updateCartItemQuantity itemId ticketType newQuantity ls
  = Return (tt, <[CART_KEY := JSON_stringify (json_of_cart cart)]> ls) ∧
  holds (<[CART_KEY := JSON_stringify (json_of_cart cart)]> ls) cart.
Proof.
  intros Hcart Hneg.
  pose proof (update_quantity_negative itemId ticketType newQuantity cart Hneg) as Hsame.
  split; [exact Hsame|]. split.
  - rewrite (updateCartItemQuantity_run _ _ _ _ cart Hcart), Hsame. reflexivity.
  - apply holds_saved.
Qed.

(** C8 at work: the quantity -1 leaves the store as [saveCart] wrote it. *)
Lemma updateCartItemQuantity_negative_witness :
  let cart := mkCart [example_item "cart-1" "p1" 1 2 1] in
  holds (saved cart ∅) cart ∧ -1 < 0 ∧
  updateCartItemQuantity "cart-1" Adults (-1) (saved cart ∅) = Return (tt, saved cart ∅).
Proof.
  intros cart. split; [apply holds_saved|]. split; [reflexivity|].
  destruct (updateCartItemQuantity_negative (saved cart ∅) cart "cart-1" Adults (-1))
    as (_ & Hrun & _); [apply holds_saved|reflexivity|].
  rewrite Hrun. unfold saved. now rewrite insert_insert_eq.
Defined.

(** C9.  Removing an id that no item has: for every cart in the store and
    every [itemId] that is the id of none of its items, [removeItemFromCart]
    returns normally, the list of items stays the same list (same items, same
    order), and the cart is still written to the store. *)
Theorem removeItemFromCart_absent (ls : Storage) (cart : Cart) (itemId : string) :
  holds ls cart →
  Forall (λ item : CartItem, id item ≠ itemId) (items cart) →
  items (remove_item itemId cart) = items cart ∧
  removeItemFromCart itemId ls
  = Return (tt, <[CART_KEY := JSON_stringify (json_of_cart cart)]> ls) ∧
  holds (<[CART_KEY := JSON_stringify (json_of_cart cart)]> ls) cart.
Proof.
  intros Hcart Habsent.
  pose proof (remove_item_absent itemId cart Habsent) as Hsame.
  split; [now rewrite Hsame|]. split.
  - rewrite (removeItemFromCart_run _ _ cart Hcart), Hsame. reflexivity.
  - apply holds_saved.
Qed.

(** C9 at work: no item of the cart has the id [cart-9]. *)
Lemma removeItemFromCart_absent_witness :
  let cart := mkCart [example_item "cart-1" "p1" 1 2 1; example_item "cart-2" "p2" 3 1 0] in
  holds (saved cart ∅) cart ∧
  Forall (λ item : CartItem, id item ≠ "cart-9") (items cart) ∧
  removeItemFromCart "cart-9" (saved cart ∅) = Return (tt, saved cart ∅).
Proof.
  intros cart.
  assert (Habsent : Forall (λ item : CartItem, id item ≠ "cart-9") (items cart))
    by (repeat constructor; discriminate).
  split; [apply holds_saved|]. split; [exact Habsent|].
  destruct (removeItemFromCart_absent (saved cart ∅) cart "cart-9") as (_ & Hrun & _);
    [apply holds_saved|exact Habsent|].
  rewrite Hrun. unfold saved. now rewrite insert_insert_eq.
Defined.

(** C10.  [removeItemFromCart] removes every item with the id: for every
    cart in the store, also one in which several items share an id, no item
    with [itemId] is left afterwards, and the items with another id are all
    kept, unchanged and in their order (the new list is a sublist of the old
    one that lacks exactly the items with [itemId]). *)
Theorem removeItemFromCart_all (ls : Storage) (cart : Cart) (itemId : string) :
  holds ls cart →
  ∃ ls' cart',
    removeItemFromCart itemId ls = Return (tt, ls') ∧ holds ls' cart' ∧
    Forall (λ item : CartItem, id item ≠ itemId) (items cart') ∧
    items cart' `sublist_of` items cart ∧
    (∀ item : CartItem, item ∈ items cart → id item ≠ itemId → item ∈ items cart') ∧
    (length (items cart')
     + length (filter (λ item : CartItem, id item = itemId) (items cart))
     = length (items cart))%nat.
Proof.
  intros Hcart. exists (saved (remove_item itemId cart) ls), (remove_item itemId cart).
  split; [now apply removeItemFromCart_run|]. split; [apply holds_saved|].
  unfold remove_item. cbn [items]. repeat split.
  - apply Forall_forall. intros item Hitem. now apply list_elem_of_filter in Hitem.
  - apply sublist_filter.
  - intros item Hin Hid. now apply list_elem_of_filter.
  - induction (items cart) as [|item l IH]; [reflexivity|].
    destruct (decide (id item = itemId)) as [Hid|Hid].
    + rewrite filter_cons_False by (intros H; now apply H).
      rewrite (filter_cons_True (λ item : CartItem, id item = itemId)) by exact Hid.
      cbn [length]. lia.
    + rewrite filter_cons_True by exact Hid.
      rewrite (filter_cons_False (λ item : CartItem, id item = itemId)) by exact Hid.
      cbn [length]. lia.
Qed.

(** C10 at work: two items share the id [cart-7]; both are removed, the item
    between them stays. *)
Lemma removeItemFromCart_all_witness :
  let a := example_item "cart-7" "p1" 1 2 1 in
  let b := example_item "cart-8" "p2" 1 1 1 in
  let c := example_item "cart-7" "p1" 2 1 0 in
  holds (saved (mkCart [a; b; c]) ∅) (mkCart [a; b; c]) ∧
  ∃ ls',
    removeItemFromCart "cart-7" (saved (mkCart [a; b; c]) ∅) = Return (tt, ls') ∧
    holds ls' (mkCart [b]).
Proof.
  intros a b c. split; [apply holds_saved|].
  destruct (removeItemFromCart_all (saved (mkCart [a; b; c]) ∅) (mkCart [a; b; c]) "cart-7")
    as (ls' & cart' & Hrun & Hholds & _); [apply holds_saved|].
  exists ls'. split; [exact Hrun|].
  rewrite removeItemFromCart_run with (cart := mkCart [a; b; c]) in Hrun by apply holds_saved.
  injection Hrun as <-. apply holds_saved.
Defined.

(** ** Reading the cart depends on the text under the cart key only *)

Section Reading.

Lemma getCart_lookup (ls : Storage) :
  getCart ls
  = match ls !! CART_KEY with
    | Some text =>
        if bool_decide (text = "") then Return (JObject [("items", JArray [])], ls)
        else match parse_text text with
             | Some j => Return (j, ls)
             | None => Throw SyntaxError
             end
    | None => Return (JObject [("items", JArray [])], ls)
    end.
Proof.
  unfold getCart, bind, localStorage_getItem, JSON_parse, ret, throw.
  destruct (ls !! CART_KEY) as [text|]; [|reflexivity].
  destruct (bool_decide _); [reflexivity|]. now destruct (parse_text text).
Qed.

Lemma getCart_store (ls ls' : Storage) (j : JSON) :
  getCart ls = Return (j, ls') → ls' = ls.
Proof.
  rewrite getCart_lookup. destruct (ls !! CART_KEY) as [text|]; [|congruence].
  destruct (bool_decide _); [congruence|]. destruct (parse_text text); congruence.
Qed.

Lemma readCart_store (ls ls' : Storage) (cart : Cart) :
  readCart ls = Return (cart, ls') → holds ls cart ∧ ls' = ls.
Proof.
  unfold holds, readCart, bind. destruct (getCart ls) as [[j ls1]|e] eqn:Hget; [|discriminate].
  apply getCart_store in Hget as ->. unfold as_Cart, ret, throw.
  destruct (as_cart j); [|discriminate]. intros [= -> ->]. now split.
Qed.

Lemma holds_lookup (ls1 ls2 : Storage) (cart : Cart) :
  ls1 !! CART_KEY = ls2 !! CART_KEY → holds ls1 cart → holds ls2 cart.
Proof.
  unfold holds, readCart, bind. rewrite !getCart_lookup. intros <-.
  destruct (ls1 !! CART_KEY) as [text|]; [destruct (bool_decide _)|];
    [|destruct (parse_text text); [|discriminate]|];
    unfold as_Cart, ret, throw; destruct (as_cart _); try discriminate;
    intros [= ->]; reflexivity.
Qed.

Lemma run_call_run (c : call) (ls : Storage) (cart : Cart) :
  holds ls cart →
  ∃ ls', run_call c ls = Return (tt, ls') ∧ holds ls' (apply_call c cart) ∧
         ∀ key, key ≠ CART_KEY → ls' !! key = ls !! key.
Proof.
  intros Hcart. destruct c as [now newItem|itemId|itemId ty q|]; cbn [run_call apply_call].
  - exists (saved (add_item now newItem cart) ls).
    split; [now apply addItemToCart_run|]. split; [apply holds_saved|].
    intros key Hkey. now apply lookup_insert_ne.
  - exists (saved (remove_item itemId cart) ls).
    split; [now apply removeItemFromCart_run|]. split; [apply holds_saved|].
    intros key Hkey. now apply lookup_insert_ne.
  - exists (saved (update_quantity itemId ty q cart) ls).
    split; [now apply updateCartItemQuantity_run|]. split; [apply holds_saved|].
    intros key Hkey. now apply lookup_insert_ne.
  - exists (delete CART_KEY ls). split; [reflexivity|]. split.
    + unfold holds, readCart, bind. rewrite getCart_lookup. now rewrite lookup_delete_eq.
    + intros key Hkey. now apply lookup_delete_ne.
Qed.

Lemma run_call_inv (c : call) (ls ls' : Storage) :
  run_call c ls = Return (tt, ls') →
  c = ClearCart ∨ ∃ cart, holds ls cart.
Proof.
  destruct c as [now newItem|itemId|itemId ty q|]; cbn [run_call]; [| | |now left];
    unfold addItemToCart, removeItemFromCart, updateCartItemQuantity, bind;
    destruct (readCart ls) as [[cart ls1]|e] eqn:Hread; try discriminate;
    intros _; right; exists cart; now apply readCart_store in Hread.
Qed.

Lemma initializeTheme_lookup (classList : list string) (ls : Storage) :
  initializeTheme classList ls
  = Return (if bool_decide (ls !! THEME_KEY = Some "dark")
            then classList_add "dark" classList
            else classList_remove "dark" classList, ls).
Proof.
  unfold initializeTheme, bind, localStorage_getItem, ret. now destruct (bool_decide _).
Qed.

End Reading.

(** ** Further properties: failures and the other keys of the store *)

(** A text under the cart key that is not JSON makes every function that
    reads the cart throw the [SyntaxError] of [JSON.parse]: [addItemToCart],
    [removeItemFromCart], [updateCartItemQuantity] and [updateCartCount]
    (with or without the element of the header).  [clearCart] does not read
    the cart: it returns, and the store then holds the empty cart. *)
Theorem cart_operations_SyntaxError (ls : Storage) (text : string) :
  ls !! CART_KEY = Some text → text ≠ "" → parse_text text = None →
  (∀ now newItem, addItemToCart now newItem ls = Throw SyntaxError) ∧
  (∀ itemId, removeItemFromCart itemId ls = Throw SyntaxError) ∧
  (∀ itemId ticketType newQuantity,
     updateCartItemQuantity itemId ticketType newQuantity ls = Throw SyntaxError) ∧
  updateCartCount ls = Throw SyntaxError ∧
  (∀ cartCountEl, updateCartCount_element cartCountEl ls = Throw SyntaxError) ∧
  ∃ ls', clearCart ls = Return (tt, ls') ∧ holds ls' (mkCart []).
Proof.
  intros Htext Hne Hparse.
  assert (Hread : readCart ls = Throw SyntaxError).
  { unfold readCart, bind. rewrite getCart_lookup, Htext, Hparse.
    now rewrite bool_decide_eq_false_2. }
  assert (Hcount : updateCartCount ls = Throw SyntaxError).
  { unfold updateCartCount, bind. now rewrite Hread. }
  repeat split.
  - intros now newItem. unfold addItemToCart, bind. now rewrite Hread.
  - intros itemId. unfold removeItemFromCart, bind. now rewrite Hread.
  - intros itemId ty q. unfold updateCartItemQuantity, bind. now rewrite Hread.
  - exact Hcount.
  - intros el. unfold updateCartCount_element, bind. now rewrite Hcount.
  - exists (delete CART_KEY ls). split; [reflexivity|].
    unfold holds, readCart, bind. rewrite getCart_lookup. now rewrite lookup_delete_eq.
Qed.

(** An instance: the text [[object Object]] under the cart key. *)
Lemma cart_operations_SyntaxError_witness :
  let ls : Storage := {[ CART_KEY := "[object Object]" ]} in
  addItemToCart 5 (example_input "p1" 1 1 0) ls = Throw SyntaxError ∧
  removeItemFromCart "cart-5" ls = Throw SyntaxError ∧
  updateCartCount ls = Throw SyntaxError.
Proof.
  intros ls.
  destruct (cart_operations_SyntaxError ls "[object Object]")
    as (Hadd & Hremove & _ & Hcount & _);
    [apply lookup_singleton_eq|discriminate|vm_compute; reflexivity|].
  split; [apply Hadd|]. split; [apply Hremove|exact Hcount].
Defined.

(** The functions that change the cart write under the cart key only: a call
    that returns leaves the text under every other key as it was, so the
    theme that [initializeTheme] sets is the same before and after. *)
Theorem cart_operations_frame (c : call) (ls ls' : Storage) :
  run_call c ls = Return (tt, ls') →
  (∀ key, key ≠ CART_KEY → ls' !! key = ls !! key) ∧
  ∀ classList, ∃ classList',
    initializeTheme classList ls = Return (classList', ls) ∧
    initializeTheme classList ls' = Return (classList', ls').
Proof.
  intros Hrun.
  assert (Hframe : ∀ key, key ≠ CART_KEY → ls' !! key = ls !! key).
  { destruct (run_call_inv c ls ls' Hrun) as [->|[cart Hcart]].
    - injection Hrun as <-. intros key Hkey. now apply lookup_delete_ne.
    - destruct (run_call_run c ls cart Hcart) as (ls1 & Hrun1 & _ & Hframe).
      rewrite Hrun in Hrun1. now injection Hrun1 as <-. }
  split; [exact Hframe|]. intros classList. eexists.
  rewrite !initializeTheme_lookup, (Hframe THEME_KEY) by discriminate. split; reflexivity.
Qed.

(** An instance: adding an item keeps the saved theme. *)
Lemma cart_operations_frame_witness :
  let ls : Storage := {[ THEME_KEY := "dark" ]} in
  let ls' := saved (mkCart [mkItem "cart-5" (example_input "p1" 1 1 0)]) ls in
  run_call (AddItemToCart 5 (example_input "p1" 1 1 0)) ls = Return (tt, ls') ∧
  ls' !! THEME_KEY = Some "dark".
Proof.
  intros ls ls'.
  assert (Hrun : run_call (AddItemToCart 5 (example_input "p1" 1 1 0)) ls = Return (tt, ls')).
  { apply (addItemToCart_run 5 _ ls (mkCart [])). reflexivity. }
  split; [exact Hrun|].
  rewrite (proj1 (cart_operations_frame _ ls ls' Hrun) THEME_KEY) by discriminate.
  apply lookup_singleton_eq.
Defined.

(** ** Further properties: the theme *)

Section ClassList.
Context (token : string).

Lemma classList_contains_elem_of (classList : list string) :
  classList_contains token classList = true ↔ token ∈ classList.
Proof. apply bool_decide_eq_true. Qed.

Lemma elem_of_classList_remove (classList : list string) (c : string) :
  c ∈ classList_remove token classList ↔ c ≠ token ∧ c ∈ classList.
Proof. unfold classList_remove. now rewrite list_elem_of_filter. Qed.

Lemma elem_of_classList_add (classList : list string) (c : string) :
  c ∈ classList_add token classList ↔ c = token ∨ c ∈ classList.
Proof.
  unfold classList_add, classList_contains. case_bool_decide as Hin.
  - split; [now right|]. now intros [->|].
  - rewrite elem_of_app, list_elem_of_singleton. tauto.
Qed.

Lemma elem_of_classList_toggle (classList : list string) (c : string) :
  c ∈ classList_toggle token classList
  ↔ (c ≠ token ∧ c ∈ classList) ∨ (c = token ∧ token ∉ classList).
Proof.
  unfold classList_toggle, classList_contains. case_bool_decide as Hin.
  - rewrite elem_of_classList_remove. tauto.
  - rewrite elem_of_app, list_elem_of_singleton.
    destruct (decide (c = token)) as [->|Hne]; tauto.
Qed.

Lemma classList_remove_absent (classList : list string) :
  token ∉ classList → classList_remove token classList = classList.
Proof.
  intros Hnot. unfold classList_remove. induction classList as [|c l IH]; [reflexivity|].
  apply not_elem_of_cons in Hnot as [Hne Hnot].
  rewrite filter_cons_True by congruence. now rewrite IH.
Qed.

Lemma classList_remove_app (l1 l2 : list string) :
  classList_remove token (l1 ++ l2) = classList_remove token l1 ++ classList_remove token l2.
Proof. apply filter_app. Qed.

Lemma NoDup_classList_remove (classList : list string) :
  NoDup classList → NoDup (classList_remove token classList).
Proof. apply NoDup_filter. Qed.

Lemma NoDup_classList_add (classList : list string) :
  NoDup classList → NoDup (classList_add token classList).
Proof.
  intros Hl. unfold classList_add, classList_contains. case_bool_decide as Hin; [exact Hl|].
  apply NoDup_app. split; [exact Hl|]. split; [|apply NoDup_singleton].
  intros c Hc ->%list_elem_of_singleton. contradiction.
Qed.

Lemma NoDup_classList_toggle (classList : list string) :
  NoDup classList → NoDup (classList_toggle token classList).
Proof.
  intros Hl. unfold classList_toggle, classList_contains.
  case_bool_decide as Hin; [now apply NoDup_classList_remove|].
  apply NoDup_app. split; [exact Hl|]. split; [|apply NoDup_singleton].
  intros c Hc ->%list_elem_of_singleton. contradiction.
Qed.

End ClassList.

Lemma toggleTheme_run (classList : list string) (ls : Storage) :
  toggleTheme classList ls
  = Return (classList_toggle "dark" classList,
            <[THEME_KEY := if bool_decide ("dark" ∈ classList) then "light" else "dark"]> ls).
Proof.
  unfold toggleTheme, bind, localStorage_setItem, ret. do 3 f_equal.
  unfold classList_contains.
  destruct (decide ("dark" ∈ classList)) as [Hin|Hin].
  - rewrite (bool_decide_eq_true_2 _ Hin), bool_decide_eq_false_2; [reflexivity|].
    rewrite elem_of_classList_toggle. tauto.
  - rewrite (bool_decide_eq_false_2 _ Hin), bool_decide_eq_true_2; [reflexivity|].
    rewrite elem_of_classList_toggle. tauto.
Qed.

(** The theme that [toggleTheme] saves is the theme that [initializeTheme]
    restores.  [toggleTheme] always returns; it switches the class [dark] of
    the root element and leaves the other classes; it stores [dark] when the
    class is now there and [light] when it is not.  [initializeTheme], run
    later on a page with any classes, then sets the class [dark] exactly when
    [toggleTheme] left it set, leaves the other classes of that page, and
    does not write to the store. *)
Theorem toggleTheme_initializeTheme (classList page : list string) (ls : Storage) :
  ∃ classList' ls' page',
    toggleTheme classList ls = Return (classList', ls') ∧
    ("dark" ∈ classList' ↔ "dark" ∉ classList) ∧
    (∀ c, c ≠ "dark" → c ∈ classList' ↔ c ∈ classList) ∧
    ls' !! THEME_KEY = Some (if bool_decide ("dark" ∈ classList') then "dark" else "light") ∧
    initializeTheme page ls' = Return (page', ls') ∧
    ("dark" ∈ page' ↔ "dark" ∈ classList') ∧
    (∀ c, c ≠ "dark" → c ∈ page' ↔ c ∈ page).
Proof.
  eexists _, _, _. split; [apply toggleTheme_run|].
  assert (Hdark : "dark" ∈ classList_toggle "dark" classList ↔ "dark" ∉ classList).
  { rewrite elem_of_classList_toggle. tauto. }
  split; [exact Hdark|]. split.
  { intros c Hc. rewrite elem_of_classList_toggle. tauto. }
  split.
  { rewrite lookup_insert_eq. f_equal.
    destruct (decide ("dark" ∈ classList)) as [Hin|Hin].
    - rewrite (bool_decide_eq_true_2 _ Hin), bool_decide_eq_false_2; [reflexivity|tauto].
    - rewrite (bool_decide_eq_false_2 _ Hin), bool_decide_eq_true_2; [reflexivity|tauto]. }
  split; [apply initializeTheme_lookup|].
  rewrite lookup_insert_eq.
  destruct (decide ("dark" ∈ classList)) as [Hin|Hin].
  - rewrite (bool_decide_eq_true_2 _ Hin), bool_decide_eq_false_2 by discriminate.
    split; [|intros c Hc]; rewrite elem_of_classList_remove; tauto.
  - rewrite (bool_decide_eq_false_2 _ Hin), bool_decide_eq_true_2 by reflexivity.
    split; [|intros c Hc]; rewrite elem_of_classList_add; tauto.
Qed.

(** Two calls of [toggleTheme] bring the theme back: the root element has the
    classes it had (the very same list when [dark] was not among them; when it
    was, [dark] is now the last class), no class twice when none was twice,
    and the store names the theme that is shown. *)
Theorem toggleTheme_twice (classList : list string) (ls : Storage) :
  ∃ classList1 ls1 classList2 ls2,
    toggleTheme classList ls = Return (classList1, ls1) ∧
    toggleTheme classList1 ls1 = Return (classList2, ls2) ∧
    (∀ c, c ∈ classList2 ↔ c ∈ classList) ∧
    ("dark" ∉ classList → classList2 = classList) ∧
    ("dark" ∈ classList → classList2 = classList_remove "dark" classList ++ ["dark"]) ∧
    (NoDup classList → NoDup classList2) ∧
    ls2 = <[THEME_KEY := if bool_decide ("dark" ∈ classList) then "dark" else "light"]> ls.
Proof.
  eexists _, _, _, _. split; [apply toggleTheme_run|]. split; [apply toggleTheme_run|].
  split; [|split; [|split; [|split]]].
  - intros c. rewrite !elem_of_classList_toggle.
    destruct (decide (c = "dark")) as [->|Hne]; [|tauto].
    destruct (decide ("dark" ∈ classList)); tauto.
  - intros Hnot. unfold classList_toggle at 2, classList_contains.
    rewrite (bool_decide_eq_false_2 _ Hnot). unfold classList_toggle, classList_contains.
    rewrite bool_decide_eq_true_2
      by (apply elem_of_app; right; now apply list_elem_of_singleton).
    rewrite classList_remove_app, classList_remove_absent by exact Hnot.
    apply List.app_nil_r.
  - intros Hin. unfold classList_toggle at 2, classList_contains.
    rewrite (bool_decide_eq_true_2 _ Hin). unfold classList_toggle, classList_contains.
    rewrite bool_decide_eq_false_2; [reflexivity|].
    rewrite elem_of_classList_remove. tauto.
  - intros Hl. now do 2 apply NoDup_classList_toggle.
  - rewrite insert_insert_eq. f_equal.
    destruct (decide ("dark" ∈ classList)) as [Hin|Hin].
    + rewrite (bool_decide_eq_true_2 _ Hin), bool_decide_eq_false_2; [reflexivity|].
      rewrite elem_of_classList_toggle. tauto.
    + rewrite (bool_decide_eq_false_2 _ Hin), bool_decide_eq_true_2; [reflexivity|].
      rewrite elem_of_classList_toggle. tauto.
Qed.

(** [initializeTheme] never throws and never writes.  The root element gets
    the class [dark] exactly when the text under the theme key is [dark]:
    with no text there, or any other text, the theme is the light one.  The
    other classes stay, no class is there twice when none was, and a second
    call changes nothing. *)
Theorem initializeTheme_saved (classList : list string) (ls : Storage) :
  ∃ classList',
    initializeTheme classList ls = Return (classList', ls) ∧
    ("dark" ∈ classList' ↔ ls !! THEME_KEY = Some "dark") ∧
    (∀ c, c ≠ "dark" → c ∈ classList' ↔ c ∈ classList) ∧
    (NoDup classList → NoDup classList') ∧
    initializeTheme classList' ls = Return (classList', ls).
Proof.
  eexists. split; [apply initializeTheme_lookup|]. rewrite initializeTheme_lookup.
  case_bool_decide as Hsaved.
  - split; [rewrite elem_of_classList_add; tauto|].
    split; [intros c Hc; rewrite elem_of_classList_add; tauto|].
    split; [apply NoDup_classList_add|]. do 2 f_equal.
    unfold classList_add at 1, classList_contains.
    rewrite bool_decide_eq_true_2; [reflexivity|]. rewrite elem_of_classList_add. now left.
  - split; [rewrite elem_of_classList_remove; tauto|].
    split; [intros c Hc; rewrite elem_of_classList_remove; tauto|].
    split; [apply NoDup_classList_remove|]. do 2 f_equal.
    apply classList_remove_absent. rewrite elem_of_classList_remove. tauto.
Qed.

(** [toggleTheme] writes under the theme key only: the store holds the cart
    it held, and the text under every other key is as it was. *)
Theorem toggleTheme_keeps_cart (classList : list string) (ls : Storage) (cart : Cart) :
  holds ls cart →
  ∃ classList' ls',
    toggleTheme classList ls = Return (classList', ls') ∧
    holds ls' cart ∧
    ∀ key, key ≠ THEME_KEY → ls' !! key = ls !! key.
Proof.
  intros Hcart. eexists _, _. split; [apply toggleTheme_run|]. split.
  - apply (holds_lookup ls); [|exact Hcart]. symmetry. now apply lookup_insert_ne.
  - intros key Hkey. now apply lookup_insert_ne.
Qed.

(** An instance: the cart that was saved is read back after the theme was
    switched to dark. *)
Lemma toggleTheme_keeps_cart_witness :
  let cart := mkCart [example_item "cart-1" "p1" 1 2 1] in
  holds (saved cart ∅) cart ∧
  ∃ ls', toggleTheme ["page"] (saved cart ∅) = Return (["page"; "dark"], ls') ∧
         holds ls' cart ∧ ls' !! THEME_KEY = Some "dark".
Proof.
  intros cart. split; [apply holds_saved|].
  destruct (toggleTheme_keeps_cart ["page"] (saved cart ∅) cart (holds_saved cart ∅))
    as (classList' & ls' & Hrun & Hholds & _).
  exists ls'. rewrite toggleTheme_run in Hrun. injection Hrun as <- <-.
  split; [apply toggleTheme_run|]. split; [|reflexivity].
  apply (holds_lookup (saved cart ∅)); [reflexivity|apply holds_saved].
Defined.

(** ** Further properties: how the cart functions compose *)

Lemma saved_saved (cart1 cart2 : Cart) (ls : Storage) :
  saved cart2 (saved cart1 ls) = saved cart2 ls.
Proof. apply insert_insert_eq. Qed.

(** [addItemToCart] raises the count that the header shows by the tickets of
    the input, whether the input is merged into an item of the cart or
    appended as a new item, when the counts are in the range in which the sums
    of the code are exact: the absolute values of the counts of the cart and of
    the input sum to at most [2^53]. *)
Theorem addItemToCart_count (ls : Storage) (cart : Cart) (now : Z)
    (newItem : CartItemInput) :
  holds ls cart →
  ticket_magnitude cart + call_magnitude (AddItemToCart now newItem) ≤ 9007199254740992 →
  ∃ ls' count,
    updateCartCount ls = Return (count, ls) ∧
    addItemToCart now newItem ls = Return (tt, ls') ∧
    updateCartCount ls'
    = Return (count + adults (tickets newItem) + kids (tickets newItem), ls').
Proof.
  intros Hcart Hbound. cbn [call_magnitude] in Hbound.
  pose proof (ticket_magnitude_nonneg cart) as Hnonneg.
  exists (saved (add_item now newItem cart) ls), (ticket_count cart).
  split; [apply updateCartCount_run; [exact Hcart|lia]|].
  split; [now apply addItemToCart_run|].
  destruct cart as [l]. cbn [items] in *.
  destruct (add_item_cases now newItem (mkCart l))
    as [[_ ->]|(l1 & item & l2 & Heq & _ & _ & ->)]; cbn [items] in *.
  - rewrite (updateCartCount_run _ _ (holds_saved _ _)).
    + do 2 f_equal. rewrite ticket_count_app, ticket_count_cons, ticket_count_nil.
      cbn. lia.
    + rewrite ticket_magnitude_app, ticket_magnitude_cons, ticket_magnitude_nil. cbn. lia.
  - subst l.
    rewrite ticket_magnitude_app, ticket_magnitude_cons in Hbound.
    pose proof (ticket_magnitude_nonneg (mkCart l1)) as Hl1.
    pose proof (ticket_magnitude_nonneg (mkCart l2)) as Hl2.
    assert (Htickets : tickets (add_tickets (adults (tickets newItem))
                                  (kids (tickets newItem)) item)
                       = mkTickets (adults (tickets item) + adults (tickets newItem))
                           (kids (tickets item) + kids (tickets newItem))).
    { apply tickets_add_tickets_exact; unfold exact_range; lia. }
    rewrite (updateCartCount_run _ _ (holds_saved _ _)).
    + do 2 f_equal. rewrite !ticket_count_app, !ticket_count_cons, Htickets. cbn. lia.
    + rewrite ticket_magnitude_app, ticket_magnitude_cons, Htickets. cbn. lia.
Qed.

(** An instance: 1 adult and 2 kids more for a line of the cart raise the
    count from 3 to 6. *)
Lemma addItemToCart_count_witness :
  let cart := mkCart [example_item "cart-1" "p1" 1 2 1] in
  holds (saved cart ∅) cart ∧
  ticket_magnitude cart + call_magnitude (AddItemToCart 20 (example_input "p1" 1 1 2))
  ≤ 9007199254740992 ∧
  ∃ ls',
    updateCartCount (saved cart ∅) = Return (3, saved cart ∅) ∧
    addItemToCart 20 (example_input "p1" 1 1 2) (saved cart ∅) = Return (tt, ls') ∧
    updateCartCount ls' = Return (6, ls').
Proof.
  intros cart. split; [apply holds_saved|]. split; [vm_compute; discriminate|].
  destruct (addItemToCart_count (saved cart ∅) cart 20 (example_input "p1" 1 1 2)
              (holds_saved cart ∅)) as (ls' & count & Hcount & Hrun & Hcount');
    [vm_compute; discriminate|].
  assert (Hthree : updateCartCount (saved cart ∅) = Return (3, saved cart ∅)).
  { apply (updateCartCount_run _ cart (holds_saved cart ∅)). vm_compute. discriminate. }
  rewrite Hthree in Hcount. injection Hcount as <-. exists ls'.
  split; [exact Hthree|]. split; [exact Hrun|exact Hcount'].
Defined.

(** [updateCartItemQuantity] with a quantity that is not negative, for the
    id of an item of the cart, changes the count that the header shows by the
    new quantity minus the old one, also when the item is removed because no
    ticket is left; the counts being in the range in which the sums of the
    code are exact (the absolute values of the counts of the cart and the new
    quantity sum to at most [2^53]). *)
Theorem updateCartItemQuantity_count (ls : Storage) (cart : Cart) (itemId : string)
    (ticketType : TicketType) (newQuantity : Z) (l1 l2 : list CartItem) (item : CartItem) :
  holds ls cart →
  items cart = l1 ++ item :: l2 →
  Forall (λ item : CartItem, id item ≠ itemId) l1 →
  id item = itemId →
  0 ≤ newQuantity →
  ticket_magnitude cart
  + call_magnitude (UpdateCartItemQuantity itemId ticketType newQuantity)
  ≤ 9007199254740992 →
  ∃ ls' count,
    updateCartCount ls = Return (count, ls) ∧
    updateCartItemQuantity itemId ticketType newQuantity ls = Return (tt, ls') ∧
    updateCartCount ls'
    = Return (count - get_count ticketType (tickets item) + newQuantity, ls').
Proof.
  intros Hcart Hitems Hfirst Hid Hq Hbound. cbn [call_magnitude] in Hbound.
  pose proof (ticket_magnitude_nonneg cart) as Hnonneg.
  exists (saved (update_quantity itemId ticketType newQuantity cart) ls), (ticket_count cart).
  split; [apply updateCartCount_run; [exact Hcart|lia]|].
  split; [now apply updateCartItemQuantity_run|].
  rewrite (update_quantity_found itemId ticketType newQuantity cart l1 l2 item) by trivial.
  cbv zeta. destruct cart as [l]. cbn [items] in Hitems. subst l.
  rewrite ticket_magnitude_app, ticket_magnitude_cons in Hbound.
  pose proof (ticket_magnitude_nonneg (mkCart l1)) as Hl1.
  pose proof (ticket_magnitude_nonneg (mkCart l2)) as Hl2.
  destruct (no_tickets _) eqn:Hno.
  - unfold no_tickets in Hno. apply andb_prop in Hno as [Ha Hk].
    apply bool_decide_eq_true in Ha, Hk.
    rewrite (updateCartCount_run _ _ (holds_saved _ _)).
    + do 2 f_equal. rewrite !ticket_count_app, ticket_count_cons.
      destruct ticketType; cbn in *; lia.
    + rewrite ticket_magnitude_app. lia.
  - rewrite (updateCartCount_run _ _ (holds_saved _ _)).
    + do 2 f_equal. rewrite !ticket_count_app, !ticket_count_cons.
      destruct ticketType; cbn; lia.
    + rewrite ticket_magnitude_app, ticket_magnitude_cons.
      destruct ticketType; cbn; lia.
Qed.

(** An instance: setting the 2 adults of an item to 5 raises the count from 3
    to 6. *)
Lemma updateCartItemQuantity_count_witness :
  let item := example_item "cart-1" "p1" 1 2 1 in
  holds (saved (mkCart [item]) ∅) (mkCart [item]) ∧
  ∃ ls',
    updateCartCount (saved (mkCart [item]) ∅) = Return (3, saved (mkCart [item]) ∅) ∧
    updateCartItemQuantity "cart-1" Adults 5 (saved (mkCart [item]) ∅) = Return (tt, ls') ∧
    updateCartCount ls' = Return (6, ls').
Proof.
  intros item. split; [apply holds_saved|].
  destruct (updateCartItemQuantity_count (saved (mkCart [item]) ∅) (mkCart [item]) "cart-1"
              Adults 5 [] [] item) as (ls' & count & Hcount & Hrun & Hcount');
    [apply holds_saved|reflexivity|constructor|reflexivity|lia|vm_compute; discriminate|].
  assert (Hthree : updateCartCount (saved (mkCart [item]) ∅)
                   = Return (3, saved (mkCart [item]) ∅)).
  { apply (updateCartCount_run _ (mkCart [item]) (holds_saved _ ∅)).
    vm_compute. discriminate. }
  rewrite Hthree in Hcount. injection Hcount as <-. exists ls'.
  split; [exact Hthree|]. split; [exact Hrun|exact Hcount'].
Defined.

(** [updateCartItemQuantity] with an id that no item of the cart has changes
    nothing, whatever the quantity, and still writes the cart to the store. *)
Theorem updateCartItemQuantity_absent (ls : Storage) (cart : Cart) (itemId : string)
    (ticketType : TicketType) (newQuantity : Z) :
  holds ls cart →
  Forall (λ item : CartItem, id item ≠ itemId) (items cart) →
  updateCartItemQuantity itemId ticketType newQuantity ls
  = Return (tt, <[CART_KEY := JSON_stringify (json_of_cart cart)]> ls) ∧
  holds (<[CART_KEY := JSON_stringify (json_of_cart cart)]> ls) cart.
Proof.
  intros Hcart Habsent. split; [|apply holds_saved].
  rewrite (updateCartItemQuantity_run _ _ _ _ cart Hcart).
  now rewrite update_quantity_absent.
Qed.

(** An instance: on the empty store, the call writes the empty cart. *)
Lemma updateCartItemQuantity_absent_witness :
  holds ∅ (mkCart []) ∧
  updateCartItemQuantity "cart-1" Adults 3 ∅ = Return (tt, saved (mkCart []) ∅) ∧
  saved (mkCart []) ∅ !! CART_KEY = Some (JSON_stringify (JObject [("items", JArray [])])).
Proof.
  split; [apply holds_empty|].
  destruct (updateCartItemQuantity_absent ∅ (mkCart []) "cart-1" Adults 3 holds_empty)
    as [Hrun _]; [constructor|].
  split; [exact Hrun|]. apply lookup_insert_eq.
Defined.

(** The last quantity wins: after a quantity that leaves the item in the
    cart, a second call for the same item and ticket type gives the store
    that the second call alone gives. *)
Theorem updateCartItemQuantity_twice (ls : Storage) (cart : Cart) (itemId : string)
    (ticketType : TicketType) (q1 q2 : Z) (l1 l2 : list CartItem) (item : CartItem) :
  holds ls cart →
  items cart = l1 ++ item :: l2 →
  Forall (λ item : CartItem, id item ≠ itemId) l1 →
  id item = itemId →
  0 ≤ q1 → 0 ≤ q2 →
  ¬ (q1 = 0 ∧ get_count (other ticketType) (tickets item) = 0) →
  ∃ ls1 ls2,
    updateCartItemQuantity itemId ticketType q1 ls = Return (tt, ls1) ∧
    updateCartItemQuantity itemId ticketType q2 ls1 = Return (tt, ls2) ∧
    updateCartItemQuantity itemId ticketType q2 ls = Return (tt, ls2).
Proof.
  intros Hcart Hitems Hfirst Hid Hq1 Hq2 Hleft.
  set (item1 := set_tickets (set_count ticketType q1 (tickets item)) item).
  assert (Hno : no_tickets item1 = false).
  { unfold no_tickets. apply not_true_is_false. intros H.
    apply andb_prop in H as [H1 H2]. apply bool_decide_eq_true in H1, H2.
    apply Hleft. destruct ticketType; cbn in *; now split. }
  assert (Hupd1 : update_quantity itemId ticketType q1 cart = mkCart (l1 ++ item1 :: l2)).
  { rewrite (update_quantity_found itemId ticketType q1 cart l1 l2 item) by trivial.
    cbv zeta. fold item1. now rewrite Hno. }
  exists (saved (mkCart (l1 ++ item1 :: l2)) ls),
    (saved (update_quantity itemId ticketType q2 cart) ls).
  split; [rewrite <- Hupd1; now apply updateCartItemQuantity_run|].
  split; [|now apply updateCartItemQuantity_run].
  rewrite (updateCartItemQuantity_run _ _ _ _ _ (holds_saved _ _)), saved_saved.
  do 3 f_equal.
  rewrite (update_quantity_found itemId ticketType q2 cart l1 l2 item) by trivial.
  rewrite (update_quantity_found itemId ticketType q2 (mkCart (l1 ++ item1 :: l2))
             l1 l2 item1) by trivial.
  cbv zeta. unfold item1. destruct item as [x [p d [a k] u n i]].
  destruct ticketType; reflexivity.
Qed.

(** An instance: 2 adults are set to 7 and then to 4. *)
Lemma updateCartItemQuantity_twice_witness :
  let cart := mkCart [example_item "cart-1" "p1" 1 2 1] in
  holds (saved cart ∅) cart ∧
  ∃ ls1 ls2,
    updateCartItemQuantity "cart-1" Adults 7 (saved cart ∅) = Return (tt, ls1) ∧
    updateCartItemQuantity "cart-1" Adults 4 ls1 = Return (tt, ls2) ∧
    holds ls2 (mkCart [example_item "cart-1" "p1" 1 4 1]).
Proof.
  intros cart. split; [apply holds_saved|].
  destruct (updateCartItemQuantity_twice (saved cart ∅) cart "cart-1" Adults 7 4 [] []
              (example_item "cart-1" "p1" 1 2 1))
    as (ls1 & ls2 & Hrun1 & Hrun2 & Hrun);
    [apply holds_saved|reflexivity|constructor|reflexivity|lia|lia|cbn; lia|].
  exists ls1, ls2. split; [exact Hrun1|]. split; [exact Hrun2|].
  rewrite (updateCartItemQuantity_run _ _ _ _ cart (holds_saved cart ∅)) in Hrun.
  injection Hrun as <-. apply holds_saved.
Defined.

(** [removeItemFromCart] undoes an [addItemToCart] that appended an item:
    when no item of the cart has the pair of the input, and none has the id
    [cart-<now>], removing that id after the addition leaves the cart that
    was there before. *)
Theorem addItemToCart_removeItemFromCart (ls : Storage) (cart : Cart) (now : Z)
    (newItem : CartItemInput) :
  holds ls cart →
  line_items (parkId newItem) (days newItem) cart = [] →
  Forall (λ item : CartItem, id item ≠ new_id now) (items cart) →
  ∃ ls1 ls2,
    addItemToCart now newItem ls = Return (tt, ls1) ∧
    removeItemFromCart (new_id now) ls1 = Return (tt, ls2) ∧
    holds ls2 cart.
Proof.
  intros Hcart Hnew Hfresh.
  apply (Forall_not_filter_nil
           (λ item : CartItem, same_line (parkId newItem) (days newItem) item)) in Hnew.
  exists (saved (add_item now newItem cart) ls),
    (saved (remove_item (new_id now) (add_item now newItem cart))
       (saved (add_item now newItem cart) ls)).
  split; [now apply addItemToCart_run|].
  split; [apply removeItemFromCart_run, holds_saved|].
  assert (remove_item (new_id now) (add_item now newItem cart) = cart) as ->;
    [|apply holds_saved].
  rewrite add_item_new by exact Hnew. unfold remove_item. cbn [items].
  rewrite filter_app, filter_cons_False by (cbn; intros H; now apply H).
  rewrite filter_nil, List.app_nil_r.
  pose proof (remove_item_absent (new_id now) cart Hfresh) as Hsame.
  unfold remove_item in Hsame. exact Hsame.
Qed.

(** An instance: a line for 2 days is added to a cart with a line for 1 day,
    and removed again. *)
Lemma addItemToCart_removeItemFromCart_witness :
  let cart := mkCart [example_item "cart-10" "p1" 1 2 0] in
  holds (saved cart ∅) cart ∧
  line_items "p1" 2 cart = [] ∧
  Forall (λ item : CartItem, id item ≠ "cart-20") (items cart) ∧
  ∃ ls1 ls2,
    addItemToCart 20 (example_input "p1" 2 1 1) (saved cart ∅) = Return (tt, ls1) ∧
    removeItemFromCart "cart-20" ls1 = Return (tt, ls2) ∧
    holds ls2 cart.
Proof.
  intros cart.
  assert (Hfresh : Forall (λ item : CartItem, id item ≠ "cart-20") (items cart))
    by (repeat constructor; discriminate).
  split; [apply holds_saved|]. split; [reflexivity|]. split; [exact Hfresh|].
  exact (addItemToCart_removeItemFromCart (saved cart ∅) cart 20 (example_input "p1" 2 1 1)
           (holds_saved cart ∅) eq_refl Hfresh).
Defined.

(** Removing an id a second time changes nothing, not even the store; and
    two removals give the same store in either order. *)
Theorem removeItemFromCart_twice (ls : Storage) (cart : Cart) (a b : string) :
  holds ls cart →
  ∃ ls1 ls2 ls3,
    removeItemFromCart a ls = Return (tt, ls1) ∧
    removeItemFromCart a ls1 = Return (tt, ls1) ∧
    removeItemFromCart b ls1 = Return (tt, ls2) ∧
    removeItemFromCart b ls = Return (tt, ls3) ∧
    removeItemFromCart a ls3 = Return (tt, ls2).
Proof.
  intros Hcart.
  assert (Hfilter : ∀ x y (l : list CartItem),
            filter (λ item : CartItem, id item ≠ x) (filter (λ item : CartItem, id item ≠ y) l)
            = filter (λ item : CartItem, id item ≠ x ∧ id item ≠ y) l).
  { intros x y l. induction l as [|item l IH]; [reflexivity|].
    destruct (decide (id item = y)) as [Hy|Hy].
    - rewrite (filter_cons_False (λ item : CartItem, id item ≠ y)) by tauto.
      rewrite (filter_cons_False (λ item : CartItem, id item ≠ x ∧ id item ≠ y)) by tauto.
      exact IH.
    - rewrite (filter_cons_True (λ item : CartItem, id item ≠ y)) by tauto.
      destruct (decide (id item = x)) as [Hx|Hx].
      + rewrite (filter_cons_False (λ item : CartItem, id item ≠ x)) by tauto.
        rewrite (filter_cons_False (λ item : CartItem, id item ≠ x ∧ id item ≠ y)) by tauto.
        exact IH.
      + rewrite (filter_cons_True (λ item : CartItem, id item ≠ x)) by tauto.
        rewrite (filter_cons_True (λ item : CartItem, id item ≠ x ∧ id item ≠ y)) by tauto.
        now rewrite IH. }
  assert (Hsame : ∀ x y (l : list CartItem),
            filter (λ item : CartItem, id item ≠ x ∧ id item ≠ y) l
            = filter (λ item : CartItem, id item ≠ y ∧ id item ≠ x) l).
  { intros x y l. apply list_filter_iff. tauto. }
  assert (Hidem : ∀ x (l : list CartItem),
            filter (λ item : CartItem, id item ≠ x ∧ id item ≠ x) l
            = filter (λ item : CartItem, id item ≠ x) l).
  { intros x l. apply list_filter_iff. tauto. }
  exists (saved (remove_item a cart) ls), (saved (remove_item b (remove_item a cart)) ls),
    (saved (remove_item b cart) ls).
  split; [now apply removeItemFromCart_run|].
  split; [|split; [|split]].
  - rewrite (removeItemFromCart_run _ _ _ (holds_saved _ _)), saved_saved.
    unfold remove_item. cbn [items]. now rewrite Hfilter, Hidem.
  - now rewrite (removeItemFromCart_run _ _ _ (holds_saved _ _)), saved_saved.
  - now apply removeItemFromCart_run.
  - rewrite (removeItemFromCart_run _ _ _ (holds_saved _ _)), saved_saved.
    unfold remove_item. cbn [items]. now rewrite !Hfilter, Hsame.
Qed.

(** An instance: the ids [cart-1] and [cart-3] are removed from a cart of
    three items. *)
Lemma removeItemFromCart_twice_witness :
  let a := example_item "cart-1" "p1" 1 2 1 in
  let b := example_item "cart-2" "p2" 1 1 1 in
  let c := example_item "cart-3" "p3" 2 1 0 in
  holds (saved (mkCart [a; b; c]) ∅) (mkCart [a; b; c]) ∧
  ∃ ls1 ls2,
    removeItemFromCart "cart-1" (saved (mkCart [a; b; c]) ∅) = Return (tt, ls1) ∧
    removeItemFromCart "cart-3" ls1 = Return (tt, ls2) ∧
    holds ls2 (mkCart [b]).
Proof.
  intros a b c. split; [apply holds_saved|].
  destruct (removeItemFromCart_twice (saved (mkCart [a; b; c]) ∅) (mkCart [a; b; c])
              "cart-1" "cart-3" (holds_saved _ _))
    as (ls1 & ls2 & ls3 & Hrun1 & _ & Hrun2 & _).
  exists ls1, ls2. split; [exact Hrun1|]. split; [exact Hrun2|].
  rewrite (removeItemFromCart_run _ _ _ (holds_saved _ _)) in Hrun1. injection Hrun1 as <-.
  rewrite (removeItemFromCart_run _ _ _ (holds_saved _ _)) in Hrun2. injection Hrun2 as <-.
  apply holds_saved.
Defined.

(** ** Further properties: the carts that sequences of calls reach *)

Section Reachable.

(** On a store that holds a cart no call throws, and a sequence of calls
    leaves the cart that the calls make of it one after the other. *)
Lemma run_calls_run (cs : list call) (ls : Storage) (cart : Cart) :
  holds ls cart →
  ∃ ls', run_calls cs ls = Return (tt, ls') ∧
         holds ls' (foldl (λ cart c, apply_call c cart) cart cs).
Proof.
  revert ls cart. induction cs as [|c cs IH]; intros ls cart Hcart.
  - exists ls. now split.
  - destruct (run_call_run c ls cart Hcart) as (ls1 & Hrun1 & Hholds1 & _).
    destruct (IH ls1 (apply_call c cart) Hholds1) as (ls' & Hrun & Hholds).
    exists ls'. split; [|exact Hholds].
    cbn [run_calls]. unfold bind. now rewrite Hrun1.
Qed.

(** What a call does to a field that is not a ticket count: the values of the
    field over the items stay, some may go, and [addItemToCart] may append
    the one of a new item, for a pair that no item of the cart has. *)
Lemma apply_call_fmap {K} (f : CartItem → K) (c : call) (cart : Cart) :
  (∀ t item, f (set_tickets t item) = f item) →
  f <$> items (apply_call c cart) `sublist_of` f <$> items cart ∨
  ∃ now newItem,
    c = AddItemToCart now newItem ∧
    Forall (λ item : CartItem, ¬ same_line (parkId newItem) (days newItem) item) (items cart) ∧
    f <$> items (apply_call c cart) = (f <$> items cart) ++ [f (mkItem (new_id now) newItem)].
Proof.
  intros Hf. destruct c as [now newItem|itemId|itemId ty q|]; cbn [apply_call].
  - destruct (add_item_cases now newItem cart)
      as [[Hnew ->]|(l1 & item & l2 & Heq & _ & _ & ->)].
    + right. exists now, newItem. split; [reflexivity|]. split; [exact Hnew|].
      cbn [items]. now rewrite fmap_app.
    + left. rewrite Heq. cbn [items]. rewrite !fmap_app, !fmap_cons.
      unfold add_tickets. now rewrite !Hf.
  - left. apply fmap_sublist. unfold remove_item. cbn [items]. apply sublist_filter.
  - left. destruct (update_quantity_cases itemId ty q cart)
      as [->|(l1 & item & l2 & Heq & _ & Hupd)]; [reflexivity|].
    cbv zeta in Hupd. rewrite Hupd, Heq.
    destruct (no_tickets _); cbn [items]; rewrite !fmap_app, !fmap_cons.
    + apply sublist_app; [reflexivity|]. now apply sublist_cons.
    + now rewrite Hf.
  - left. apply sublist_nil_l.
Qed.

Lemma NoDup_line_items (p : string) (d : Z) (cart : Cart) :
  NoDup (line_key <$> items cart) → (length (line_items p d cart) ≤ 1)%nat.
Proof.
  unfold line_items. induction (items cart) as [|item l IH]; intros Hl; [cbn; lia|].
  rewrite fmap_cons in Hl. apply NoDup_cons in Hl as [Hitem Hl].
  destruct (decide (same_line p d item)) as [[Hp Hd]|Hline].
  - rewrite filter_cons_True by now split.
    assert (filter (λ item : CartItem, same_line p d item) l = []) as ->; [|cbn; lia].
    apply (Forall_not_filter_nil (λ item : CartItem, same_line p d item)).
    apply Forall_forall. intros item' Hin [Hp' Hd']. apply Hitem.
    apply list_elem_of_fmap. exists item'. split; [|exact Hin].
    unfold line_key. now rewrite Hp, Hd, Hp', Hd'.
  - rewrite filter_cons_False by exact Hline. now apply IH.
Qed.

Lemma apply_call_unique_lines (c : call) (cart : Cart) :
  NoDup (line_key <$> items cart) → NoDup (line_key <$> items (apply_call c cart)).
Proof.
  intros Hl.
  destruct (apply_call_fmap line_key c cart) as [Hsub|(now & newItem & _ & Hnew & ->)];
    [reflexivity|now apply (sublist_NoDup _ _ Hl)|].
  apply NoDup_app. split; [exact Hl|]. split; [|apply NoDup_singleton].
  intros key Hin ->%list_elem_of_singleton.
  apply list_elem_of_fmap in Hin as (item & Hkey & Hin).
  rewrite Forall_forall in Hnew. apply (Hnew item Hin).
  unfold line_key in Hkey. cbn in Hkey. injection Hkey as Hp Hd. now split.
Qed.

Lemma new_id_inj (m n : Z) : new_id m = new_id n → m = n.
Proof. unfold new_id. intros Heq. apply string_of_Z_inj. now injection Heq. Qed.

Lemma add_times_cons (c : call) (cs : list call) :
  add_times (c :: cs)
  = match c with AddItemToCart now _ => [now] | _ => [] end ++ add_times cs.
Proof. reflexivity. Qed.

Lemma add_inputs_cons (c : call) (cs : list call) :
  add_inputs (c :: cs)
  = match c with AddItemToCart _ newItem => [newItem] | _ => [] end ++ add_inputs cs.
Proof. reflexivity. Qed.

Lemma apply_calls_unique_ids (cs : list call) (cart : Cart) :
  NoDup (id <$> items cart) →
  NoDup (add_times cs) →
  Forall (λ item : CartItem, id item ∉ new_id <$> add_times cs) (items cart) →
  NoDup (id <$> items (foldl (λ cart c, apply_call c cart) cart cs)).
Proof.
  revert cart. induction cs as [|c cs IH]; intros cart Hids Htimes Hfresh; [exact Hids|].
  cbn [foldl]. rewrite add_times_cons in Htimes, Hfresh.
  assert (Hold : ∀ x, x ∈ id <$> items cart → x ∉ new_id <$> add_times cs).
  { intros x (item & -> & Hin)%list_elem_of_fmap Hx.
    rewrite Forall_forall in Hfresh. apply (Hfresh item Hin).
    rewrite fmap_app. apply elem_of_app. now right. }
  assert (Hforall : ∀ cart' : Cart,
            (∀ x, x ∈ id <$> items cart' → x ∉ new_id <$> add_times cs) →
            Forall (λ item : CartItem, id item ∉ new_id <$> add_times cs) (items cart')).
  { intros cart' H. apply Forall_forall. intros item Hin. apply H.
    apply list_elem_of_fmap. now exists item. }
  destruct (apply_call_fmap id c cart) as [Hsub|(now & newItem & -> & _ & Heq)];
    [reflexivity| |].
  - apply IH.
    + now apply (sublist_NoDup _ _ Hids).
    + now apply NoDup_app in Htimes as (_ & _ & Htimes).
    + apply Hforall. intros x Hx. apply Hold. now apply (elem_of_sublist _ _ _ Hx).
  - cbn [app] in Htimes, Hfresh. apply NoDup_cons in Htimes as [Hnow Htimes].
    apply IH; [|exact Htimes|].
    + rewrite Heq. apply NoDup_app. split; [exact Hids|]. split; [|apply NoDup_singleton].
      intros x Hx ->%list_elem_of_singleton.
      apply list_elem_of_fmap in Hx as (item & Hid & Hin). cbn [id] in Hid.
      rewrite Forall_forall in Hfresh. apply (Hfresh item Hin).
      rewrite fmap_cons, <- Hid. now left.
    + apply Hforall. intros x. rewrite Heq, elem_of_app, list_elem_of_singleton.
      intros [Hx| ->]; [now apply Hold|]. cbn [id].
      intros (t & Ht & Hin)%list_elem_of_fmap. apply new_id_inj in Ht as <-. contradiction.
Qed.

Lemma ticket_magnitude_filter (P : CartItem → Prop) `{∀ x, Decision (P x)}
    (l : list CartItem) :
  ticket_magnitude (mkCart (filter P l)) ≤ ticket_magnitude (mkCart l).
Proof.
  induction l as [|item l IH]; [reflexivity|].
  rewrite ticket_magnitude_cons. destruct (decide (P item)) as [HP|HP].
  - rewrite filter_cons_True by exact HP. rewrite ticket_magnitude_cons. lia.
  - rewrite filter_cons_False by exact HP. lia.
Qed.

(** A call raises the sum of the absolute values of the counts by the
    counts of its input at most, while that sum is in the exact range. *)
Lemma apply_call_magnitude (c : call) (cart : Cart) :
  ticket_magnitude cart + call_magnitude c ≤ 9007199254740992 →
  ticket_magnitude (apply_call c cart) ≤ ticket_magnitude cart + call_magnitude c.
Proof.
  intros Hbound. pose proof (ticket_magnitude_nonneg cart) as Hnonneg.
  destruct cart as [l].
  destruct c as [now newItem|itemId|itemId ty q|]; cbn [apply_call call_magnitude] in *.
  - destruct (add_item_cases now newItem (mkCart l))
      as [[_ ->]|(l1 & item & l2 & Heq & _ & _ & ->)]; cbn [items] in *.
    + rewrite ticket_magnitude_app, ticket_magnitude_cons, ticket_magnitude_nil. cbn. lia.
    + subst l. rewrite ticket_magnitude_app, ticket_magnitude_cons in Hbound.
      pose proof (ticket_magnitude_nonneg (mkCart l1)).
      pose proof (ticket_magnitude_nonneg (mkCart l2)).
      rewrite !ticket_magnitude_app, !ticket_magnitude_cons.
      rewrite tickets_add_tickets_exact by (unfold exact_range; lia). cbn. lia.
  - pose proof (ticket_magnitude_filter (λ item : CartItem, id item ≠ itemId) l).
    unfold remove_item. cbn [items]. lia.
  - destruct (update_quantity_cases itemId ty q (mkCart l))
      as [->|(l1 & item & l2 & Heq & Hq & Hupd)]; [lia|].
    cbv zeta in Hupd. rewrite Hupd. cbn [items] in Heq. subst l.
    rewrite ticket_magnitude_app, ticket_magnitude_cons in Hbound.
    pose proof (ticket_magnitude_nonneg (mkCart l1)).
    pose proof (ticket_magnitude_nonneg (mkCart l2)).
    destruct (no_tickets _); rewrite !ticket_magnitude_app, !ticket_magnitude_cons; [lia|].
    destruct ty; cbn; lia.
  - rewrite ticket_magnitude_nil. lia.
Qed.

Lemma apply_call_has_tickets (c : call) (cart : Cart) :
  ticket_magnitude cart + call_magnitude c ≤ 9007199254740992 →
  Forall (λ newItem, has_tickets newItem ∧ counts_nonneg newItem) (add_inputs [c]) →
  Forall (λ item : CartItem, has_tickets item ∧ counts_nonneg item) (items cart) →
  Forall (λ item : CartItem, has_tickets item ∧ counts_nonneg item)
    (items (apply_call c cart)).
Proof.
  intros Hbound Hc Hinv.
  destruct c as [now newItem|itemId|itemId ty q|]; cbn [apply_call call_magnitude] in *.
  - apply Forall_cons in Hc as [Hnew _]. destruct cart as [l].
    destruct (add_item_cases now newItem (mkCart l))
      as [[_ ->]|(l1 & item & l2 & Heq & _ & _ & ->)]; cbn [items] in *.
    + apply Forall_app. split; [exact Hinv|]. apply Forall_cons. split; [exact Hnew|constructor].
    + subst l. rewrite ticket_magnitude_app, ticket_magnitude_cons in Hbound.
      pose proof (ticket_magnitude_nonneg (mkCart l1)).
      pose proof (ticket_magnitude_nonneg (mkCart l2)).
      apply Forall_app in Hinv as [Hinv1 [Hitem Hinv2]%Forall_cons].
      apply Forall_app. split; [exact Hinv1|]. apply Forall_cons. split; [|exact Hinv2].
      unfold has_tickets, counts_nonneg in *.
      rewrite tickets_add_tickets_exact by (unfold exact_range; lia). cbn. lia.
  - now apply remove_item_Forall.
  - apply update_quantity_Forall; [|exact Hinv].
    intros item [_ [Ha Hk]] Hq Hleft. unfold no_tickets in Hleft.
    apply andb_false_iff in Hleft as [Hleft|Hleft]; apply bool_decide_eq_false in Hleft;
      unfold has_tickets, counts_nonneg; destruct ty; cbn in *; lia.
  - constructor.
Qed.

End Reachable.

(** At most one item for a pair.  On a cart in which no two items have the
    same [(parkId, days)] pair (the empty cart, for one), every sequence of
    calls of [addItemToCart], [removeItemFromCart], [updateCartItemQuantity]
    and [clearCart] returns and leaves a cart in which no two items have the
    same pair: the cart has at most one item for any pair. *)
Theorem run_calls_unique_lines (cs : list call) (ls : Storage) (cart : Cart) :
  holds ls cart →
  NoDup (line_key <$> items cart) →
  ∃ ls' cart',
    run_calls cs ls = Return (tt, ls') ∧ holds ls' cart' ∧
    NoDup (line_key <$> items cart') ∧
    ∀ p d, (length (line_items p d cart') ≤ 1)%nat.
Proof.
  intros Hcart Hlines.
  destruct (run_calls_run cs ls cart Hcart) as (ls' & Hrun & Hholds).
  exists ls', (foldl (λ cart c, apply_call c cart) cart cs).
  split; [exact Hrun|]. split; [exact Hholds|].
  assert (Hinv : NoDup (line_key <$> items (foldl (λ cart c, apply_call c cart) cart cs))).
  { clear Hcart Hrun Hholds. revert cart Hlines.
    induction cs as [|c cs IH]; intros cart Hlines; [exact Hlines|].
    cbn [foldl]. now apply IH, apply_call_unique_lines. }
  split; [exact Hinv|]. intros p d. now apply NoDup_line_items.
Qed.

(** An instance: two additions for park [p1] and 2 days, one for 1 day, and
    an update, from the empty store. *)
Lemma run_calls_unique_lines_witness :
  let cs := [AddItemToCart 10 (example_input "p1" 2 2 1);
             AddItemToCart 20 (example_input "p1" 1 1 0);
             AddItemToCart 30 (example_input "p1" 2 1 3);
             UpdateCartItemQuantity "cart-20" Adults 4] in
  holds ∅ (mkCart []) ∧ NoDup (line_key <$> items (mkCart [])) ∧
  ∃ ls' cart',
    run_calls cs ∅ = Return (tt, ls') ∧ holds ls' cart' ∧
    (length (line_items "p1" 2 cart') ≤ 1)%nat.
Proof.
  intros cs. split; [apply holds_empty|]. split; [constructor|].
  destruct (run_calls_unique_lines cs ∅ (mkCart []) holds_empty)
    as (ls' & cart' & Hrun & Hholds & _ & Hone); [constructor|].
  exists ls', cart'. split; [exact Hrun|]. split; [exact Hholds|apply Hone].
Defined.

(** The ids stay distinct when the additions are made at distinct times.  On
    a cart whose ids are distinct and are not the ids [cart-<now>] of the
    additions to come, every sequence of calls whose [addItemToCart] calls
    run at pairwise distinct times returns and leaves a cart whose ids are
    distinct. *)
Theorem run_calls_unique_ids (cs : list call) (ls : Storage) (cart : Cart) :
  holds ls cart →
  NoDup (id <$> items cart) →
  NoDup (add_times cs) →
  Forall (λ item : CartItem, id item ∉ new_id <$> add_times cs) (items cart) →
  ∃ ls' cart',
    run_calls cs ls = Return (tt, ls') ∧ holds ls' cart' ∧
    NoDup (id <$> items cart').
Proof.
  intros Hcart Hids Htimes Hfresh.
  destruct (run_calls_run cs ls cart Hcart) as (ls' & Hrun & Hholds).
  exists ls', (foldl (λ cart c, apply_call c cart) cart cs).
  split; [exact Hrun|]. split; [exact Hholds|]. now apply apply_calls_unique_ids.
Qed.

(** An instance: three additions at the times 10, 20 and 30 and a removal,
    from the empty store. *)
Lemma run_calls_unique_ids_witness :
  let cs := [AddItemToCart 10 (example_input "p1" 2 2 1);
             AddItemToCart 20 (example_input "p1" 1 1 0);
             RemoveItemFromCart "cart-10";
             AddItemToCart 30 (example_input "p1" 2 1 3)] in
  holds ∅ (mkCart []) ∧ NoDup (add_times cs) ∧
  ∃ ls' cart',
    run_calls cs ∅ = Return (tt, ls') ∧ holds ls' cart' ∧
    NoDup (id <$> items cart').
Proof.
  intros cs.
  assert (Htimes : NoDup (add_times cs)).
  { change (NoDup [10; 20; 30]). repeat (apply NoDup_cons; split);
      [| |apply not_elem_of_nil|apply NoDup_nil; trivial];
      rewrite ?not_elem_of_cons; repeat split; try discriminate; apply not_elem_of_nil. }
  split; [apply holds_empty|]. split; [exact Htimes|].
  apply (run_calls_unique_ids cs ∅ (mkCart []) holds_empty); [constructor|exact Htimes|constructor].
Defined.

(** The invariant of the items over sequences of calls.  On a cart whose
    items all have at least one ticket and no negative count (the empty cart,
    for one), every sequence of calls whose [addItemToCart] inputs have at
    least one ticket and no negative count returns and leaves a cart whose
    items all have at least one ticket and no negative count; the counts being
    in the range in which the sums of the code are exact: the absolute values
    of the counts of the cart, of the inputs and of the new quantities sum to
    at most [2^53]. *)
Theorem run_calls_has_tickets (cs : list call) (ls : Storage) (cart : Cart) :
  holds ls cart →
  Forall (λ item : CartItem, has_tickets item ∧ counts_nonneg item) (items cart) →
  Forall (λ newItem, has_tickets newItem ∧ counts_nonneg newItem) (add_inputs cs) →
  ticket_magnitude cart + Zsum (call_magnitude <$> cs) ≤ 9007199254740992 →
  ∃ ls' cart',
    run_calls cs ls = Return (tt, ls') ∧ holds ls' cart' ∧
    Forall (λ item : CartItem, has_tickets item ∧ counts_nonneg item) (items cart').
Proof.
  intros Hcart Hinv Hcs Hbound.
  destruct (run_calls_run cs ls cart Hcart) as (ls' & Hrun & Hholds).
  exists ls', (foldl (λ cart c, apply_call c cart) cart cs).
  split; [exact Hrun|]. split; [exact Hholds|].
  clear Hcart Hrun Hholds. revert cart Hinv Hbound.
  induction cs as [|c cs IH]; intros cart Hinv Hbound; [exact Hinv|].
  rewrite add_inputs_cons in Hcs. apply Forall_app in Hcs as [Hc Hcs].
  rewrite fmap_cons, Zsum_cons in Hbound.
  assert (Hrest : 0 ≤ Zsum (call_magnitude <$> cs)).
  { clear. induction cs as [|c cs IH]; [reflexivity|].
    rewrite fmap_cons, Zsum_cons. destruct c; cbn [call_magnitude]; lia. }
  pose proof (apply_call_magnitude c cart) as Hmag.
  cbn [foldl]. apply IH; [exact Hcs| |lia].
  apply apply_call_has_tickets; [lia| |exact Hinv].
  unfold add_inputs. cbn. now rewrite List.app_nil_r.
Qed.

(** An instance: an addition, and updates that set both counts of the item to
    zero, from the empty store. *)
Lemma run_calls_has_tickets_witness :
  let cs := [AddItemToCart 10 (example_input "p1" 2 2 1);
             UpdateCartItemQuantity "cart-10" Adults 0;
             UpdateCartItemQuantity "cart-10" Kids 0] in
  holds ∅ (mkCart []) ∧
  ticket_magnitude (mkCart []) + Zsum (call_magnitude <$> cs) ≤ 9007199254740992 ∧
  ∃ ls' cart',
    run_calls cs ∅ = Return (tt, ls') ∧ holds ls' cart' ∧
    Forall (λ item : CartItem, has_tickets item ∧ counts_nonneg item) (items cart').
Proof.
  intros cs. split; [apply holds_empty|]. split; [vm_compute; discriminate|].
  apply (run_calls_has_tickets cs ∅ (mkCart []) holds_empty); [constructor| |].
  - repeat constructor; discriminate.
  - vm_compute. discriminate.
Defined.

(** ** Further properties: the badge of the header *)

Lemma ticket_count_pos (l : list CartItem) :
  Forall (λ item : CartItem, has_tickets item) l → l ≠ [] → 0 < ticket_count (mkCart l).
Proof.
  intros Hl Hne. destruct Hl as [|item l Hitem Hl]; [done|]. clear Hne.
  rewrite ticket_count_cons. unfold has_tickets in Hitem.
  assert (0 ≤ ticket_count (mkCart l)); [|lia].
  induction Hl as [|item' l' Hitem' _ IH]; [rewrite ticket_count_nil; lia|].
  rewrite ticket_count_cons. unfold has_tickets in Hitem'. lia.
Qed.

(** What [updateCartCount] writes to the badge of the header.  On a cart
    whose items all have at least one ticket, and whose counts are in the
    range in which the sums of the code are exact (their absolute values sum
    to at most [2^53]), the badge gets the number of tickets of the cart as
    its text, and it is displayed ([flex]) exactly when the cart has an item;
    an empty cart hides it ([none]).  On a page without the badge the function
    reads the cart and changes nothing. *)
Theorem updateCartCount_element_display (ls : Storage) (cart : Cart) (el : Element) :
  holds ls cart →
  Forall (λ item : CartItem, has_tickets item) (items cart) →
  ticket_magnitude cart ≤ 9007199254740992 →
  updateCartCount_element (Some el) ls
  = Return (Some (mkElement (string_of_Z (ticket_count cart))
                    (if decide (items cart = []) then "none" else "flex")), ls) ∧
  updateCartCount_element None ls = Return (None, ls).
Proof.
  intros Hcart Hinv Hbound. unfold updateCartCount_element, bind.
  rewrite (updateCartCount_run ls cart Hcart Hbound). split; [|reflexivity].
  unfold ret. do 4 f_equal. destruct cart as [l]. cbn [items] in *.
  destruct (decide (l = [])) as [->|Hne]; [reflexivity|].
  pose proof (ticket_count_pos l Hinv Hne) as Hpos.
  now replace (ticket_count (mkCart l) >? 0) with true by (symmetry; apply Z.gtb_lt; lia).
Qed.

(** An instance: a cart of 2 adults and 1 kid shows the badge with the text
    3. *)
Lemma updateCartCount_element_display_witness :
  let cart := mkCart [example_item "cart-1" "p1" 1 2 1] in
  holds (saved cart ∅) cart ∧
  Forall (λ item : CartItem, has_tickets item) (items cart) ∧
  ticket_magnitude cart ≤ 9007199254740992 ∧
  updateCartCount_element (Some (mkElement "0" "")) (saved cart ∅)
  = Return (Some (mkElement "3" "flex"), saved cart ∅).
Proof.
  intros cart.
  assert (Hinv : Forall (λ item : CartItem, has_tickets item) (items cart))
    by (repeat constructor).
  assert (Hbound : ticket_magnitude cart ≤ 9007199254740992)
    by (vm_compute; discriminate).
  split; [apply holds_saved|]. split; [exact Hinv|]. split; [exact Hbound|].
  exact (proj1 (updateCartCount_element_display (saved cart ∅) cart (mkElement "0" "")
                  (holds_saved cart ∅) Hinv Hbound)).
Defined.

(** ** Further properties: the order summary *)

#[local] Set Warnings "-inexact-float".

(** The total is not monotone in the subtotal: a cart can cost less than a
    cart with less in it.  10 adults at 50 for a day have the subtotal 500, no
    discount, and the total 540; with 1 kid at 30 more the subtotal is 530,
    the discount 53, and the total 515.15999999999997 (the binary64 numbers of
    the code). *)
Theorem summary_total_not_monotone :
  ∃ cart1 cart2 : Cart,
    items cart1 = [example_item "cart-1" "p1" 1 10 0] ∧
    items cart2 = [example_item "cart-1" "p1" 1 10 1] ∧
    createCartSummaryHTML cart1 = mkSummary 500%float 0%float 40%float 540%float ∧
    createCartSummaryHTML cart2
    = mkSummary 530%float 53%float 38.160000000000004%float 515.15999999999997%float ∧
    (subtotal (createCartSummaryHTML cart1) <? subtotal (createCartSummaryHTML cart2))%float
    = true ∧
    (total (createCartSummaryHTML cart2) <? total (createCartSummaryHTML cart1))%float
    = true.
Proof.
  exists (mkCart [example_item "cart-1" "p1" 1 10 0]),
    (mkCart [example_item "cart-1" "p1" 1 10 1]).
  repeat split; vm_compute; reflexivity.
Qed.

#[local] Set Warnings "inexact-float".

(** ** Further properties: star ratings *)

(** [getStarRatingHTML] always shows five stars: as many full stars as the
    whole part of the rating, at least none and at most five, and empty stars
    for the rest.  A rating below 1 (a negative one also) shows five empty
    stars, a rating of 5 or more shows five full stars, and a fraction is
    never shown: 4.5 and 4.9 show four full stars. *)
Theorem getStarRatingHTML_stars (rating : Q) :
  getStarRatingHTML rating
  = dquote "<div class='star-rating flex items-center'>"
    +:+ string_repeat (Z.to_nat (Z.max 0 (Z.min 5 (Qfloor rating)))) ICONS_star
    +:+ string_repeat (5 - Z.to_nat (Z.max 0 (Z.min 5 (Qfloor rating)))) ICONS_starEmpty
    +:+ "</div>".
Proof.
  unfold getStarRatingHTML. cbv zeta. generalize (Qfloor rating). intros f.
  change (seqZ 0 5) with [0; 1; 2; 3; 4]. cbn [foldl].
  assert (Hf : f ≤ 0 ∨ f = 1 ∨ f = 2 ∨ f = 3 ∨ f = 4 ∨ 5 ≤ f) by lia.
  destruct Hf as [Hf|[->|[->|[->|[->|Hf]]]]]; try (vm_compute; reflexivity).
  - replace (Z.to_nat (Z.max 0 (Z.min 5 f))) with 0%nat by lia.
    repeat match goal with
           | |- context [?i <? f] =>
               replace (i <? f) with false by (symmetry; apply Z.ltb_ge; lia)
           end.
    vm_compute. reflexivity.
  - replace (Z.to_nat (Z.max 0 (Z.min 5 f))) with 5%nat by lia.
    repeat match goal with
           | |- context [?i <? f] =>
               replace (i <? f) with true by (symmetry; apply Z.ltb_lt; lia)
           end.
    vm_compute. reflexivity.
Qed.

(** No call changes what is not a ticket count.  After a call that returns,
    the cart has the items it had, without those the call removed, in their
    order and with their id, park, day count, unit prices, park name and
    image, and at most one new item, which is the last one.  The ticket
    counts are all that a call changes of an item: the unit prices of an item
    are those of the input that made it, for as long as it is in the cart. *)
Theorem cart_operations_keep_fields (c : call) (ls : Storage) (cart : Cart) :
  holds ls cart →
  ∃ ls' cart',
    run_call c ls = Return (tt, ls') ∧ holds ls' cart' ∧
    (fixed_fields <$> items cart' `sublist_of` fixed_fields <$> items cart ∨
     ∃ now newItem,
       c = AddItemToCart now newItem ∧
       items cart' = items cart ++ [mkItem (new_id now) newItem]).
Proof.
  intros Hcart. destruct (run_call_run c ls cart Hcart) as (ls' & Hrun & Hholds & _).
  exists ls', (apply_call c cart). split; [exact Hrun|]. split; [exact Hholds|].
  destruct (apply_call_fmap fixed_fields c cart) as [Hsub|(now & newItem & -> & Hnew & _)];
    [reflexivity|now left|].
  right. exists now, newItem. split; [reflexivity|]. cbn [apply_call].
  now rewrite add_item_new.
Qed.

(** An instance: an update of the adults of the second item. *)
Lemma cart_operations_keep_fields_witness :
  let a := example_item "cart-1" "p1" 1 2 1 in
  let b := example_item "cart-2" "p2" 2 1 1 in
  holds (saved (mkCart [a; b]) ∅) (mkCart [a; b]) ∧
  ∃ ls' cart',
    run_call (UpdateCartItemQuantity "cart-2" Adults 6) (saved (mkCart [a; b]) ∅)
    = Return (tt, ls') ∧
    holds ls' cart' ∧
    fixed_fields <$> items cart' `sublist_of` [fixed_fields a; fixed_fields b].
Proof.
  intros a b. split; [apply holds_saved|].
  destruct (cart_operations_keep_fields (UpdateCartItemQuantity "cart-2" Adults 6)
              (saved (mkCart [a; b]) ∅) (mkCart [a; b]) (holds_saved _ _))
    as (ls' & cart' & Hrun & Hholds & [Hsub|(now & newItem & Hc & _)]); [|discriminate].
  exists ls', cart'. split; [exact Hrun|]. split; [exact Hholds|exact Hsub].
Defined.
